(** * The Windows backend of libusb (libusb/os/windows_usb.c)

    A shallow embedding of the parts of the backend that carry its
    behavioural contract: the identity hash table, the auto-claim counters,
    transfer completion, composite interface slots, device initialisation
    with host-controller bus numbers, and the cached configuration
    descriptors.

    C integers are [Z]; fixed-width arithmetic is written with its
    wrap-around.  Arrays are stdpp lists read with [!!] and written with
    [<[i:=x]>]; a read or write outside the array is undefined behaviour in
    C and is [None] here.  Calls into the operating system and into the
    libusb core are oracles passed as arguments, and what the code logs or
    calls is collected in a trace of events. *)

From Stdlib Require Import ZArith Lia.
From Stdlib Require Import Ascii String.
From stdpp Require Import base option list strings.

Local Open Scope Z_scope.

(** ** Machine integers *)

Module Ctypes.

(** [unsigned long] and [DWORD] are 32 bits wide on Windows (LLP64). *)
Definition ulong (z : Z) : Z := z mod 2 ^ 32.

(** [uint8_t] and [uint16_t]. *)
Definition uint8 (z : Z) : Z := z mod 2 ^ 8.
Definition uint16 (z : Z) : Z := z mod 2 ^ 16.

(** A [char] read as a value: plain [char] is signed with the Windows
    compilers, so bytes from 128 on are negative. *)
Definition char_val (a : ascii) : Z :=
  let n := Z.of_N (N_of_ascii a) in
  if n <? 128 then n else n - 256.

End Ctypes.

(** ** Arrays

    An index is a C integer; an access outside the array is undefined. *)

Module Carray.

Definition in_bounds {A : Type} (l : list A) (i : Z) : bool :=
  (0 <=? i) && (i <? Z.of_nat (length l)).
Global Arguments in_bounds : simpl never.

(** [l[i]]. *)
Definition aget {A : Type} (l : list A) (i : Z) : option A :=
  if in_bounds l i then l !! Z.to_nat i else None.

(** [l[i] = x]. *)
Definition aset {A : Type} (l : list A) (i : Z) (x : A) : option (list A) :=
  if in_bounds l i then Some (<[Z.to_nat i := x]> l) else None.

End Carray.

(** ** C strings

    A [string] stands for a [char] buffer: its characters followed by the
    terminating NUL.  Every function below stops at the first NUL, like the
    C library. *)

Module Cstr.
Import Ctypes.

Definition is_nul (a : ascii) : bool := char_val a =? 0.
Global Arguments is_nul : simpl never.

(** The characters before the first NUL: what [memcpy] of [strlen] bytes
    copies. *)
Fixpoint c_str (s : string) : string :=
  match s with
  | EmptyString => EmptyString
  | String a rest => if is_nul a then EmptyString else String a (c_str rest)
  end.

(** [strcmp(a, b) == 0]. *)
Fixpoint strcmp_eq (a b : string) : bool :=
  match a, b with
  | EmptyString, EmptyString => true
  | EmptyString, String y _ => is_nul y
  | String x _, EmptyString => is_nul x
  | String x a', String y b' =>
      if is_nul x then is_nul y
      else if Ascii.eqb x y then strcmp_eq a' b' else false
  end.

(** [safe_strcmp] of the backend's header: a NULL pointer is compared as
    the text ["<NULL>"]. *)
Definition safe_strcmp_eq (a b : option string) : bool :=
  strcmp_eq (default "<NULL>"%string a) (default "<NULL>"%string b).

(** [buf[i]]: a character of the text, the terminator right after it, and
    nothing beyond. *)
Definition char_at (s : string) (i : nat) : option Z :=
  match String.get i s with
  | Some a => Some (char_val a)
  | None => if (i =? String.length s)%nat then Some 0 else None
  end.

End Cstr.

(** ** The identity hash table ([htab_create], [htab_hash]) *)

Module Htab.
Import Ctypes Carray Cstr.

Record htab_entry : Type := mk_entry {
  used : Z;
  str : option string
}.

(** The three globals [htab_table], [htab_size], [htab_filled]. *)
Record htab : Type := mk_htab {
  htab_table : list htab_entry;
  htab_size : Z;
  htab_filled : Z
}.

(** [isprime]: trial division by the odd numbers from 3 on.  The loop
    stops after at most [number] rounds; [fuel] bounds it. *)
Fixpoint isprime_loop (fuel : nat) (number divider : Z) : option Z :=
  match fuel with
  | O => None
  | S f =>
      if (ulong (divider * divider) <? number) && negb (number mod divider =? 0)
      then isprime_loop f number (ulong (divider + 2))
      else Some divider
  end.

Definition isprime (number : Z) : option bool :=
  d ← isprime_loop (Z.to_nat number + 1) number 3;
  Some (negb (number mod d =? 0)).

Fixpoint next_prime (fuel : nat) (nel : Z) : option Z :=
  match fuel with
  | O => None
  | S f =>
      match isprime nel with
      | Some true => Some nel
      | Some false => next_prime f (ulong (nel + 2))
      | None => None
      end
  end.

(** [htab_create] for a table not yet allocated; [calloc] leaves every
    entry unused with a NULL string.  [None] when [calloc] fails. *)
Definition htab_create (calloc_ok : bool) (nel : Z) : option (option htab) :=
  size ← next_prime (Z.to_nat nel + 2) (Z.lor nel 1);
  if calloc_ok
  then Some (Some (mk_htab (replicate (Z.to_nat (size + 1)) (mk_entry 0 None)) size 0))
  else Some None.

(** The main hash value: [r = ((r << 5) + r) + c] over the characters. *)
Fixpoint hash_loop (r : Z) (sz : string) : Z :=
  match sz with
  | EmptyString => r
  | String a rest =>
      let c := char_val a in
      if c =? 0 then r
      else hash_loop (ulong (ulong (ulong (Z.shiftl r 5) + r) + c)) rest
  end.

Definition main_hash (s : string) : Z :=
  let r := hash_loop 5381 s in
  if r =? 0 then 1 else r.

Definition table_hash (size : Z) (s : string) : Z :=
  let hval := main_hash s mod size in
  if hval =? 0 then 1 else hval.

Definition entry_matches (e : htab_entry) (hval : Z) (s : string) : bool :=
  (used e =? hval) && safe_strcmp_eq (Some s) (str e).

(** One step of the probe sequence. *)
Definition probe_step (size hval2 idx : Z) : Z :=
  if idx <=? hval2 then ulong (ulong (size + idx) - hval2) else ulong (idx - hval2).

(** The outcome of the search: the string sits at an index, or an index
    is handed to the insertion code. *)
Inductive probe_result : Type :=
| Existing (idx : Z)
| NewEntry (idx : Z).

(** The [do ... while (htab_table[idx].used)] loop. *)
Fixpoint probe (fuel : nat) (t : htab) (s : string) (hval hval2 idx : Z)
  : option probe_result :=
  match fuel with
  | O => None
  | S f =>
      let idx := probe_step (htab_size t) hval2 idx in
      if idx =? hval then Some (NewEntry idx)
      else
        e ← htab_table t !! Z.to_nat idx;
        if entry_matches e hval s then Some (Existing idx)
        else if used e =? 0 then Some (NewEntry idx)
        else probe f t s hval hval2 idx
  end.

(** The search part of [htab_hash], up to the comment "Not found => New
    entry". *)
Definition htab_search (t : htab) (s : string) : option probe_result :=
  if htab_size t =? 0 then None
  else
    let hval := table_hash (htab_size t) s in
    e ← htab_table t !! Z.to_nat hval;
    if used e =? 0 then Some (NewEntry hval)
    else if entry_matches e hval s then Some (Existing hval)
    else
      let m := ulong (htab_size t - 2) in
      if m =? 0 then None
      else probe (Z.to_nat (htab_size t)) t s hval (ulong (1 + hval mod m)) hval.

(** [htab_hash]: the identifier returned and the table afterwards.
    [alloc_ok] tells whether the [calloc] of the string copy succeeds.
    The outer [None] is undefined behaviour (a division by zero or an
    access outside the table). *)
Definition htab_hash (alloc_ok : bool) (t : htab) (s : option string)
  : option (Z * htab) :=
  match s with
  | None => Some (0, t)
  | Some s =>
      r ← htab_search t s;
      match r with
      | Existing idx => Some (idx, t)
      | NewEntry idx =>
          if htab_size t <=? htab_filled t then Some (0, t)
          else if in_bounds (htab_table t) idx then
            if alloc_ok then
              Some (idx,
                    mk_htab (<[Z.to_nat idx := mk_entry (table_hash (htab_size t) s)
                                                        (Some (c_str s))]> (htab_table t))
                            (htab_size t) (ulong (htab_filled t + 1)))
            else
              Some (0, mk_htab (<[Z.to_nat idx := mk_entry 0 None]> (htab_table t))
                               (htab_size t) (htab_filled t))
          else None
      end
  end.

(** A table as [htab_create] leaves it and [htab_hash] keeps it: the
    allocation has [htab_size + 1] entries. *)
Definition htab_wf (t : htab) : Prop :=
  3 <= htab_size t < 2 ^ 31 ∧
  length (htab_table t) = Z.to_nat (htab_size t + 1).

(** The index the probe sequence reaches after [k] steps from [hval]. *)
Definition nth_probe (size hval hval2 k : Z) : Z :=
  (hval - 1 - k * hval2) mod size + 1.

Definition result_index (r : probe_result) : Z :=
  match r with Existing i => i | NewEntry i => i end.

End Htab.

(** ** Constants of the public and private headers

    The file includes [libusb.h], [libusbi.h], [windows_usb.h] and the
    Windows SDK headers.  The enumerations of [libusb.h] and the Windows
    error codes are fixed by their ABI and written out; the limits that
    [libusbi.h] and [windows_usb.h] define are the fields of
    [windows_usb_h], so every result holds for any value of them. *)

Module Libusb.

(** [enum libusb_error]. *)
Definition LIBUSB_SUCCESS : Z := 0.
Definition LIBUSB_ERROR_IO : Z := -1.
Definition LIBUSB_ERROR_INVALID_PARAM : Z := -2.
Definition LIBUSB_ERROR_ACCESS : Z := -3.
Definition LIBUSB_ERROR_NO_DEVICE : Z := -4.
Definition LIBUSB_ERROR_NOT_FOUND : Z := -5.
Definition LIBUSB_ERROR_BUSY : Z := -6.
Definition LIBUSB_ERROR_TIMEOUT : Z := -7.
Definition LIBUSB_ERROR_OVERFLOW : Z := -8.
Definition LIBUSB_ERROR_PIPE : Z := -9.
Definition LIBUSB_ERROR_INTERRUPTED : Z := -10.
Definition LIBUSB_ERROR_NO_MEM : Z := -11.
Definition LIBUSB_ERROR_NOT_SUPPORTED : Z := -12.
Definition LIBUSB_ERROR_OTHER : Z := -99.

(** [enum libusb_transfer_status]. *)
Definition LIBUSB_TRANSFER_COMPLETED : Z := 0.
Definition LIBUSB_TRANSFER_ERROR : Z := 1.
Definition LIBUSB_TRANSFER_TIMED_OUT : Z := 2.
Definition LIBUSB_TRANSFER_CANCELLED : Z := 3.
Definition LIBUSB_TRANSFER_STALL : Z := 4.
Definition LIBUSB_TRANSFER_NO_DEVICE : Z := 5.
Definition LIBUSB_TRANSFER_OVERFLOW : Z := 6.

(** [enum libusb_speed]. *)
Definition LIBUSB_SPEED_UNKNOWN : Z := 0.
Definition LIBUSB_SPEED_LOW : Z := 1.
Definition LIBUSB_SPEED_FULL : Z := 2.
Definition LIBUSB_SPEED_HIGH : Z := 3.
Definition LIBUSB_SPEED_SUPER : Z := 4.

Definition LIBUSB_CLASS_HUB : Z := 9.
Definition LIBUSB_CONTROL_SETUP_SIZE : Z := 8.
Definition LIBUSB_REQUEST_TYPE_STANDARD : Z := 0.
Definition LIBUSB_REQUEST_SET_CONFIGURATION : Z := 9.

(** Windows error codes ([winerror.h]) and handle values. *)
Definition NO_ERROR : Z := 0.
Definition ERROR_GEN_FAILURE : Z := 31.
Definition ERROR_SEM_TIMEOUT : Z := 121.
Definition ERROR_OPERATION_ABORTED : Z := 995.
Definition INVALID_HANDLE_VALUE : Z := -1.
Definition NoDeviceConnected : Z := 0.
Definition UINT8_MAX : Z := 255.
Definition INT_MAX : Z := 2 ^ 31 - 1.

Definition USB_DEVICE_DESCRIPTOR_TYPE : Z := 1.
Definition USB_CONFIGURATION_DESCRIPTOR_TYPE : Z := 2.

(** The limits and the macro result that the private headers define. *)
Class windows_usb_h : Type := {
  USB_MAXINTERFACES : Z;
  MAX_USB_HOST_CONTROLLERS : Z;
  MAX_CTRL_BUFFER_LENGTH : Z;
  (** the bit of [usbi_transfer.flags] that marks a transfer as timed out *)
  USBI_TRANSFER_TIMED_OUT : Z;
  (** what a function whose body is [PRINT_UNSUPPORTED_API(name)] returns *)
  PRINT_UNSUPPORTED_API : Z
}.

(** [enum] of the backends, the index into [usb_api_backend]. *)
Inductive usb_api : Type :=
| USB_API_UNSUPPORTED
| USB_API_HUB
| USB_API_COMPOSITE
| USB_API_WINUSBX
| USB_API_HID.

Global Instance usb_api_eq_dec : EqDecision usb_api.
Proof. solve_decision. Defined.

(** [SUB_API_NOTSET] of [windows_usb.h]; it is only compared for equality. *)
Definition SUB_API_NOTSET : Z := -1.

(** Log levels of [usbi_dbg], [usbi_info], [usbi_warn], [usbi_err]. *)
Inductive log_level : Type := LOG_DBG | LOG_INFO | LOG_WARN | LOG_ERR.

(** What the code does, in order: the messages logged (the format
    string), the calls into the libusb core ([libusb_claim_interface] and
    [libusb_release_interface] with their results, [usbi_free_fd],
    [usbi_handle_transfer_completion] with the status), and the runs of a
    backend's [copy_transfer_data] with their results. *)
Inductive event : Type :=
| EvLog (lvl : log_level) (fmt : string)
| EvClaimInterface (iface : Z) (r : Z)
| EvReleaseInterface (iface : Z) (r : Z)
| EvFreeFd
| EvCopyTransferData (api : usb_api) (r : Z)
| EvTransferCompletion (status : Z).

(** One slot of [windows_device_priv.usb_interface]. *)
Record usb_interface_t : Type := mk_usb_interface {
  path : option string;
  apib : usb_api;
  sub_api : Z;
  endpoint : option (list Z)
}.

Record hid_device_priv : Type := mk_hid { nb_interfaces : Z }.

Record USB_DEVICE_DESCRIPTOR : Type := mk_dev_descriptor {
  bLength : Z;
  bDescriptorType : Z;
  bDeviceClass : Z;
  idVendor : Z;
  idProduct : Z;
  bNumConfigurations : Z
}.

(** [struct windows_device_priv]; the device-level [path], [apib] and
    [sub_api] carry the prefix [dev_]. *)
Record windows_device_priv : Type := mk_priv {
  depth : Z;
  port : Z;
  device_id : option string;
  dev_path : option string;
  dev_apib : usb_api;
  dev_sub_api : Z;
  usb_interface : list usb_interface_t;
  hid : option hid_device_priv;
  active_config : Z;
  dev_descriptor : USB_DEVICE_DESCRIPTOR;
  config_descriptor : option (list (option (list Z)))
}.

(** [struct libusb_device] with its [os_priv]; [parent_dev] holds the
    session id of the referenced parent. *)
Record libusb_device : Type := mk_device {
  session_data : Z;
  bus_number : Z;
  port_number : Z;
  device_address : Z;
  num_configurations : Z;
  speed : Z;
  parent_dev : option Z;
  os_priv : windows_device_priv
}.

(** [windows_device_priv_init]. *)
Definition windows_device_priv_init `{windows_usb_h} : windows_device_priv :=
  mk_priv 0 0 None None USB_API_UNSUPPORTED SUB_API_NOTSET
    (replicate (Z.to_nat USB_MAXINTERFACES)
       (mk_usb_interface None USB_API_UNSUPPORTED SUB_API_NOTSET None))
    None 0 (mk_dev_descriptor 0 0 0 0 0 0) None.

(** [struct windows_device_handle_priv]: per interface the pair
    [(dev_handle, api_handle)] and the auto-claim count. *)
Record windows_device_handle_priv : Type := mk_handle_priv {
  active_interface : Z;
  interface_handle : list (Z * Z);
  autoclaim_count : list Z
}.

(** [int] addition; signed overflow is undefined. *)
Definition int_add (a b : Z) : option Z :=
  if (- 2 ^ 31 <=? a + b) && (a + b <=? INT_MAX) then Some (a + b) else None.

End Libusb.

(** ** Auto-claiming and auto-release ([auto_claim], [auto_release]) *)

Module Autoclaim.
Import Ctypes Carray Libusb.

(** The state a device handle lives in: the state of the libusb core and
    of the operating system (of any type [core]), the handle's private
    data, and the trace of events so far. *)
Record handle_state (core : Type) : Type := mk_state {
  st_core : core;
  st_handle : windows_device_handle_priv;
  st_trace : list event
}.
Global Arguments mk_state {core} _ _ _.
Global Arguments st_core {core} _.
Global Arguments st_handle {core} _.
Global Arguments st_trace {core} _.

(** [libusb_claim_interface] and [libusb_release_interface] belong to the
    libusb core, which calls the backend's claim and release operations;
    they may change the core and the handles of the interfaces.  The
    auto-claim counts are written by [auto_claim] and [auto_release] only. *)
Definition core_call (core : Type) : Type :=
  core → windows_device_handle_priv → Z → Z * core * windows_device_handle_priv.

Definition keep_counts (old new : windows_device_handle_priv)
  : windows_device_handle_priv :=
  mk_handle_priv (active_interface new) (interface_handle new) (autoclaim_count old).

Definition set_autoclaim_count (hp : windows_device_handle_priv) (counts : list Z)
  : windows_device_handle_priv :=
  mk_handle_priv (active_interface hp) (interface_handle hp) counts.

Definition log {core : Type} (st : handle_state core) (evs : list event)
  : handle_state core :=
  mk_state (st_core st) (st_handle st) (st_trace st ++ evs).

Section WithCore.
Context `{windows_usb_h} {core : Type}.
Variable libusb_claim_interface : core_call core.
Variable libusb_release_interface : core_call core.

Definition call_claim (st : handle_state core) (iface : Z) : Z * handle_state core :=
  let '(r, c, hp) := libusb_claim_interface (st_core st) (st_handle st) iface in
  (r, mk_state c (keep_counts (st_handle st) hp)
               (st_trace st ++ [EvClaimInterface iface r])).

Definition call_release (st : handle_state core) (iface : Z) : Z * handle_state core :=
  let '(r, c, hp) := libusb_release_interface (st_core st) (st_handle st) iface in
  (r, mk_state c (keep_counts (st_handle st) hp)
               (st_trace st ++ [EvReleaseInterface iface r])).

(** [handle_priv->autoclaim_count[i]++]. *)
Definition incr_autoclaim (st : handle_state core) (i : Z) : option (handle_state core) :=
  c ← aget (autoclaim_count (st_handle st)) i;
  c' ← int_add c 1;
  counts ← aset (autoclaim_count (st_handle st)) i c';
  Some (mk_state (st_core st) (set_autoclaim_count (st_handle st) counts) (st_trace st)).

(** The [for] loop of [auto_claim], with [n] rounds left: the value of
    [current_interface] when the loop is left, and the state. *)
Fixpoint auto_claim_scan (n : nat) (ifaces : list usb_interface_t) (api_type : usb_api)
    (current_interface : Z) (st : handle_state core) : option (Z * handle_state core) :=
  match n with
  | O => Some (current_interface, st)
  | S n' =>
      match aget ifaces current_interface with
      | None => None
      | Some ifc =>
          if decide (apib ifc = api_type) then
            let '(r, st1) := call_claim st current_interface in
            if r =? LIBUSB_SUCCESS then
              match aget (autoclaim_count (st_handle st1)) current_interface with
              | None => None
              | Some c =>
                  let st2 := log st1 (EvLog LOG_DBG "auto-claimed interface %d for control request"
                                      :: if c =? 0 then []
                                         else [EvLog LOG_WARN
                                                 "program assertion failed - autoclaim_count was nonzero"]) in
                  st3 ← incr_autoclaim st2 current_interface;
                  Some (current_interface, st3)
              end
            else auto_claim_scan n' ifaces api_type (current_interface + 1) st1
          else auto_claim_scan n' ifaces api_type (current_interface + 1) st
      end
  end.

(** [auto_claim]: the result, the interface number written back through
    the pointer, and the state. *)
Definition auto_claim (priv : windows_device_priv) (st : handle_state core)
    (interface_number : Z) (api_type : usb_api)
  : option (Z * Z * handle_state core) :=
  match api_type with
  | USB_API_WINUSBX | USB_API_HID =>
      if interface_number <? 0 then
        '(ci, st1) ← auto_claim_scan (Z.to_nat USB_MAXINTERFACES) (usb_interface priv)
                       api_type 0 st;
        if ci =? USB_MAXINTERFACES
        then Some (LIBUSB_ERROR_NOT_FOUND, ci,
                   log st1 [EvLog LOG_ERR "could not auto-claim any interface"])
        else Some (LIBUSB_SUCCESS, ci, st1)
      else
        c ← aget (autoclaim_count (st_handle st)) interface_number;
        if c =? 0 then Some (LIBUSB_SUCCESS, interface_number, st)
        else
          st1 ← incr_autoclaim st interface_number;
          Some (LIBUSB_SUCCESS, interface_number, st1)
  | _ => Some (LIBUSB_ERROR_INVALID_PARAM, interface_number, st)
  end.

(** [auto_release] for a transfer bound to [interface_number]. *)
Definition auto_release (st : handle_state core) (interface_number : Z)
  : option (handle_state core) :=
  c ← aget (autoclaim_count (st_handle st)) interface_number;
  if 0 <? c then
    counts ← aset (autoclaim_count (st_handle st)) interface_number (c - 1);
    let st1 := mk_state (st_core st) (set_autoclaim_count (st_handle st) counts)
                 (st_trace st) in
    if c - 1 =? 0 then
      let '(r, st2) := call_release st1 interface_number in
      Some (log st2 [EvLog LOG_DBG (if r =? LIBUSB_SUCCESS
                                    then "auto-released interface %d"
                                    else "failed to auto-release interface %d (%s)")])
    else Some st1
  else Some st.

(** No interface of the family [api_type] can be claimed: whenever the
    core is asked for one, it refuses. *)
Definition never_claims (ifaces : list usb_interface_t) (api_type : usb_api) : Prop :=
  ∀ (i : Z) (ifc : usb_interface_t) (c : core) (hp : windows_device_handle_priv),
    aget ifaces i = Some ifc → apib ifc = api_type →
    (libusb_claim_interface c hp i).1.1 ≠ LIBUSB_SUCCESS.

(** [get_valid_interface]: the first interface of the backend family
    [api_id] whose two handles are set, or -1. *)
Definition handle_set (h : Z) : bool :=
  negb (h =? 0) && negb (h =? INVALID_HANDLE_VALUE).

Fixpoint get_valid_interface_loop (n : nat) (handles : list (Z * Z))
    (ifaces : list usb_interface_t) (api_id : usb_api) (i : Z) : option Z :=
  match n with
  | O => Some (-1)
  | S n' =>
      '(dev_h, api_h) ← aget handles i;
      ifc ← aget ifaces i;
      if handle_set dev_h && handle_set api_h && bool_decide (apib ifc = api_id)
      then Some i
      else get_valid_interface_loop n' handles ifaces api_id (i + 1)
  end.

Definition get_valid_interface (priv : windows_device_priv)
    (hp : windows_device_handle_priv) (api_id : usb_api) : option Z :=
  match api_id with
  | USB_API_WINUSBX | USB_API_HID =>
      get_valid_interface_loop (Z.to_nat USB_MAXINTERFACES) (interface_handle hp)
        (usb_interface priv) api_id 0
  | _ => Some (-1)
  end.

End WithCore.

(** The events that are calls of the release operation. *)
Definition is_release (e : event) : bool :=
  match e with EvReleaseInterface _ _ => true | _ => false end.

Definition is_claim (e : event) : bool :=
  match e with EvClaimInterface _ _ => true | _ => false end.

(** How often the release, respectively claim, operation was called. *)
Definition release_calls (tr : list event) : nat := length (List.filter is_release tr).
Definition claim_calls (tr : list event) : nat := length (List.filter is_claim tr).
Global Arguments release_calls : simpl never.
Global Arguments claim_calls : simpl never.

(** [handle_priv->autoclaim_count[i]]. *)
Definition count_at {core : Type} (st : handle_state core) (i : Z) : option Z :=
  aget (autoclaim_count (st_handle st)) i.

End Autoclaim.

(** ** Transfers: submission of control transfers, completion, teardown *)

Module Transfer.
Import Ctypes Carray Libusb Autoclaim.

(** [struct windows_transfer_priv].  [pollable_fd] is [None] for
    [INVALID_WINFD]; [hid_dest] points into the buffer of the transfer and
    is kept as an offset into it. *)
Record windows_transfer_priv : Type := mk_transfer_priv {
  pollable_fd : option Z;
  hid_buffer : option (list Z);
  hid_dest : option Z;
  hid_expected_size : Z;
  interface_number : Z
}.

(** The fields of [struct usbi_transfer] and [struct libusb_transfer] the
    backend touches, with the backend's private part. *)
Record usbi_transfer : Type := mk_transfer {
  transferred : Z;
  flags : Z;
  buffer : list Z;
  xfer_length : Z;
  transfer_priv : windows_transfer_priv
}.

Definition set_transfer_priv (it : usbi_transfer) (tp : windows_transfer_priv)
  : usbi_transfer :=
  mk_transfer (transferred it) (flags it) (buffer it) (xfer_length it) tp.

(** [int] as the result of a conversion from a 32-bit unsigned value. *)
Definition to_int (z : Z) : Z := (z + 2 ^ 31) mod 2 ^ 32 - 2 ^ 31.

(** [itransfer->transferred += n] for a 32-bit unsigned [n]. *)
Definition add_transferred (it : usbi_transfer) (n : Z) : usbi_transfer :=
  mk_transfer (to_int (ulong (transferred it + n))) (flags it) (buffer it)
    (xfer_length it) (transfer_priv it).

(** [memcpy(dst + off, src + from, n)]: both ranges must lie inside their
    buffers. *)
Definition memcpy (dst : list Z) (off : Z) (src : list Z) (from n : Z)
  : option (list Z) :=
  if (0 <=? off) && (0 <=? from) && (0 <=? n)
     && (off + n <=? Z.of_nat (length dst))
     && (from + n <=? Z.of_nat (length src))
  then Some (take (Z.to_nat off) dst
             ++ take (Z.to_nat n) (drop (Z.to_nat from) src)
             ++ drop (Z.to_nat (off + n)) dst)
  else None.

(** [winusbx_copy_transfer_data]. *)
Definition winusbx_copy_transfer_data (it : usbi_transfer) (io_size : Z)
  : option (Z * usbi_transfer * list event) :=
  Some (LIBUSB_TRANSFER_COMPLETED, add_transferred it io_size, []).

(** [hid_copy_transfer_data]. *)
Definition hid_copy_transfer_data (it : usbi_transfer) (io_size : Z)
  : option (Z * usbi_transfer * list event) :=
  let tp := transfer_priv it in
  match hid_buffer tp with
  | None => Some (LIBUSB_TRANSFER_COMPLETED, add_transferred it io_size, [])
  | Some hbuf =>
      match hid_dest tp with
      | None =>
          let tp' := mk_transfer_priv (pollable_fd tp) None None
                       (hid_expected_size tp) (interface_number tp) in
          Some (LIBUSB_TRANSFER_COMPLETED,
                add_transferred (set_transfer_priv it tp') io_size, [])
      | Some dest =>
          let overflow := hid_expected_size tp <? io_size in
          let corrected_size := if overflow then ulong (hid_expected_size tp) else io_size in
          let r := if overflow then LIBUSB_TRANSFER_OVERFLOW else LIBUSB_TRANSFER_COMPLETED in
          let evs := if overflow then [EvLog LOG_ERR "OVERFLOW!"] else [] in
          first ← aget hbuf 0;
          let corrected_size := if first =? 0 then ulong (corrected_size - 1) else corrected_size in
          buf' ← memcpy (buffer it) dest hbuf (if first =? 0 then 1 else 0) corrected_size;
          let tp' := mk_transfer_priv (pollable_fd tp) None None
                       (hid_expected_size tp) (interface_number tp) in
          Some (r,
                add_transferred
                  (mk_transfer (transferred it) (flags it) buf' (xfer_length it) tp')
                  corrected_size,
                evs)
      end
  end.

Section WithHeader.
Context `{windows_usb_h}.

(** [unsupported_copy_transfer_data]. *)
Definition unsupported_copy_transfer_data (it : usbi_transfer) (io_size : Z)
  : option (Z * usbi_transfer * list event) :=
  Some (PRINT_UNSUPPORTED_API, it,
        [EvLog LOG_DBG "unsupported API call for 'copy_transfer_data'"]).

(** [composite_copy_transfer_data] hands over to the backend of the
    interface the transfer is bound to.  An interface slot that names the
    composite backend again would recurse without end. *)
Definition composite_copy_transfer_data (priv : windows_device_priv)
    (it : usbi_transfer) (io_size : Z) : option (Z * usbi_transfer * list event) :=
  ifc ← aget (usb_interface priv) (interface_number (transfer_priv it));
  match apib ifc with
  | USB_API_UNSUPPORTED | USB_API_HUB => unsupported_copy_transfer_data it io_size
  | USB_API_WINUSBX => winusbx_copy_transfer_data it io_size
  | USB_API_HID => hid_copy_transfer_data it io_size
  | USB_API_COMPOSITE => None
  end.

(** [priv->apib->copy_transfer_data], through [usb_api_backend]. *)
Definition copy_transfer_data (priv : windows_device_priv)
    (it : usbi_transfer) (io_size : Z) : option (Z * usbi_transfer * list event) :=
  match dev_apib priv with
  | USB_API_UNSUPPORTED | USB_API_HUB => unsupported_copy_transfer_data it io_size
  | USB_API_COMPOSITE => composite_copy_transfer_data priv it io_size
  | USB_API_WINUSBX => winusbx_copy_transfer_data it io_size
  | USB_API_HID => hid_copy_transfer_data it io_size
  end.

Context {core : Type}.
Variable libusb_claim_interface : core_call core.
Variable libusb_release_interface : core_call core.

(** [windows_clear_transfer_priv]: the teardown of a transfer. *)
Definition windows_clear_transfer_priv (it : usbi_transfer) (st : handle_state core)
  : option (usbi_transfer * handle_state core) :=
  let tp := transfer_priv it in
  let tp' := mk_transfer_priv None None (hid_dest tp) (hid_expected_size tp)
               (interface_number tp) in
  st' ← auto_release libusb_release_interface (log st [EvFreeFd]) (interface_number tp);
  Some (set_transfer_priv it tp', st').

(** The [switch (io_result)] of [windows_transfer_callback]: the status
    it settles on. *)
Definition completion_status (priv : windows_device_priv)
    (it : usbi_transfer) (st : handle_state core) (io_result io_size : Z)
  : option (Z * usbi_transfer * handle_state core) :=
  if io_result =? NO_ERROR then
    '(r, it', evs) ← copy_transfer_data priv it io_size;
    Some (r, it', log st (EvCopyTransferData (dev_apib priv) r :: evs))
  else if io_result =? ERROR_GEN_FAILURE then
    Some (LIBUSB_TRANSFER_STALL, it, log st [EvLog LOG_DBG "detected endpoint stall"])
  else if io_result =? ERROR_SEM_TIMEOUT then
    Some (LIBUSB_TRANSFER_TIMED_OUT, it,
          log st [EvLog LOG_DBG "detected semaphore timeout"])
  else if io_result =? ERROR_OPERATION_ABORTED then
    '(istatus, it', evs) ← copy_transfer_data priv it io_size;
    let st := log st (EvCopyTransferData (dev_apib priv) istatus :: evs) in
    let st := if istatus =? LIBUSB_TRANSFER_COMPLETED then st
              else log st [EvLog LOG_DBG
                             "Failed to copy partial data in aborted operation: %d"] in
    if Z.land (flags it') USBI_TRANSFER_TIMED_OUT =? 0
    then Some (LIBUSB_TRANSFER_CANCELLED, it',
               log st [EvLog LOG_DBG "detected operation aborted"])
    else Some (LIBUSB_TRANSFER_TIMED_OUT, it', log st [EvLog LOG_DBG "detected timeout"])
  else
    Some (LIBUSB_TRANSFER_ERROR, it, log st [EvLog LOG_ERR "detected I/O error %d: %s"]).

(** [windows_transfer_callback]: the status is settled, the transfer is
    torn down, and the status is handed to
    [usbi_handle_transfer_completion]. *)
Definition windows_transfer_callback (priv : windows_device_priv)
    (it : usbi_transfer) (st : handle_state core) (io_result io_size : Z)
  : option (usbi_transfer * handle_state core) :=
  let st := log st [EvLog LOG_DBG "handling I/O completion with errcode %d, size %d"] in
  '(status, it, st) ← completion_status priv it st io_result io_size;
  '(it, st) ← windows_clear_transfer_priv it st;
  Some (it, log st [EvTransferCompletion status]).

(** The teardown of several transfers one after the other, as the event
    loop completes them. *)
Fixpoint teardown_all (its : list usbi_transfer) (st : handle_state core)
  : option (handle_state core) :=
  match its with
  | [] => Some st
  | it :: rest =>
      '(_, st') ← windows_clear_transfer_priv it st;
      teardown_all rest st'
  end.

(** What the operating system answers while a control transfer is
    submitted: whether the sub-API was loaded ([WinUSBX[sub_api].initialized]),
    the descriptor [usbi_create_fd] makes for a handle ([None] when it
    fails), and the outcome of [ControlTransfer]. *)
Inductive control_outcome : Type := CtDone | CtPending | CtFailed.

Variable winusbx_initialized : Z → bool.
Variable usbi_create_fd : core → Z → option Z.
Variable ControlTransfer : core → Z → list Z → control_outcome.

(** [winusbx_submit_control_transfer]. *)
Definition winusbx_submit_control_transfer (priv : windows_device_priv) (sub_api : Z)
    (it : usbi_transfer) (st : handle_state core)
  : option (Z * usbi_transfer * handle_state core) :=
  let sub_api := if sub_api =? SUB_API_NOTSET then dev_sub_api priv else sub_api in
  if negb (winusbx_initialized sub_api) then Some (LIBUSB_ERROR_ACCESS, it, st)
  else
    let tp := transfer_priv it in
    let it := set_transfer_priv it
                (mk_transfer_priv None (hid_buffer tp) (hid_dest tp)
                   (hid_expected_size tp) (interface_number tp)) in
    let size := ulong (xfer_length it - LIBUSB_CONTROL_SETUP_SIZE) in
    if MAX_CTRL_BUFFER_LENGTH <? size then Some (LIBUSB_ERROR_INVALID_PARAM, it, st)
    else
      current_interface ← get_valid_interface priv (st_handle st) USB_API_WINUSBX;
      '(r, current_interface, st) ←
        (if current_interface <? 0
         then auto_claim libusb_claim_interface priv st current_interface USB_API_WINUSBX
         else Some (LIBUSB_SUCCESS, current_interface, st));
      if negb (r =? LIBUSB_SUCCESS) then Some (LIBUSB_ERROR_NOT_FOUND, it, st)
      else
        let st := log st [EvLog LOG_DBG "will use interface %d"] in
        '(_, winusb_handle) ← aget (interface_handle (st_handle st)) current_interface;
        match usbi_create_fd (st_core st) winusb_handle with
        | None => Some (LIBUSB_ERROR_NO_MEM, it, st)
        | Some wfd =>
            let submitted :=
              set_transfer_priv it
                (mk_transfer_priv (Some wfd) (hid_buffer tp) (hid_dest tp)
                   (hid_expected_size tp) (uint8 current_interface)) in
            request_type ← aget (buffer it) 0;
            set_configuration ←
              (if Z.land request_type (Z.shiftl 3 5) =? LIBUSB_REQUEST_TYPE_STANDARD
               then request ← aget (buffer it) 1;
                    Some (request =? LIBUSB_REQUEST_SET_CONFIGURATION)
               else Some false);
            if set_configuration : bool then
              value_lo ← aget (buffer it) 2;
              value_hi ← aget (buffer it) 3;
              if negb (Z.lor value_lo (Z.shiftl value_hi 8) =? active_config priv)
              then Some (LIBUSB_ERROR_INVALID_PARAM, it,
                         log st [EvLog LOG_WARN
                                   "cannot set configuration other than the default one";
                                 EvFreeFd])
              else Some (LIBUSB_SUCCESS, submitted, st)
            else
              match ControlTransfer (st_core st) wfd (buffer it) with
              | CtFailed => Some (LIBUSB_ERROR_IO, it,
                                  log st [EvLog LOG_WARN "ControlTransfer failed: %s";
                                          EvFreeFd])
              | CtDone | CtPending => Some (LIBUSB_SUCCESS, submitted, st)
              end
        end.

End WithHeader.

(** The vocabulary of terminal statuses the specification names. *)
Definition status_vocabulary : list Z :=
  [LIBUSB_TRANSFER_COMPLETED; LIBUSB_TRANSFER_STALL; LIBUSB_TRANSFER_TIMED_OUT;
   LIBUSB_TRANSFER_CANCELLED; LIBUSB_TRANSFER_ERROR].

(** The statuses reported to the core, in order. *)
Definition completions (tr : list event) : list Z :=
  omap (λ e, match e with EvTransferCompletion s => Some s | _ => None end) tr.
Global Arguments completions : simpl never.

(** What a copy step can return, and what it leaves alone. *)
Definition copy_result_ok `{windows_usb_h} (it : usbi_transfer)
    (res : Z * usbi_transfer * list event) : Prop :=
  let '(r, it', evs) := res in
  (r = LIBUSB_TRANSFER_COMPLETED ∨ r = LIBUSB_TRANSFER_OVERFLOW ∨ r = PRINT_UNSUPPORTED_API)
  ∧ flags it' = flags it
  ∧ interface_number (transfer_priv it') = interface_number (transfer_priv it)
  ∧ completions evs = [].

(** The status the [switch] settles on, case by case. *)
Definition status_settled `{windows_usb_h} (priv : windows_device_priv) (it : usbi_transfer)
    (io_result io_size : Z) (status : Z) (evs : list event) : Prop :=
  (In status status_vocabulary ∨ status = LIBUSB_TRANSFER_OVERFLOW
   ∨ status = PRINT_UNSUPPORTED_API)
  ∧ (io_result ≠ NO_ERROR → In status status_vocabulary)
  ∧ (io_result = NO_ERROR →
       ∃ it1 l, copy_transfer_data priv it io_size = Some (status, it1, l)
                ∧ In (EvCopyTransferData (dev_apib priv) status) evs)
  ∧ (io_result = ERROR_OPERATION_ABORTED →
       ∃ r it1 l, copy_transfer_data priv it io_size = Some (r, it1, l)
                  ∧ In (EvCopyTransferData (dev_apib priv) r) evs
                  ∧ status = (if Z.land (flags it) USBI_TRANSFER_TIMED_OUT =? 0
                              then LIBUSB_TRANSFER_CANCELLED
                              else LIBUSB_TRANSFER_TIMED_OUT)
                  ∧ (r ≠ LIBUSB_TRANSFER_COMPLETED →
                     In (EvLog LOG_DBG "Failed to copy partial data in aborted operation: %d")
                        evs)).

End Transfer.

(** ** Interface slots of a composite device
       ([set_composite_interface], [unset_composite_interface]) *)

Module Composite.
Import Ctypes Carray Cstr Libusb.

Definition set_usb_interface (priv : windows_device_priv) (l : list usb_interface_t)
  : windows_device_priv :=
  mk_priv (depth priv) (port priv) (device_id priv) (dev_path priv) (dev_apib priv)
    (dev_sub_api priv) l (hid priv) (active_config priv) (dev_descriptor priv)
    (config_descriptor priv).

Definition set_hid (priv : windows_device_priv) (h : option hid_device_priv)
  : windows_device_priv :=
  mk_priv (depth priv) (port priv) (device_id priv) (dev_path priv) (dev_apib priv)
    (dev_sub_api priv) (usb_interface priv) h (active_config priv) (dev_descriptor priv)
    (config_descriptor priv).

Definition char_M : Z := 77.
Definition char_I : Z := 73.
Definition char_underscore : Z := 95.
Definition char_0 : Z := 48.

(** The loop that reads the interface number out of the instance id:
    [interface_number] and the index [i] when the loop is left.  Each
    [device_id[i++] == c] of the condition moves [i] on, also when the
    comparison fails.  The index grows in every round, so the length of
    the buffer bounds the number of rounds. *)
Fixpoint scan_MI (fuel : nat) (device_id : string) (i : nat) : option (Z * nat) :=
  match fuel with
  | O => None
  | S f =>
      c ← char_at device_id i;
      if c =? 0 then Some (0, i)
      else if c =? char_M then
        c1 ← char_at device_id (i + 1);
        if c1 =? char_I then
          c2 ← char_at device_id (i + 2);
          if c2 =? char_underscore then
            d1 ← char_at device_id (i + 3);
            d2 ← char_at device_id (i + 4);
            Some ((d1 - char_0) * 10 + (d2 - char_0), (i + 4)%nat)
          else scan_MI f device_id (i + 3)
        else scan_MI f device_id (i + 2)
      else scan_MI f device_id (i + 1)
  end.

(** The interface number, and whether the warning "failure to read
    interface number" is given ([device_id[i] == 0] after the loop). *)
Definition parse_interface_number (device_id : string) : option (Z * bool) :=
  '(interface_number, i) ← scan_MI (String.length device_id + 1) device_id 0;
  c ← char_at device_id i;
  Some (interface_number, c =? 0).

Definition warn_default (warn : bool) : list event :=
  if warn then [EvLog LOG_WARN "failure to read interface number for %s. Using default value %d"]
  else [].

Section WithHeader.
Context `{windows_usb_h}.

(** [set_composite_interface]; [calloc_ok] tells whether the allocation of
    [priv->hid] succeeds. *)
Definition set_composite_interface (calloc_ok : bool) (priv : windows_device_priv)
    (dev_interface_path device_id : string) (api : usb_api) (sub_api : Z)
  : option (Z * windows_device_priv * list event) :=
  if negb (bool_decide (dev_apib priv = USB_API_COMPOSITE)) then
    Some (LIBUSB_ERROR_NO_DEVICE, priv,
          [EvLog LOG_ERR "program assertion failed: '%s' is not composite"])
  else
    '(interface_number, warn) ← parse_interface_number device_id;
    let evs := warn_default warn in
    if USB_MAXINTERFACES <=? interface_number then
      Some (LIBUSB_ERROR_OTHER, priv,
            evs ++ [EvLog LOG_ERR "program assertion failed: max USB interface number exceeded"])
    else
      slot ← aget (usb_interface priv) interface_number;
      if bool_decide (path slot ≠ None) && bool_decide (api = USB_API_HID) then
        Some (LIBUSB_ERROR_ACCESS, priv,
              evs ++ [EvLog LOG_DBG "interface[%d] already set - ignoring HID collection: %s"])
      else
        slots ← aset (usb_interface priv) interface_number
                  (mk_usb_interface (Some dev_interface_path) api sub_api (endpoint slot));
        let priv := set_usb_interface priv slots in
        let evs := evs ++ [EvLog LOG_DBG "interface[%d] = %s"] in
        if bool_decide (api = USB_API_HID) && bool_decide (hid priv = None) then
          if calloc_ok then Some (LIBUSB_SUCCESS, set_hid priv (Some (mk_hid 0)), evs)
          else Some (LIBUSB_ERROR_NO_MEM, priv, evs)
        else Some (LIBUSB_SUCCESS, priv, evs).

(** [unset_composite_interface]. *)
Definition unset_composite_interface (priv : windows_device_priv) (device_id : string)
  : option (windows_device_priv * list event) :=
  if negb (bool_decide (dev_apib priv = USB_API_COMPOSITE)) then
    Some (priv, [EvLog LOG_ERR "program assertion failed: '%s' is not composite"])
  else
    '(interface_number, warn) ← parse_interface_number device_id;
    let evs := warn_default warn in
    if USB_MAXINTERFACES <=? interface_number then
      Some (priv,
            evs ++ [EvLog LOG_ERR "program assertion failed: max USB interface number exceeded"])
    else
      slot ← aget (usb_interface priv) interface_number;
      match path slot with
      | None => Some (priv, evs)
      | Some _ =>
          slots ← aset (usb_interface priv) interface_number
                    (mk_usb_interface None USB_API_UNSUPPORTED SUB_API_NOTSET (endpoint slot));
          let priv := set_usb_interface priv slots in
          let hid_present :=
            existsb (λ ifc, bool_decide (apib ifc = USB_API_HID))
              (take (Z.to_nat USB_MAXINTERFACES) slots) in
          Some (if hid_present then priv else set_hid priv None,
                evs ++ [EvLog LOG_DBG "removing interface[%d] = %s"])
      end.

End WithHeader.

(** A text in which neither a NUL nor the letter M occurs. *)
Fixpoint no_M (s : string) : bool :=
  match s with
  | EmptyString => true
  | String a rest => negb (char_val a =? 0) && negb (char_val a =? char_M) && no_M rest
  end.

(** An instance id with the marker: [pre], then [MI_], two characters and
    the rest. *)
Definition with_marker (pre : string) (d1 d2 : ascii) (post : string) : string :=
  String.append pre (String "M" (String "I" (String "_" (String d1 (String d2 post))))).

(** The path in slot [i], [None] when the slot is empty. *)
Definition slot_path (priv : windows_device_priv) (i : Z) : option string :=
  aget (usb_interface priv) i ≫= path.

End Composite.

(** ** Device initialisation and bus numbers
       ([force_hcd_device_descriptor], [cache_config_descriptors],
       [init_device]) *)

Module Enumerate.
Import Ctypes Carray Cstr Libusb.

Definition set_priv (dev : libusb_device) (priv : windows_device_priv) : libusb_device :=
  mk_device (session_data dev) (bus_number dev) (port_number dev) (device_address dev)
    (num_configurations dev) (speed dev) (parent_dev dev) priv.

Definition set_bus_number (dev : libusb_device) (b : Z) : libusb_device :=
  mk_device (session_data dev) b (port_number dev) (device_address dev)
    (num_configurations dev) (speed dev) (parent_dev dev) (os_priv dev).

Definition set_port_number (dev : libusb_device) (p : Z) : libusb_device :=
  mk_device (session_data dev) (bus_number dev) p (device_address dev)
    (num_configurations dev) (speed dev) (parent_dev dev) (os_priv dev).

Definition set_device_address (dev : libusb_device) (a : Z) : libusb_device :=
  mk_device (session_data dev) (bus_number dev) (port_number dev) a
    (num_configurations dev) (speed dev) (parent_dev dev) (os_priv dev).

Definition set_num_configurations (dev : libusb_device) (n : Z) : libusb_device :=
  mk_device (session_data dev) (bus_number dev) (port_number dev) (device_address dev)
    n (speed dev) (parent_dev dev) (os_priv dev).

Definition set_speed (dev : libusb_device) (sp : Z) : libusb_device :=
  mk_device (session_data dev) (bus_number dev) (port_number dev) (device_address dev)
    (num_configurations dev) sp (parent_dev dev) (os_priv dev).

Definition set_parent_dev (dev : libusb_device) (p : option Z) : libusb_device :=
  mk_device (session_data dev) (bus_number dev) (port_number dev) (device_address dev)
    (num_configurations dev) (speed dev) p (os_priv dev).

Definition set_port_depth (priv : windows_device_priv) (p d : Z) : windows_device_priv :=
  mk_priv d p (device_id priv) (dev_path priv) (dev_apib priv) (dev_sub_api priv)
    (usb_interface priv) (hid priv) (active_config priv) (dev_descriptor priv)
    (config_descriptor priv).

Definition set_descriptor (priv : windows_device_priv) (d : USB_DEVICE_DESCRIPTOR)
    (active : Z) : windows_device_priv :=
  mk_priv (depth priv) (port priv) (device_id priv) (dev_path priv) (dev_apib priv)
    (dev_sub_api priv) (usb_interface priv) (hid priv) active d (config_descriptor priv).

Definition set_config_descriptor (priv : windows_device_priv)
    (c : option (list (option (list Z)))) : windows_device_priv :=
  mk_priv (depth priv) (port priv) (device_id priv) (dev_path priv) (dev_apib priv)
    (dev_sub_api priv) (usb_interface priv) (hid priv) (active_config priv)
    (dev_descriptor priv) c.

Definition set_bNumConfigurations (d : USB_DEVICE_DESCRIPTOR) (n : Z) : USB_DEVICE_DESCRIPTOR :=
  mk_dev_descriptor (bLength d) (bDescriptorType d) (bDeviceClass d) (idVendor d)
    (idProduct d) n.

(** [sizeof(USB_DEVICE_DESCRIPTOR)], [sizeof(USB_CONFIGURATION_DESCRIPTOR)]
    and [sizeof(USB_DESCRIPTOR_REQUEST)] (packed). *)
Definition sizeof_USB_DEVICE_DESCRIPTOR : Z := 18.
Definition sizeof_USB_CONFIGURATION_DESCRIPTOR : Z := 9.
Definition sizeof_USB_DESCRIPTOR_REQUEST : Z := 12.

(** The global [host_controller]: per index the saved instance id of a
    host controller, or NULL. *)
Abbreviation hc_table := (list (option string)).

Section WithHeader.
Context `{windows_usb_h}.

(** The [for] loop of [force_hcd_device_descriptor] with [n] rounds left:
    the index at which it is left, and the table.  [strdup_ok] tells
    whether [_strdup] succeeds. *)
Fixpoint hcd_lookup (n : nat) (strdup_ok : bool) (table : hc_table)
    (hcd_device_id : string) (index : Z) : option (Z * hc_table) :=
  match n with
  | O => Some (index, table)
  | S n' =>
      e ← aget table index;
      match e with
      | None =>
          table' ← aset table index (if strdup_ok then Some (c_str hcd_device_id) else None);
          Some (index, table')
      | Some hc =>
          if strcmp_eq hc hcd_device_id then Some (index, table)
          else hcd_lookup n' strdup_ok table hcd_device_id (index + 1)
      end
  end.

(** [force_hcd_device_descriptor].  [hcd_device_id] is what
    [get_parent_device_id] returns for the root hub, [pci_ids] what
    [sscanf] reads out of it (vendor and device id), if it matches. *)
Definition force_hcd_device_descriptor (hcd_device_id : option string)
    (strdup_ok : bool) (pci_ids : option (Z * Z))
    (table : hc_table) (dev : libusb_device)
  : option (Z * hc_table * libusb_device * list event) :=
  match hcd_device_id with
  | None =>
      Some (LIBUSB_ERROR_NOT_FOUND, table, dev,
            [EvLog LOG_ERR "could not retrieve host controller device id for root hub '%s'"])
  | Some id =>
      '(index, table) ← hcd_lookup (Z.to_nat MAX_USB_HOST_CONTROLLERS) strdup_ok table id 0;
      if index =? MAX_USB_HOST_CONTROLLERS then
        Some (LIBUSB_ERROR_NO_DEVICE, table, dev,
              [EvLog LOG_ERR "program assertion failed: too many host controllers"])
      else
        e ← aget table index;
        match e with
        | None =>
            Some (LIBUSB_ERROR_NO_DEVICE, table, dev,
                  [EvLog LOG_WARN "failed to assign bus number to host controller"])
        | Some _ =>
            let dev := set_bus_number dev (uint8 (index + 1)) in
            let dev := set_num_configurations dev 1 in
            let d := dev_descriptor (os_priv dev) in
            let '(vid, pid, evs) :=
              match pci_ids with
              | Some (vid, pid) => (uint16 vid, uint16 pid, [])
              | None => (7531, 1,
                         [EvLog LOG_WARN "could not infer VID/PID of HCD root hub from '%s'"])
              end in
            let d := mk_dev_descriptor sizeof_USB_DEVICE_DESCRIPTOR USB_DEVICE_DESCRIPTOR_TYPE
                       LIBUSB_CLASS_HUB vid pid 1 in
            Some (LIBUSB_SUCCESS, table, set_priv dev (set_descriptor (os_priv dev) d 1), evs)
        end
  end.

(** What the hub answers for configuration [i] in
    [cache_config_descriptors]: the dummy request ([ret_size] and the
    [wTotalLength] read), whether the buffer can be allocated, the actual
    request ([ret_size] and the bytes written into the zeroed descriptor
    area, which has the size the dummy request announced), and whether the
    cache copy can be allocated. *)
Record config_io : Type := mk_config_io {
  io_dummy : option (Z * Z);
  io_calloc_ok : bool;
  io_actual : option (Z * list Z);
  io_malloc_ok : bool
}.

(** [wTotalLength] of a configuration descriptor: bytes 2 and 3, little
    endian. *)
Definition wTotalLength (blob : list Z) : option Z :=
  lo ← aget blob 2;
  hi ← aget blob 3;
  Some (lo + 256 * hi).

Inductive cache_step : Type :=
| CacheBreak (r : Z) (evs : list event)
| CacheReturn (r : Z) (evs : list event)
| CacheStored (blob : list Z) (evs : list event).

(** One round of the loop of [cache_config_descriptors]. *)
Definition cache_one (io : config_io) : option cache_step :=
  let short_size := sizeof_USB_DESCRIPTOR_REQUEST + sizeof_USB_CONFIGURATION_DESCRIPTOR in
  match io_dummy io with
  | None =>
      Some (CacheBreak LIBUSB_ERROR_IO
              [EvLog LOG_INFO "could not access configuration descriptor (dummy) for '%s': %s"])
  | Some (ret_size, total) =>
      if negb (ret_size =? short_size) || (total <? sizeof_USB_CONFIGURATION_DESCRIPTOR) then
        Some (CacheBreak LIBUSB_ERROR_IO
                [EvLog LOG_INFO "unexpected configuration descriptor size (dummy) for '%s'."])
      else
        let size := sizeof_USB_DESCRIPTOR_REQUEST + total in
        if negb (io_calloc_ok io) then
          Some (CacheBreak LIBUSB_ERROR_NO_MEM
                  [EvLog LOG_ERR "could not allocate configuration descriptor buffer for '%s'."])
        else
          match io_actual io with
          | None =>
              Some (CacheBreak LIBUSB_ERROR_IO
                      [EvLog LOG_ERR
                         "could not access configuration descriptor (actual) for '%s': %s"])
          | Some (ret_size, written) =>
              let cd_data := take (Z.to_nat total) (written ++ replicate (Z.to_nat total) 0) in
              cd_total ← wTotalLength cd_data;
              if negb (size =? ret_size) || negb (cd_total =? total) then
                Some (CacheBreak LIBUSB_ERROR_IO
                        [EvLog LOG_ERR
                           "unexpected configuration descriptor size (actual) for '%s'."])
              else
                ty ← aget cd_data 1;
                if negb (ty =? USB_CONFIGURATION_DESCRIPTOR_TYPE) then
                  Some (CacheBreak LIBUSB_ERROR_IO
                          [EvLog LOG_ERR "not a configuration descriptor for '%s'"])
                else
                  let evs := [EvLog LOG_DBG
                                "cached config descriptor %d (bConfigurationValue=%d, %d bytes)"] in
                  if negb (io_malloc_ok io) then Some (CacheReturn LIBUSB_ERROR_NO_MEM evs)
                  else Some (CacheStored (take (Z.to_nat cd_total) cd_data) evs)
          end
  end.

(** The loop of [cache_config_descriptors] from index [i], [n] rounds
    left. *)
Fixpoint cache_loop (n : nat) (hub : Z → config_io) (i : Z)
    (descs : list (option (list Z))) (evs : list event)
  : option (Z * list (option (list Z)) * list event) :=
  match n with
  | O => Some (LIBUSB_SUCCESS, descs, evs)
  | S n' =>
      step ← cache_one (hub i);
      match step with
      | CacheBreak r evs' => Some (r, descs, evs ++ evs')
      | CacheReturn r evs' => Some (r, descs, evs ++ evs')
      | CacheStored blob evs' =>
          descs' ← aset descs i (Some blob);
          cache_loop n' hub (uint8 (i + 1)) descs' (evs ++ evs')
      end
  end.

(** [cache_config_descriptors]; [calloc_ok] is the allocation of the array
    of pointers. *)
Definition cache_config_descriptors (calloc_ok : bool) (hub : Z → config_io)
    (dev : libusb_device) : option (Z * libusb_device * list event) :=
  if num_configurations dev =? 0 then Some (LIBUSB_ERROR_INVALID_PARAM, dev, [])
  else if negb calloc_ok then
    Some (LIBUSB_ERROR_NO_MEM, set_priv dev (set_config_descriptor (os_priv dev) None), [])
  else
    '(r, descs, evs) ←
      cache_loop (Z.to_nat (num_configurations dev)) hub 0
        (replicate (Z.to_nat (num_configurations dev)) None) [];
    Some (r, set_priv dev (set_config_descriptor (os_priv dev) (Some descs)), evs).

(** [USB_NODE_CONNECTION_INFORMATION_EX], as far as it is read. *)
Record conn_info_t : Type := mk_conn_info {
  ConnectionStatus : Z;
  DeviceDescriptor : USB_DEVICE_DESCRIPTOR;
  CurrentConfigurationValue : Z;
  DeviceAddress : Z;
  Speed : Z
}.

(** What the operating system answers during [init_device]. *)
Record init_env : Type := mk_init_env {
  env_hcd_device_id : option string;
  env_strdup_ok : bool;
  env_pci_ids : option (Z * Z);
  env_CreateFileA_ok : bool;
  env_conn_info : option conn_info_t;
  env_calloc_ok : bool;
  env_hub : Z → config_io
}.

(** [usbi_sanitize_device] of the libusb core rereads the number of
    configurations of the device; [sanitized] is the count it stores. *)
Variable sanitized : libusb_device → Z.

Definition usbi_sanitize_device (dev : libusb_device) : libusb_device :=
  set_num_configurations dev (sanitized dev).

(** [init_device]. *)
Definition init_device (env : init_env) (table : hc_table) (dev : libusb_device)
    (parent : option libusb_device) (port_num : Z)
  : option (Z * hc_table * libusb_device * list event) :=
  let evs0 := [EvLog LOG_DBG ""] in
  let done (table : hc_table) (dev : libusb_device) (evs : list event) :=
    Some (LIBUSB_SUCCESS, table, usbi_sanitize_device dev,
          evs ++ [EvLog LOG_DBG "(bus: %d, addr: %d, depth: %d, port: %d): '%s'"]) in
  if port_num =? 0 then
    match parent with
    | Some _ =>
        Some (LIBUSB_ERROR_OTHER, table, dev,
              evs0 ++ [EvLog LOG_ERR "program assertion failed: device has port 0 and a parent"])
    | None =>
        let dev := set_device_address dev 1 in
        let dev := set_port_number dev 0 in
        let dev := set_priv dev (set_port_depth (os_priv dev) 0 0) in
        '(_, table, dev, evs1) ←
          force_hcd_device_descriptor (env_hcd_device_id env) (env_strdup_ok env)
            (env_pci_ids env) table dev;
        if bus_number dev =? 0 then
          Some (LIBUSB_ERROR_NOT_FOUND, table, dev,
                evs0 ++ evs1 ++
                [EvLog LOG_ERR
                   "program assertion failed: unable to determine bus number of root hub '%s'"])
        else done table dev (evs0 ++ evs1)
    end
  else
    match parent with
    | None => Some (LIBUSB_ERROR_NOT_FOUND, table, dev, evs0)
    | Some parent_dev =>
        if negb (bool_decide (dev_apib (os_priv parent_dev) = USB_API_HUB)) then
          Some (LIBUSB_ERROR_NOT_FOUND, table, dev,
                evs0 ++ [EvLog LOG_WARN "parent for device '%s' is not a hub"])
        else if bus_number parent_dev =? 0 then
          Some (LIBUSB_ERROR_NOT_FOUND, table, dev,
                evs0 ++ [EvLog LOG_ERR
                           "program assertion failed: parent device bus number not set for '%s'"])
        else
          let dev := set_bus_number dev (bus_number parent_dev) in
          let dev := set_priv dev (set_port_depth (os_priv dev) port_num
                                     (depth (os_priv parent_dev) + 1)) in
          let dev := set_port_number dev port_num in
          if negb (device_address dev =? 0) then
            Some (LIBUSB_SUCCESS, table,
                  set_parent_dev dev (Some (session_data parent_dev)), evs0)
          else if negb (env_CreateFileA_ok env) then
            Some (LIBUSB_ERROR_ACCESS, table, dev,
                  evs0 ++ [EvLog LOG_WARN "could not open hub '%s': %s"])
          else
            match env_conn_info env with
            | None =>
                Some (LIBUSB_ERROR_NO_DEVICE, table, dev,
                      evs0 ++ [EvLog LOG_WARN
                                 "could not get node connection information for device '%s': %s"])
            | Some conn_info =>
                if ConnectionStatus conn_info =? NoDeviceConnected then
                  Some (LIBUSB_ERROR_NO_DEVICE, table, dev,
                        evs0 ++ [EvLog LOG_ERR "device '%s' is no longer connected!"])
                else
                  let dev := set_priv dev
                               (set_descriptor (os_priv dev) (DeviceDescriptor conn_info)
                                  (CurrentConfigurationValue conn_info)) in
                  let dev := set_num_configurations dev
                               (bNumConfigurations (DeviceDescriptor conn_info)) in
                  let evs := evs0 ++ [EvLog LOG_DBG "found %d configuration(s) (active conf: %d)"] in
                  '(res, dev, evs1) ← cache_config_descriptors (env_calloc_ok env)
                                         (env_hub env) dev;
                  let dev :=
                    if res =? LIBUSB_SUCCESS then dev
                    else set_priv (set_num_configurations dev 0)
                           (set_descriptor (os_priv dev)
                              (set_bNumConfigurations (dev_descriptor (os_priv dev)) 0)
                              (active_config (os_priv dev))) in
                  let evs := evs ++ evs1 ++
                             (if UINT8_MAX <? DeviceAddress conn_info
                              then [EvLog LOG_ERR "program assertion failed: device address overflow"]
                              else []) in
                  let dev := set_device_address dev
                               (uint8 (uint8 (DeviceAddress conn_info) + 1)) in
                  let evs := evs ++
                             (if device_address dev =? 1
                              then [EvLog LOG_ERR
                                      "program assertion failed: device address collision with root hub"]
                              else []) in
                  let '(dev, evs) :=
                    if Speed conn_info =? 0 then (set_speed dev LIBUSB_SPEED_LOW, evs)
                    else if Speed conn_info =? 1 then (set_speed dev LIBUSB_SPEED_FULL, evs)
                    else if Speed conn_info =? 2 then (set_speed dev LIBUSB_SPEED_HIGH, evs)
                    else if Speed conn_info =? 3 then (set_speed dev LIBUSB_SPEED_SUPER, evs)
                    else (dev, evs ++ [EvLog LOG_WARN "Got unknown device speed %d"]) in
                  done table (set_parent_dev dev (Some (session_data parent_dev))) evs
            end
    end.

(** The table in which the controllers [seen] were saved, in the order
    in which they were first seen. *)
Definition table_of (seen : list string) : hc_table :=
  (Some <$> seen) ++ replicate (Z.to_nat MAX_USB_HOST_CONTROLLERS - length seen) None.

(** Root hubs enumerated one after the other: per call the instance id of
    the host controller, whether [_strdup] succeeds, what [sscanf] reads,
    and the device. *)
Fixpoint force_hcd_all
    (calls : list (option string * bool * option (Z * Z) * libusb_device))
    (table : hc_table) : option hc_table :=
  match calls with
  | [] => Some table
  | (id, ok, pci, dev) :: rest =>
      '(_, table', _, _) ← force_hcd_device_descriptor id ok pci table dev;
      force_hcd_all rest table'
  end.

End WithHeader.

(** A text without NUL, as [_strdup] returns it. *)
Definition is_c_string (s : string) : Prop := c_str s = s.

(** The position of a saved instance id among the controllers seen. *)
Definition position (cid : string) (seen : list string) : option nat :=
  fst <$> list_find (λ s, s = cid) seen.

(** The controllers seen so far are saved once each. *)
Definition seen_ok `{windows_usb_h} (seen : list string) : Prop :=
  Z.of_nat (length seen) <= MAX_USB_HOST_CONTROLLERS
  ∧ NoDup seen ∧ Forall is_c_string seen.

End Enumerate.

(** ** The cached configuration descriptors ([windows_get_config_descriptor]) *)

Module Descriptor.
Import Ctypes Carray Libusb Enumerate.

(** [memcpy(buffer, src, size)] into a buffer of the caller. *)
Definition memcpy_to (buffer src : list Z) (size : Z) : option (list Z) :=
  if (0 <=? size) && (size <=? Z.of_nat (length buffer)) && (size <=? Z.of_nat (length src))
  then Some (take (Z.to_nat size) src ++ drop (Z.to_nat size) buffer)
  else None.

(** [windows_get_config_descriptor]: the value returned and the buffer
    afterwards; [len] is the length the caller gives for [buffer]. *)
Definition windows_get_config_descriptor (dev : libusb_device) (config_index : Z)
    (buffer : list Z) (len : Z) : option (Z * list Z) :=
  if num_configurations dev <=? config_index then Some (LIBUSB_ERROR_INVALID_PARAM, buffer)
  else
    match config_descriptor (os_priv dev) with
    | None => Some (LIBUSB_ERROR_NOT_FOUND, buffer)
    | Some descs =>
        d ← aget descs config_index;
        match d with
        | None => Some (LIBUSB_ERROR_NOT_FOUND, buffer)
        | Some blob =>
            total ← wTotalLength blob;
            let size := Z.min total len in
            buffer' ← memcpy_to buffer blob size;
            Some (size, buffer')
        end
    end.

(** A cached descriptor as [cache_config_descriptors] stores it: as long as
    its [wTotalLength] says. *)
Definition blob_wf (blob : list Z) : Prop :=
  wTotalLength blob = Some (Z.of_nat (length blob)).

End Descriptor.

(** ** Concrete values for examples *)

Module Scenario.
Import Libusb Autoclaim Transfer Composite Enumerate.

(** The header values of the libusb sources this backend ships with. *)
Definition header_1_0 : windows_usb_h := {|
  USB_MAXINTERFACES := 32;
  MAX_USB_HOST_CONTROLLERS := 8;
  MAX_CTRL_BUFFER_LENGTH := 4096;
  USBI_TRANSFER_TIMED_OUT := 1;
  PRINT_UNSUPPORTED_API := LIBUSB_ERROR_NOT_SUPPORTED
|}.

(** A core in which claiming and releasing always succeed, and one in
    which every claim is refused; neither touches the handles. *)
Definition core_accepts : core_call unit := λ c hp _, (LIBUSB_SUCCESS, c, hp).
Definition core_refuses : core_call unit := λ c hp _, (LIBUSB_ERROR_BUSY, c, hp).

(** A handle with 32 interfaces, none of them claimed, and interface 2
    auto-claimed [c] times. *)
Definition handle_with_count (c : Z) : handle_state unit :=
  mk_state tt
    (mk_handle_priv 0 (replicate 32 (0, 0)) (<[2%nat := c]> (replicate 32 0)))
    [].

(** A device whose 32 interfaces all belong to the WinUSB-like backend,
    and a handle on it with nothing claimed. *)
Definition winusb_device : windows_device_priv :=
  mk_priv 1 1 (Some "USB\VID_1234&PID_5678\0001"%string) (Some "\\.\USB#VID_1234"%string)
    USB_API_WINUSBX 0
    (replicate 32 (mk_usb_interface (Some "\\.\USB#VID_1234"%string) USB_API_WINUSBX 0 None))
    None 1 (mk_dev_descriptor 18 1 0 4660 22136 1) None.

Definition unclaimed_handle : handle_state unit :=
  mk_state tt (mk_handle_priv 0 (replicate 32 (0, 0)) (replicate 32 0)) [].

(** A control transfer with a setup packet and [n] bytes of payload. *)
Definition control_transfer (n : Z) : usbi_transfer :=
  mk_transfer 0 0 ([128; 6; 0; 1; 0; 0; 18; 0] ++ replicate (Z.to_nat n) 0) (8 + n)
    (mk_transfer_priv None None None 0 0).

(** A HID device, and an interrupt read on it that expects 4 bytes into
    an 8-byte buffer while the report read holds more. *)
Definition hid_device : windows_device_priv :=
  mk_priv 1 1 (Some "USB\VID_046D&PID_C52B\0001"%string) (Some "\\.\HID#VID_046D"%string)
    USB_API_HID 0
    (replicate 32 (mk_usb_interface (Some "\\.\HID#VID_046D"%string) USB_API_HID 0 None))
    (Some (mk_hid 1)) 1 (mk_dev_descriptor 18 1 0 1133 50475 1) None.

Definition hid_read : usbi_transfer :=
  mk_transfer 0 0 (replicate 8 0) 8
    (mk_transfer_priv (Some 7) (Some [1; 10; 20; 30; 40; 50; 60; 70; 80]) (Some 0) 4 0).

(** A composite device (driver USBCCGP) with 32 empty interface slots. *)
Definition composite_device : windows_device_priv :=
  mk_priv 1 2 (Some "USB\VID_046D&PID_C52B\5&1A2B3C&0&2"%string)
    (Some "\\.\USB#VID_046D&PID_C52B#5&1A2B3C&0&2"%string)
    USB_API_COMPOSITE SUB_API_NOTSET
    (replicate 32 (mk_usb_interface None USB_API_UNSUPPORTED SUB_API_NOTSET None))
    None 1 (mk_dev_descriptor 18 1 0 1133 50475 1) None.

(** Instance ids and interface paths of its children. *)
Definition id_MI_00 : string := "USB\VID_046D&PID_C52B&MI_00\6&2A8F5B6&0&0000".
Definition id_MI_03 : string := "USB\VID_046D&PID_C52B&MI_03\6&2A8F5B6&0&0003".
Definition path_MI_00 : string := "\\.\USB#VID_046D&PID_C52B&MI_00#6&2A8F5B6&0&0000".
Definition path_MI_03 : string := "\\.\USB#VID_046D&PID_C52B&MI_03#6&2A8F5B6&0&0003".
Definition path_HID_00 : string := "\\.\HID#VID_046D&PID_C52B&MI_00#7&1C2D3E&0&0000".

(** An instance id in which the marker follows the letter M. *)
Definition id_MMI_03 : string := "USB\VID_046D&PID_C52B&MMI_03\6&2A8F5B6&0&0003".

(** A device with one cached configuration descriptor of 25 bytes. *)
Definition config_blob : list Z :=
  [9; 2; 25; 0; 1; 1; 0; 128; 50; 9; 4; 0; 0; 1; 255; 0; 0; 0; 7; 5; 129; 2; 64; 0; 0].

Definition configured_device : libusb_device :=
  mk_device 17 1 2 3 1 3 (Some 5)
    (mk_priv 1 2 (Some "USB\VID_1234&PID_5678\0001"%string) (Some "\\.\USB#VID_1234"%string)
       USB_API_WINUSBX 0
       (replicate 32 (mk_usb_interface None USB_API_WINUSBX 0 None))
       None 1 (mk_dev_descriptor 18 1 0 4660 22136 1) (Some [Some config_blob])).

(** A root hub already enumerated on bus 1, a device not yet initialised,
    and the answers of the hub for a device at address [a]. *)
Definition root_hub : libusb_device :=
  mk_device 5 1 0 1 1 0 None
    (mk_priv 0 0 (Some "USB\ROOT_HUB30\4&1A2B3C&0&0"%string)
       (Some "\\.\USB#ROOT_HUB30#4&1A2B3C&0&0"%string)
       USB_API_HUB SUB_API_NOTSET
       (replicate 32 (mk_usb_interface None USB_API_UNSUPPORTED SUB_API_NOTSET None))
       None 1 (mk_dev_descriptor 18 1 9 32902 40173 1) None).

Definition new_device : libusb_device :=
  mk_device 17 0 0 0 0 0 None
    (mk_priv 0 0 (Some "USB\VID_1234&PID_5678\0001"%string) (Some "\\.\USB#VID_1234"%string)
       USB_API_WINUSBX 0
       (replicate 32 (mk_usb_interface None USB_API_WINUSBX 0 None))
       None 0 (mk_dev_descriptor 0 0 0 0 0 0) None).

Definition hub_answers (a : Z) : init_env :=
  mk_init_env (Some "PCI\VEN_8086&DEV_9CED&SUBSYS_00000000&REV_03\3&11583659&0&A0"%string)
    true (Some (32902, 40173)) true
    (Some (mk_conn_info 1 (mk_dev_descriptor 18 1 0 4660 22136 1) 1 a 2))
    true
    (λ _, mk_config_io (Some (21, 25)) true (Some (37, config_blob)) true).

(** The host controller table with no controller seen yet. *)
Definition no_controllers : hc_table := replicate 8 None.

(** A transfer bound to an interface. *)
Definition transfer_on (iface : Z) : usbi_transfer :=
  mk_transfer 0 0 [] 0 (mk_transfer_priv (Some 7) None None 0 iface).

End Scenario.

(** ** The identity hash table over many calls *)

Module HtabRuns.
Import Ctypes Carray Cstr Htab.

(** The entries in use among the indices 1 to [htab_size]; index 0 is
    never handed out. *)
Definition used_count (t : htab) : Z :=
  Z.of_nat (length (filter (λ e, used e ≠ 0) (drop 1 (htab_table t)))).

(** The table as [htab_create] makes it and [htab_hash] keeps it: the size
    is a prime and [htab_filled] counts the entries in use. *)
Definition htab_consistent (t : htab) : Prop :=
  htab_wf t ∧ Z.prime (htab_size t) ∧ htab_filled t = used_count t.

(** Strings hashed one after the other; each call comes with the outcome
    of its allocation. *)
Fixpoint htab_hash_all (calls : list (bool * option string)) (t : htab) : option htab :=
  match calls with
  | [] => Some t
  | (alloc_ok, s) :: rest =>
      '(_, t') ← htab_hash alloc_ok t s;
      htab_hash_all rest t'
  end.

(** No number from 2 up to [d - 1] divides [number]: what the loop of
    [isprime] has established when it tries the divider [d]. *)
Definition no_divisor_below (number d : Z) : Prop :=
  ∀ k, 1 < k < d → ¬ (k | number).

(** The entries in use stay as they are. *)
Definition keeps_used (t t' : htab) : Prop :=
  htab_size t' = htab_size t ∧
  ∀ (i : nat) (e : htab_entry),
    htab_table t !! i = Some e → used e ≠ 0 → htab_table t' !! i = Some e.

End HtabRuns.

(** Concrete tables for examples: a table of five entries as [htab_create]
    makes it, the table after the first two of five instance ids were
    hashed, and the full table after all five. *)

Module HtabScenario.
Import Htab HtabRuns.

Definition table_5 : htab := mk_htab (replicate 6 (mk_entry 0 None)) 5 0.

Definition id_receiver : string := "USB\VID_046D&PID_C52B\5&1A2B3C&0&2".
Definition id_root_hub : string := "USB\ROOT_HUB30\4&1A2B3C&0&0".
Definition id_vendor : string := "USB\VID_1234&PID_5678\0001".
Definition id_controller : string := "PCI\VEN_8086&DEV_9CB1\3&11583659&0&E8".
Definition id_stick : string := "USB\VID_0781&PID_5567\4C530001".
Definition id_mouse : string := "HID\VID_046D&PID_C52B&MI_00\7&1C2D3E&0&0000".

(** The receiver's id in a longer buffer: the same C string. *)
Definition id_receiver_buffer : string :=
  String.append id_receiver (String "000"%char "stale bytes").

Definition table_5_two : htab :=
  mk_htab [mk_entry 0 None; mk_entry 1 (Some id_receiver); mk_entry 0 None;
           mk_entry 0 None; mk_entry 1 (Some id_root_hub); mk_entry 0 None] 5 2.

Definition table_5_full : htab :=
  mk_htab [mk_entry 0 None; mk_entry 1 (Some id_receiver); mk_entry 2 (Some id_vendor);
           mk_entry 2 (Some id_controller); mk_entry 1 (Some id_root_hub);
           mk_entry 4 (Some id_stick)] 5 5.

(** The calls that hash the given strings with memory available. *)
Definition hashed (l : list string) : list (bool * option string) :=
  (λ s, (true, Some s)) <$> l.

End HtabScenario.

(** ** Looking up an interface ([get_valid_interface],
       [interface_by_endpoint]) and what the auto-claim scan claims *)

Module Endpoints.
Import Ctypes Carray Libusb Autoclaim.

(** The inner loop of [interface_by_endpoint] over
    [usb_interface[i].endpoint]; [nb_endpoints] is the length of the list,
    the two are always written together. *)
Fixpoint has_endpoint (endpoints : list Z) (endpoint_address : Z) : bool :=
  match endpoints with
  | [] => false
  | e :: rest => (e =? endpoint_address) || has_endpoint rest endpoint_address
  end.

(** The outer loop of [interface_by_endpoint] from interface [i], with
    [n] rounds left. *)
Fixpoint interface_by_endpoint_loop (n : nat) (handles : list (Z * Z))
    (ifaces : list usb_interface_t) (endpoint_address : Z) (i : Z) : option Z :=
  match n with
  | O => Some (-1)
  | S n' =>
      '(_, api_h) ← aget handles i;
      if (api_h =? INVALID_HANDLE_VALUE) || (api_h =? 0)
      then interface_by_endpoint_loop n' handles ifaces endpoint_address (i + 1)
      else
        ifc ← aget ifaces i;
        match endpoint ifc with
        | None => interface_by_endpoint_loop n' handles ifaces endpoint_address (i + 1)
        | Some endpoints =>
            if has_endpoint endpoints endpoint_address then Some i
            else interface_by_endpoint_loop n' handles ifaces endpoint_address (i + 1)
        end
  end.

(** [interface_by_endpoint]. *)
Definition interface_by_endpoint `{windows_usb_h} (priv : windows_device_priv)
    (hp : windows_device_handle_priv) (endpoint_address : Z) : option Z :=
  interface_by_endpoint_loop (Z.to_nat USB_MAXINTERFACES) (interface_handle hp)
    (usb_interface priv) endpoint_address 0.

(** Interface [i] serves the endpoint: its API handle is set and the
    endpoint address is in its list. *)
Definition serves (priv : windows_device_priv) (hp : windows_device_handle_priv)
    (endpoint_address i : Z) : bool :=
  match aget (interface_handle hp) i, aget (usb_interface priv) i with
  | Some (_, api_h), Some ifc =>
      handle_set api_h
      && match endpoint ifc with
         | Some endpoints => bool_decide (endpoint_address ∈ endpoints)
         | None => false
         end
  | _, _ => false
  end.

(** Interface [i] is open for the backend family [api_id]: both handles
    are set and the interface belongs to the family, one of the two that
    carry transfers. *)
Definition open_for (priv : windows_device_priv) (hp : windows_device_handle_priv)
    (api_id : usb_api) (i : Z) : bool :=
  match aget (interface_handle hp) i, aget (usb_interface priv) i with
  | Some (dev_h, api_h), Some ifc =>
      handle_set dev_h && handle_set api_h && bool_decide (apib ifc = api_id)
      && (bool_decide (api_id = USB_API_WINUSBX) || bool_decide (api_id = USB_API_HID))
  | _, _ => false
  end.

(** The interfaces the core accepted a claim for, in order. *)
Definition successful_claims (tr : list event) : list Z :=
  omap (λ e, match e with
             | EvClaimInterface i r => if r =? LIBUSB_SUCCESS then Some i else None
             | _ => None
             end) tr.

(** A core that refuses the claim of every interface below [k] and
    accepts the others. *)
Definition core_accepts_from (k : Z) : core_call unit :=
  λ c hp i, (if i <? k then LIBUSB_ERROR_BUSY else LIBUSB_SUCCESS, c, hp).

(** A handle on which interfaces 1 and 3 are open, and a device whose
    interface 1 has the endpoints 0x81 and 0x02 and whose interface 3 has
    0x83 and 0x02. *)
Definition open_1_3 : windows_device_handle_priv :=
  mk_handle_priv 0
    (<[3%nat := (4660, 4661)]> (<[1%nat := (4658, 4659)]> (replicate 32 (0, -1))))
    (replicate 32 0).

Definition device_1_3 : windows_device_priv :=
  mk_priv 1 1 (Some "USB\VID_1234&PID_5678\0001"%string) (Some "\\.\USB#VID_1234"%string)
    USB_API_WINUSBX 0
    (<[3%nat := mk_usb_interface (Some "\\.\USB#VID_1234"%string) USB_API_WINUSBX 0
                  (Some [131; 2])]>
       (<[1%nat := mk_usb_interface (Some "\\.\USB#VID_1234"%string) USB_API_WINUSBX 0
                     (Some [129; 2])]>
          (replicate 32 (mk_usb_interface (Some "\\.\USB#VID_1234"%string)
                           USB_API_WINUSBX 0 None))))
    None 1 (mk_dev_descriptor 18 1 0 4660 22136 1) None.

End Endpoints.

(** ** Interfaces of a HID device ([set_hid_interface],
       [unset_hid_interface]) and the HID claim flag
       ([hid_claim_interface], [hid_release_interface]) *)

Module HidInterface.
Import Ctypes Carray Cstr Libusb Composite.

(** The loop of [set_hid_interface] from slot [i], [n] rounds left: the
    slot whose path compares equal under [safe_strcmp], if any. *)
Fixpoint find_hid_path (n : nat) (slots : list usb_interface_t)
    (dev_interface_path : string) (i : Z) : option (option Z) :=
  match n with
  | O => Some None
  | S n' =>
      slot ← aget slots i;
      if safe_strcmp_eq (path slot) (Some dev_interface_path) then Some (Some i)
      else find_hid_path n' slots dev_interface_path (i + 1)
  end.

(** The search loop of [unset_hid_interface]: the value of
    [interface_number] when the loop is left, and what it logged.  A slot
    without a path is reported and skipped. *)
Fixpoint find_hid_slot (n : nat) (slots : list usb_interface_t)
    (dev_interface_path : string) (i : Z) : option (Z * list event) :=
  match n with
  | O => Some (i, [])
  | S n' =>
      slot ← aget slots i;
      match path slot with
      | None =>
          '(r, evs) ← find_hid_slot n' slots dev_interface_path (i + 1);
          Some (r, EvLog LOG_ERR "program assertion failed: hid interface path not set" :: evs)
      | Some p =>
          if strcmp_eq p dev_interface_path then Some (i, [])
          else find_hid_slot n' slots dev_interface_path (i + 1)
      end
  end.

(** The loop that shifts the remaining interfaces up: [n] rounds of
    [usb_interface[i] = usb_interface[i + 1]]. *)
Fixpoint shift_up (n : nat) (slots : list usb_interface_t) (i : Z)
  : option (list usb_interface_t) :=
  match n with
  | O => Some slots
  | S n' =>
      next ← aget slots (i + 1);
      slots' ← aset slots i next;
      shift_up n' slots' (i + 1)
  end.

(** A slot after [memset] to zero, with the backend and the sub-API
    reset. *)
Definition blank_interface : usb_interface_t :=
  mk_usb_interface None USB_API_UNSUPPORTED SUB_API_NOTSET None.

Section WithHeader.
Context `{windows_usb_h}.

(** [set_hid_interface].  [nb_interfaces] is a [uint8_t] field. *)
Definition set_hid_interface (priv : windows_device_priv) (dev_interface_path : string)
  : option (Z * windows_device_priv * list event) :=
  match hid priv with
  | None =>
      Some (LIBUSB_ERROR_NO_DEVICE, priv,
            [EvLog LOG_ERR "program assertion failed: parent is not HID"])
  | Some h =>
      let nb := nb_interfaces h in
      if nb =? USB_MAXINTERFACES then
        Some (LIBUSB_ERROR_NO_DEVICE, priv,
              [EvLog LOG_ERR "program assertion failed: max USB interfaces reached for HID device"])
      else
        found ← find_hid_path (Z.to_nat nb) (usb_interface priv) dev_interface_path 0;
        match found with
        | Some _ =>
            Some (LIBUSB_SUCCESS, priv, [EvLog LOG_DBG "interface[%d] already set to %s"])
        | None =>
            slot ← aget (usb_interface priv) nb;
            slots ← aset (usb_interface priv) nb
                      (mk_usb_interface (Some dev_interface_path) USB_API_HID
                         (sub_api slot) (endpoint slot));
            Some (LIBUSB_SUCCESS,
                  set_hid (set_usb_interface priv slots) (Some (mk_hid (uint8 (nb + 1)))),
                  [EvLog LOG_DBG "interface[%d] = %s"])
        end
  end.

(** [unset_hid_interface]. *)
Definition unset_hid_interface (priv : windows_device_priv) (dev_interface_path : string)
  : option (windows_device_priv * list event) :=
  match hid priv with
  | None => Some (priv, [EvLog LOG_ERR "program assertion failed: parent is not HID"])
  | Some h =>
      let nb := nb_interfaces h in
      '(interface_number, evs) ←
        find_hid_slot (Z.to_nat nb) (usb_interface priv) dev_interface_path 0;
      if interface_number =? nb then Some (priv, evs)
      else
        slots ← shift_up (Z.to_nat (nb - 1 - interface_number)) (usb_interface priv)
                  interface_number;
        slots ← aset slots (nb - 1) blank_interface;
        Some (set_hid (set_usb_interface priv slots) (Some (mk_hid (uint8 (nb - 1)))),
              evs ++ [EvLog LOG_DBG "removing interface[%d] = %s"])
  end.

(** [INTERFACE_CLAIMED], the value [windows_usb.h] defines for the device
    handle of a claimed HID interface, and the global [api_hid_available]
    that [hid_init] sets. *)
Variable INTERFACE_CLAIMED : Z.
Variable api_hid_available : bool.

(** [hid_claim_interface]. *)
Definition hid_claim_interface (priv : windows_device_priv)
    (hp : windows_device_handle_priv) (iface : Z)
  : option (Z * windows_device_handle_priv * list event) :=
  if negb api_hid_available then Some (LIBUSB_ERROR_ACCESS, hp, [])
  else
    slot ← aget (usb_interface priv) iface;
    match path slot with
    | None => Some (LIBUSB_ERROR_NOT_FOUND, hp, [])
    | Some _ =>
        '(dev_h, api_h) ← aget (interface_handle hp) iface;
        if dev_h =? INTERFACE_CLAIMED then Some (LIBUSB_ERROR_BUSY, hp, [])
        else
          handles ← aset (interface_handle hp) iface (INTERFACE_CLAIMED, api_h);
          Some (LIBUSB_SUCCESS, mk_handle_priv iface handles (autoclaim_count hp),
                [EvLog LOG_DBG "claimed interface %d"])
    end.

(** [hid_release_interface]. *)
Definition hid_release_interface (priv : windows_device_priv)
    (hp : windows_device_handle_priv) (iface : Z)
  : option (Z * windows_device_handle_priv) :=
  if negb api_hid_available then Some (LIBUSB_ERROR_ACCESS, hp)
  else
    slot ← aget (usb_interface priv) iface;
    match path slot with
    | None => Some (LIBUSB_ERROR_NOT_FOUND, hp)
    | Some _ =>
        '(dev_h, api_h) ← aget (interface_handle hp) iface;
        if negb (dev_h =? INTERFACE_CLAIMED) then Some (LIBUSB_ERROR_NOT_FOUND, hp)
        else
          handles ← aset (interface_handle hp) iface (INVALID_HANDLE_VALUE, api_h);
          Some (LIBUSB_SUCCESS,
                mk_handle_priv (active_interface hp) handles (autoclaim_count hp))
    end.

End WithHeader.

(** No path among the first [nb] slots compares equal to [p] under
    [safe_strcmp]. *)
Definition path_unknown (slots : list usb_interface_t) (nb : Z) (p : string) : Prop :=
  Forall (λ ifc, safe_strcmp_eq (path ifc) (Some p) = false) (take (Z.to_nat nb) slots).

(** No path among the first [n] slots is the text [p] ([strcmp]). *)
Definition no_match_before (slots : list usb_interface_t) (n : Z) (p : string) : Prop :=
  Forall (λ ifc, ∀ q, path ifc = Some q → strcmp_eq q p = false) (take (Z.to_nat n) slots).

(** A HID device with two interfaces set, and paths of its collections. *)
Definition path_COL01 : string := "\\.\HID#VID_046D&PID_C52B&MI_01&COL01#8&1A2B3C4D&0&0000".
Definition path_COL02 : string := "\\.\HID#VID_046D&PID_C52B&MI_01&COL02#8&1A2B3C4D&0&0001".
Definition path_COL03 : string := "\\.\HID#VID_046D&PID_C52B&MI_01&COL03#8&1A2B3C4D&0&0002".

Definition hid_two : windows_device_priv :=
  mk_priv 1 1 (Some "USB\VID_046D&PID_C52B&MI_01\7&1C2D3E&0&0001"%string)
    (Some "\\.\USB#VID_046D&PID_C52B&MI_01#7&1C2D3E&0&0001"%string)
    USB_API_HID 0
    ([mk_usb_interface (Some path_COL01) USB_API_HID SUB_API_NOTSET None;
      mk_usb_interface (Some path_COL02) USB_API_HID SUB_API_NOTSET None]
     ++ replicate 30 blank_interface)
    (Some (mk_hid 2)) 1 (mk_dev_descriptor 18 1 0 1133 50475 1) None.

(** The value of [INTERFACE_CLAIMED] in libusb's [windows_usb.h]. *)
Definition INTERFACE_CLAIMED_1_0 : Z := 53685.

(** A handle with no interface claimed. *)
Definition hid_handle : windows_device_handle_priv :=
  mk_handle_priv 0 (replicate 32 (INVALID_HANDLE_VALUE, 4661)) (replicate 32 0).

End HidInterface.

(** ** What [cache_config_descriptors] returns, and the active
       configuration ([windows_get_active_config_descriptor]) *)

Module ConfigCache.
Import Ctypes Carray Libusb Enumerate Descriptor.

(** The loop of [cache_config_descriptors] with the value the function
    returns.  [LOOP_BREAK(err)] is [{ r=err; continue; }]: it stores the
    code in [r] and goes to the head of the loop, where [r != LIBUSB_SUCCESS]
    leaves the loop, and the function ends in [return LIBUSB_SUCCESS].
    Only the failed [malloc] of a cache copy returns from inside the loop.
    ([Enumerate.cache_loop] gives the value of [r] when the loop is left.) *)
Fixpoint cache_loop (n : nat) (hub : Z → config_io) (i : Z)
    (descs : list (option (list Z))) (evs : list event)
  : option (Z * list (option (list Z)) * list event) :=
  match n with
  | O => Some (LIBUSB_SUCCESS, descs, evs)
  | S n' =>
      step ← cache_one (hub i);
      match step with
      | CacheBreak _ evs' => Some (LIBUSB_SUCCESS, descs, evs ++ evs')
      | CacheReturn r evs' => Some (r, descs, evs ++ evs')
      | CacheStored blob evs' =>
          descs' ← aset descs i (Some blob);
          cache_loop n' hub (uint8 (i + 1)) descs' (evs ++ evs')
      end
  end.

(** [cache_config_descriptors]: the value returned, the device and the
    log. *)
Definition cache_config_descriptors (calloc_ok : bool) (hub : Z → config_io)
    (dev : libusb_device) : option (Z * libusb_device * list event) :=
  if num_configurations dev =? 0 then Some (LIBUSB_ERROR_INVALID_PARAM, dev, [])
  else if negb calloc_ok then
    Some (LIBUSB_ERROR_NO_MEM, set_priv dev (set_config_descriptor (os_priv dev) None), [])
  else
    '(r, descs, evs) ←
      cache_loop (Z.to_nat (num_configurations dev)) hub 0
        (replicate (Z.to_nat (num_configurations dev)) None) [];
    Some (r, set_priv dev (set_config_descriptor (os_priv dev) (Some descs)), evs).

(** [windows_get_active_config_descriptor]. *)
Definition windows_get_active_config_descriptor (dev : libusb_device)
    (buffer : list Z) (len : Z) : option (Z * list Z) :=
  if active_config (os_priv dev) =? 0 then Some (LIBUSB_ERROR_NOT_FOUND, buffer)
  else windows_get_config_descriptor dev (uint8 (active_config (os_priv dev) - 1)) buffer len.

(** The cache as [cache_config_descriptors] leaves it: one entry per
    configuration, each NULL or a descriptor as long as its
    [wTotalLength] says. *)
Definition cache_wf (dev : libusb_device) : Prop :=
  ∀ descs, config_descriptor (os_priv dev) = Some descs →
    length descs = Z.to_nat (num_configurations dev)
    ∧ Forall (λ d, ∀ blob, d = Some blob → blob_wf blob) descs.

(** A hub that answers for the first [k] configurations and fails the
    first request for the others, and a device with three
    configurations, the second of them active. *)
Definition hub_answers_below (k : Z) : Z → config_io :=
  λ i, if i <? k
       then mk_config_io (Some (21, 25)) true (Some (37, Scenario.config_blob)) true
       else mk_config_io None true None true.

Definition three_configurations : libusb_device :=
  mk_device 17 1 2 3 3 3 (Some 5)
    (mk_priv 1 2 (Some "USB\VID_1234&PID_5678\0001"%string) (Some "\\.\USB#VID_1234"%string)
       USB_API_WINUSBX 0
       (replicate 32 (mk_usb_interface None USB_API_WINUSBX 0 None))
       None 2 (mk_dev_descriptor 18 1 0 4660 22136 3) None).

End ConfigCache.

(* ===================================================================== *)
(** ** Device interface paths ([sanitize_path], [parse_device_interface_path])

    A [char] buffer is a list of characters.  [safe_strlen] and
    [safe_strcpy] are the header's NULL-tolerant [strlen] and bounded
    [strcpy]; in [sanitize_path] the bound is the length of the text with
    its terminator, so the whole text is copied. *)

Module DevicePath.
Import Ctypes Carray Cstr Libusb.

Definition backslash : ascii := "\"%char.
Definition hash : ascii := "#"%char.
Definition brace : ascii := "{"%char.

(** [const char root_prefix[]] of [sanitize_path]. *)
Definition root_prefix : string := "\\.\"%string.

(** [toupper((int)c)] for a plain [char] in the "C" locale, which the
    library never changes.  The argument has to be [EOF] (-1, returned as
    it is) or the value of an [unsigned char]: the other negative values
    of a [char] are outside the domain of the function. *)
Definition toupper (c : ascii) : option ascii :=
  let v := char_val c in
  if v <? -1 then None
  else if (97 <=? v) && (v <=? 122) then Some (ascii_of_N (Z.to_N (v - 32)))
  else Some c.

(** The characters of a text, and the buffer that holds it: the
    characters and the terminating NUL. *)
Definition chars (s : string) : list ascii := list_ascii_of_string (c_str s).
Definition buffer_of (s : string) : list ascii := chars s ++ [zero].

(** [safe_strlen]. *)
Definition safe_strlen (s : option string) : Z :=
  match s with
  | None => 0
  | Some s => Z.of_nat (length (chars s))
  end.

(** The text a buffer holds. *)
Definition text (buf : list ascii) : string := c_str (string_of_list_ascii buf).

(** [memcpy(&dst[off], src, sizeof src)]. *)
Definition write_at (dst : list ascii) (off : Z) (src : list ascii)
  : option (list ascii) :=
  if (0 <=? off) && (off + Z.of_nat (length src) <=? Z.of_nat (length dst))
  then Some (take (Z.to_nat off) dst ++ src
             ++ drop (Z.to_nat off + length src) dst)
  else None.

(** The test for a root prefix, [\\?\], [\\.\], [##?#] or [##.#], that
    both functions make. *)
Definition has_root_prefix (path : list ascii) : option bool :=
  c0 ← aget path 0;
  c1 ← aget path 1;
  c3 ← aget path 3;
  Some ((Ascii.eqb c0 backslash && Ascii.eqb c1 backslash && Ascii.eqb c3 backslash)
        || (Ascii.eqb c0 hash && Ascii.eqb c1 hash && Ascii.eqb c3 hash)).

(** The closing loop of both functions, [n] rounds from index [j]:
    [buf[j] = (char)toupper((int)buf[j]); if (buf[j] == from) buf[j] = to;]. *)
Fixpoint upper_loop (from to : ascii) (n : nat) (j : Z) (buf : list ascii)
  : option (list ascii) :=
  match n with
  | O => Some buf
  | S n' =>
      c ← aget buf j;
      u ← toupper c;
      buf' ← aset buf j (if Ascii.eqb u from then to else u);
      upper_loop from to n' (j + 1) buf'
  end.

(** [sanitize_path]: the outer [None] is undefined behaviour, the inner
    one the NULL pointer. *)
Definition sanitize_path (calloc_ok : bool) (path : option string)
  : option (option string) :=
  match path with
  | None => Some None
  | Some p =>
      let size := safe_strlen path + 1 in
      let root_size := Z.of_nat (String.length root_prefix) in
      rooted ← (if 3 <? size then has_root_prefix (buffer_of p) else Some false);
      let add_root := if rooted : bool then 0 else root_size in
      let size := size + add_root in
      if negb calloc_ok then Some None
      else
        let ret_path := replicate (Z.to_nat size) zero in
        ret_path ← write_at ret_path add_root (buffer_of p);
        ret_path ← write_at ret_path 0 (list_ascii_of_string root_prefix);
        ret_path ← upper_loop backslash hash (Z.to_nat (size - root_size)) root_size
                     ret_path;
        Some (Some (text ret_path))
  end.

(** [strchr(s, c) - s]. *)
Fixpoint strchr (s : list ascii) (c : ascii) : option Z :=
  match s with
  | [] => None
  | a :: rest =>
      if Ascii.eqb a c then Some 0
      else pos ← strchr rest c; Some (pos + 1)
  end.

(** What [parse_device_interface_path] logs when no character is left. *)
Definition invalid_path : list event :=
  [EvLog LOG_ERR "program assertion failed: invalid device interface path"].

(** [parse_device_interface_path].  [len] is an [unsigned int]: the
    subtractions and [len + 1] wrap around.  [strncat] appends the first
    [len] characters of the path, or all of them when there are fewer,
    and a NUL to the empty text that [calloc] made. *)
Definition parse_device_interface_path (calloc_ok : bool)
    (interface_path : option string) : option (option string * list event) :=
  let len := ulong (safe_strlen interface_path) in
  if len <? 4 then Some (None, [])
  else
    match interface_path with
    | None => None
    | Some p =>
        rooted ← has_root_prefix (buffer_of p);
        let path := if rooted : bool then drop 4 (chars p) else chars p in
        let len := if rooted then ulong (len - 4) else len in
        let len := match strchr path brace with
                   | Some guid_start => ulong (guid_start - 1)
                   | None => len
                   end in
        if len <=? 0
        then Some (None, invalid_path)
        else if negb calloc_ok then Some (None, [])
        else
          let device_id := replicate (Z.to_nat (ulong (len + 1))) zero in
          device_id ← write_at device_id 0
                         (take (Z.to_nat (Z.min len (Z.of_nat (length path)))) path
                          ++ [zero]);
          device_id ← upper_loop hash backslash (Z.to_nat len) 0 device_id;
          Some (Some (text device_id), [])
    end.

(** Texts on which [toupper] is defined throughout. *)
Definition toupper_defined (s : string) : Prop :=
  Forall (λ c, is_Some (toupper c)) (chars s).

(** Whether [sanitize_path] takes the path to have a root prefix, and the
    part of the path after it. *)
Definition rooted (p : string) : bool :=
  (3 <? safe_strlen (Some p) + 1) && default false (has_root_prefix (buffer_of p)).
Definition path_body (p : string) : list ascii :=
  if rooted p then drop 4 (chars p) else chars p.

(** What the two loops make of one character. *)
Definition upper_swap (from to c : ascii) : ascii :=
  match toupper c with
  | Some u => if Ascii.eqb u from then to else u
  | None => c
  end.

(** Device interface paths as the system hands them out. *)
Definition path_stick : string :=
  "\\?\usb#vid_0781&pid_5581#4c530001#{a5dcbf10-6530-11d2-901f-00c04fb951ed}"%string.
Definition path_stick_bare : string :=
  "usb#vid_0781&pid_5581#4c530001#{a5dcbf10-6530-11d2-901f-00c04fb951ed}"%string.

End DevicePath.

(* ===================================================================== *)
(** * Properties *)
(* ===================================================================== *)

Module CtypesFacts.
Import Ctypes Carray Cstr.

(** Case analysis on every integer comparison in the goal. *)
Ltac case_Z_tests :=
  repeat match goal with
         | |- context [Z.ltb ?a ?b] => destruct (Z.ltb_spec a b)
         | |- context [Z.leb ?a ?b] => destruct (Z.leb_spec a b)
         | |- context [Z.eqb ?a ?b] => destruct (Z.eqb_spec a b)
         end.

Lemma in_bounds_spec {A : Type} (l : list A) (i : Z) :
  in_bounds l i = true ↔ 0 <= i < Z.of_nat (length l).
Proof. unfold in_bounds. rewrite andb_true_iff, Z.leb_le, Z.ltb_lt. reflexivity. Qed.

Lemma in_bounds_true {A : Type} (l : list A) (i : Z) :
  0 <= i < Z.of_nat (length l) → in_bounds l i = true.
Proof. apply in_bounds_spec. Qed.

Lemma in_bounds_false {A : Type} (l : list A) (i : Z) :
  ¬ (0 <= i < Z.of_nat (length l)) → in_bounds l i = false.
Proof.
  intros H. destruct (in_bounds l i) eqn:E; [|reflexivity].
  apply in_bounds_spec in E. contradiction.
Qed.

Lemma aget_Some {A : Type} (l : list A) (i : Z) (x : A) :
  aget l i = Some x ↔ 0 <= i ∧ l !! Z.to_nat i = Some x.
Proof.
  unfold aget. split.
  - destruct (in_bounds l i) eqn:E; [|discriminate].
    apply in_bounds_spec in E. intros H. split; [lia|exact H].
  - intros [Hi Hl]. rewrite in_bounds_true; [exact Hl|].
    apply lookup_lt_Some in Hl. lia.
Qed.

Lemma aget_in_bounds {A : Type} (l : list A) (i : Z) :
  0 <= i < Z.of_nat (length l) → is_Some (aget l i).
Proof.
  intros H. unfold aget. rewrite in_bounds_true by exact H.
  apply lookup_lt_is_Some_2. lia.
Qed.

Lemma length_aset {A : Type} (l l' : list A) (i : Z) (x : A) :
  aset l i x = Some l' → length l' = length l.
Proof.
  unfold aset. destruct (in_bounds l i); [|discriminate].
  intros [= <-]. apply length_insert.
Qed.

Lemma aget_aset_eq {A : Type} (l l' : list A) (i : Z) (x : A) :
  aset l i x = Some l' → aget l' i = Some x.
Proof.
  unfold aset, aget. destruct (in_bounds l i) eqn:E; [|discriminate].
  intros [= <-]. apply in_bounds_spec in E.
  rewrite in_bounds_true by (rewrite length_insert; exact E).
  apply list_lookup_insert_eq. lia.
Qed.

Lemma aget_aset_ne {A : Type} (l l' : list A) (i j : Z) (x : A) :
  aset l i x = Some l' → i ≠ j → aget l' j = aget l j.
Proof.
  unfold aset, aget. destruct (in_bounds l i) eqn:E; [|discriminate].
  intros [= <-] Hne. apply in_bounds_spec in E.
  unfold in_bounds. rewrite length_insert.
  destruct ((0 <=? j) && (j <? Z.of_nat (length l))) eqn:Ej; [|reflexivity].
  apply andb_true_iff in Ej. rewrite Z.leb_le, Z.ltb_lt in Ej.
  apply list_lookup_insert_ne. lia.
Qed.

Lemma ulong_range z : 0 <= ulong z < 2 ^ 32.
Proof. unfold ulong. apply Z.mod_pos_bound. lia. Qed.

Lemma ulong_small z : 0 <= z < 2 ^ 32 → ulong z = z.
Proof. intros H. unfold ulong. apply Z.mod_small. exact H. Qed.

Lemma uint8_small z : 0 <= z < 256 → uint8 z = z.
Proof. intros H. unfold uint8. apply Z.mod_small. simpl. lia. Qed.

Lemma strcmp_eq_c_str s : strcmp_eq s (c_str s) = true.
Proof.
  induction s as [|a s IH]; simpl; [reflexivity|].
  destruct (is_nul a) eqn:Ha; simpl; [reflexivity|].
  rewrite Ascii.eqb_refl. exact IH.
Qed.

Lemma strcmp_eq_refl s : strcmp_eq s s = true.
Proof.
  induction s as [|a s IH]; simpl; [reflexivity|].
  destruct (is_nul a); [reflexivity|].
  rewrite Ascii.eqb_refl. exact IH.
Qed.

Lemma aget_of_nat {A : Type} (l : list A) (i : nat) : aget l (Z.of_nat i) = l !! i.
Proof.
  unfold aget. destruct (in_bounds l (Z.of_nat i)) eqn:E.
  - rewrite Nat2Z.id. reflexivity.
  - symmetry. apply lookup_ge_None.
    destruct (Nat.le_gt_cases (length l) i) as [|Hlt]; [assumption|].
    rewrite in_bounds_true in E by lia. discriminate.
Qed.

Lemma aset_of_nat {A : Type} (l : list A) (i : nat) (x : A) :
  (i < length l)%nat → aset l (Z.of_nat i) x = Some (<[i := x]> l).
Proof.
  intros Hi. unfold aset. rewrite in_bounds_true by lia. rewrite Nat2Z.id. reflexivity.
Qed.

Lemma c_str_idemp s : c_str (c_str s) = c_str s.
Proof.
  induction s as [|a s IH]; [reflexivity|]. cbn.
  destruct (is_nul a) eqn:Ha; [reflexivity|]. cbn. rewrite Ha, IH. reflexivity.
Qed.

(** [strcmp] compares the texts before the first NUL. *)
Lemma strcmp_eq_spec a b : strcmp_eq a b = true ↔ c_str a = c_str b.
Proof.
  revert b. induction a as [|x a IH]; intros [|y b]; cbn.
  - tauto.
  - destruct (is_nul y); split; congruence.
  - destruct (is_nul x); split; congruence.
  - destruct (is_nul x) eqn:Hx, (is_nul y) eqn:Hy.
    + split; reflexivity.
    + split; discriminate.
    + destruct (Ascii.eqb_spec x y) as [->|Hne]; [congruence|]. split; discriminate.
    + destruct (Ascii.eqb_spec x y) as [->|Hne].
      * rewrite IH. split; [congruence|]. intros [= Heq]. exact Heq.
      * split; [discriminate|]. intros [= Heq _]. contradiction.
Qed.

End CtypesFacts.

(** ** The identity hash table *)

Module HtabFacts.
Import Ctypes Carray Cstr Htab CtypesFacts.

Lemma table_hash_range size s : 3 <= size → 1 <= table_hash size s <= size - 1.
Proof.
  intros Hs. unfold table_hash.
  pose proof (Z.mod_pos_bound (main_hash s) size ltac:(lia)) as Hm.
  destruct (Z.eqb_spec (main_hash s mod size) 0); lia.
Qed.

Lemma second_hash_range size hval :
  3 <= size < 2 ^ 31 → 1 <= hval →
  ulong (size - 2) = size - 2 ∧
  1 <= ulong (1 + hval mod (size - 2)) <= size - 2.
Proof.
  intros Hs Hh.
  assert (H32 : 2 ^ 31 < 2 ^ 32) by (vm_compute; reflexivity).
  pose proof (Z.mod_pos_bound hval (size - 2) ltac:(lia)) as Hm.
  split.
  - apply ulong_small. lia.
  - rewrite ulong_small; lia.
Qed.

Section Probe.
Variables (size hval hval2 : Z).
Hypothesis Hsize : 3 <= size < 2 ^ 31.
Hypothesis Hhval : 1 <= hval <= size.
Hypothesis Hhval2 : 1 <= hval2 <= size - 1.

Lemma probe_step_spec idx :
  1 <= idx <= size →
  probe_step size hval2 idx = (idx - 1 - hval2) mod size + 1.
Proof.
  intros Hi. unfold probe_step.
  assert (H32 : 2 ^ 31 < 2 ^ 32) by (vm_compute; reflexivity).
  destruct (Z.leb_spec idx hval2) as [Hle|Hgt].
  - rewrite (ulong_small (size + idx)) by lia.
    rewrite ulong_small by lia.
    rewrite <- (Z.mod_unique (idx - 1 - hval2) size (-1) (size + idx - hval2 - 1)); lia.
  - rewrite ulong_small by lia.
    rewrite Z.mod_small; lia.
Qed.

Lemma probe_step_bounds idx :
  1 <= idx <= size → 1 <= probe_step size hval2 idx <= size.
Proof.
  intros Hi. rewrite probe_step_spec by exact Hi.
  pose proof (Z.mod_pos_bound (idx - 1 - hval2) size ltac:(lia)). lia.
Qed.

Lemma nth_probe_0 : nth_probe size hval hval2 0 = hval.
Proof. unfold nth_probe. rewrite Z.mod_small; lia. Qed.

Lemma nth_probe_range k : 1 <= nth_probe size hval hval2 k <= size.
Proof.
  unfold nth_probe.
  pose proof (Z.mod_pos_bound (hval - 1 - k * hval2) size ltac:(lia)). lia.
Qed.

Lemma nth_probe_step k :
  probe_step size hval2 (nth_probe size hval hval2 k) = nth_probe size hval hval2 (k + 1).
Proof.
  rewrite probe_step_spec by apply nth_probe_range.
  unfold nth_probe. f_equal.
  replace ((hval - 1 - k * hval2) mod size + 1 - 1 - hval2)
    with ((hval - 1 - k * hval2) mod size - hval2) by lia.
  rewrite Zminus_mod_idemp_l. f_equal. lia.
Qed.

(** The sequence is back at [hval] after [size] steps. *)
Lemma nth_probe_cycle : nth_probe size hval hval2 size = hval.
Proof.
  unfold nth_probe.
  replace (hval - 1 - size * hval2) with (hval - 1 + (- hval2) * size) by lia.
  rewrite Z.mod_add by lia. rewrite Z.mod_small; lia.
Qed.

Variables (t : htab) (s : string).
Hypothesis Ht_size : htab_size t = size.
Hypothesis Ht_len : length (htab_table t) = Z.to_nat (size + 1).

(** The loop ends within [size] rounds: started after [k] steps with the
    rounds that remain, it returns. *)
Lemma probe_total_from (fuel : nat) (k : Z) :
  0 <= k < size → size <= k + Z.of_nat fuel →
  is_Some (probe fuel t s hval hval2 (nth_probe size hval hval2 k)).
Proof.
  revert k. induction fuel as [|f IH]; intros k Hk Hf; [lia|].
  cbn [probe]. rewrite Ht_size, nth_probe_step.
  destruct (Z.eqb_spec (nth_probe size hval hval2 (k + 1)) hval) as [|Hne]; [eauto|].
  pose proof (nth_probe_range (k + 1)) as Hr.
  destruct (lookup_lt_is_Some_2 (htab_table t) (Z.to_nat (nth_probe size hval hval2 (k + 1))))
    as [e He]; [lia|].
  rewrite He. cbn.
  destruct (entry_matches e hval s); [eauto|].
  destruct (used e =? 0); [eauto|].
  apply IH; [|lia].
  destruct (Z.eq_dec (k + 1) size) as [Hks|]; [|lia].
  exfalso. apply Hne. rewrite Hks. apply nth_probe_cycle.
Qed.

Lemma probe_total :
  is_Some (probe (Z.to_nat size) t s hval hval2 hval).
Proof.
  rewrite <- nth_probe_0 at 2. apply probe_total_from; lia.
Qed.

(** Every index the loop returns lies in the table and is not index 0. *)
Lemma probe_range (fuel : nat) (idx : Z) (r : probe_result) :
  1 <= idx <= size →
  probe fuel t s hval hval2 idx = Some r →
  1 <= result_index r <= size.
Proof.
  revert idx. induction fuel as [|f IH]; intros idx Hi; [discriminate|].
  cbn [probe]. rewrite Ht_size.
  pose proof (probe_step_bounds idx Hi) as Hb.
  destruct (probe_step size hval2 idx =? hval).
  { intros [= <-]. exact Hb. }
  destruct (htab_table t !! Z.to_nat (probe_step size hval2 idx)) as [e|]; [|discriminate].
  cbn.
  destruct (entry_matches e hval s). { intros [= <-]. exact Hb. }
  destruct (used e =? 0). { intros [= <-]. exact Hb. }
  apply IH. exact Hb.
Qed.

End Probe.

Lemma entry_matches_stored hval s :
  entry_matches (mk_entry hval (Some (c_str s))) hval s = true.
Proof.
  unfold entry_matches, safe_strcmp_eq. cbn.
  rewrite Z.eqb_refl, strcmp_eq_c_str. reflexivity.
Qed.

Lemma entry_matches_unused e hval s :
  hval ≠ 0 → used e = 0 → entry_matches e hval s = false.
Proof.
  intros Hh He. unfold entry_matches. rewrite He.
  destruct (Z.eqb_spec 0 hval); [congruence|reflexivity].
Qed.

(** An index handed to the insertion code is either the start of the
    sequence (every entry was visited) or an unused entry. *)
Lemma probe_new_unused fuel t s hval hval2 idx i :
  probe fuel t s hval hval2 idx = Some (NewEntry i) →
  i = hval ∨ ∃ e, htab_table t !! Z.to_nat i = Some e ∧ used e = 0.
Proof.
  revert idx. induction fuel as [|f IH]; intros idx; [discriminate|].
  cbn [probe].
  destruct (Z.eqb_spec (probe_step (htab_size t) hval2 idx) hval) as [Heq|_].
  { intros [= <-]. left. exact Heq. }
  destruct (htab_table t !! Z.to_nat (probe_step (htab_size t) hval2 idx))
    as [e|] eqn:He; [|discriminate].
  cbn.
  destruct (entry_matches e hval s); [discriminate|].
  destruct (Z.eqb_spec (used e) 0) as [Hu|_].
  { intros [= <-]. right. eauto. }
  apply IH.
Qed.

(** After the string has been stored in the unused entry the loop had
    stopped at, the same loop finds it there. *)
Lemma probe_after_insert fuel t s hval hval2 i filled :
  hval ≠ 0 →
  (∃ e, htab_table t !! Z.to_nat i = Some e ∧ used e = 0) →
  ∀ idx,
  probe fuel t s hval hval2 idx = Some (NewEntry i) →
  i ≠ hval →
  probe fuel
    (mk_htab (<[Z.to_nat i := mk_entry hval (Some (c_str s))]> (htab_table t))
             (htab_size t) filled)
    s hval hval2 idx = Some (Existing i).
Proof.
  intros Hh [e0 [He0 Hu0]]. induction fuel as [|f IH]; intros idx; [discriminate|].
  cbn [probe htab_size htab_table].
  set (idx' := probe_step (htab_size t) hval2 idx).
  destruct (Z.eqb_spec idx' hval) as [Heq|_].
  { intros [= <-] Hne. contradiction. }
  destruct (decide (Z.to_nat idx' = Z.to_nat i)) as [Hsame|Hdiff].
  - rewrite Hsame, He0. cbn.
    rewrite (entry_matches_unused e0 hval s Hh Hu0), Hu0. cbn.
    intros [= Hi] _.
    rewrite list_lookup_insert_eq by (eapply lookup_lt_Some; exact He0).
    cbn. rewrite entry_matches_stored. congruence.
  - rewrite list_lookup_insert_ne by congruence.
    destruct (htab_table t !! Z.to_nat idx') as [e|]; [|discriminate].
    cbn.
    destruct (entry_matches e hval s); [discriminate|].
    destruct (used e =? 0).
    { intros [= Hi]. congruence. }
    apply IH.
Qed.

Lemma htab_search_total t s : htab_wf t → is_Some (htab_search t s).
Proof.
  intros [Hsize Hlen]. unfold htab_search.
  destruct (Z.eqb_spec (htab_size t) 0) as [|_]; [lia|].
  pose proof (table_hash_range (htab_size t) s ltac:(lia)) as Hh.
  destruct (second_hash_range (htab_size t) (table_hash (htab_size t) s) Hsize ltac:(lia))
    as [Hm Hh2].
  destruct (lookup_lt_is_Some_2 (htab_table t) (Z.to_nat (table_hash (htab_size t) s)))
    as [e He]; [lia|].
  rewrite He. cbn.
  destruct (used e =? 0); [eauto|].
  destruct (entry_matches e _ s); [eauto|].
  rewrite Hm. destruct (Z.eqb_spec (htab_size t - 2) 0) as [|_]; [lia|].
  apply (probe_total (htab_size t)); auto; lia.
Qed.

Lemma htab_search_range t s r :
  htab_wf t → htab_search t s = Some r → 1 <= result_index r <= htab_size t.
Proof.
  intros [Hsize Hlen]. unfold htab_search.
  destruct (Z.eqb_spec (htab_size t) 0) as [|_]; [lia|].
  pose proof (table_hash_range (htab_size t) s ltac:(lia)) as Hh.
  destruct (second_hash_range (htab_size t) (table_hash (htab_size t) s) Hsize ltac:(lia))
    as [Hm Hh2].
  destruct (htab_table t !! Z.to_nat (table_hash (htab_size t) s)) as [e|]; [|discriminate].
  cbn.
  destruct (used e =? 0). { intros [= <-]. cbn. lia. }
  destruct (entry_matches e _ s). { intros [= <-]. cbn. lia. }
  rewrite Hm. destruct (Z.eqb_spec (htab_size t - 2) 0) as [|_]; [lia|].
  apply (probe_range (htab_size t)); auto; lia.
Qed.

(** Searching again after the insertion finds the stored string at the
    index the first search handed out. *)
Lemma htab_search_after_insert t s i filled :
  htab_wf t →
  htab_search t s = Some (NewEntry i) →
  htab_search
    (mk_htab (<[Z.to_nat i := mk_entry (table_hash (htab_size t) s) (Some (c_str s))]>
                (htab_table t))
             (htab_size t) filled) s = Some (Existing i).
Proof.
  intros Hwf Hs. pose proof (htab_search_range t s _ Hwf Hs) as Hi. cbn in Hi.
  destruct Hwf as [Hsize Hlen].
  revert Hs. unfold htab_search. cbn [htab_size htab_table].
  destruct (Z.eqb_spec (htab_size t) 0) as [|_]; [lia|].
  pose proof (table_hash_range (htab_size t) s ltac:(lia)) as Hh.
  set (hval := table_hash (htab_size t) s) in *.
  assert (Hstored : ∀ l : list htab_entry, (Z.to_nat hval < length l)%nat →
            (<[Z.to_nat hval := mk_entry hval (Some (c_str s))]> l !! Z.to_nat hval
               ≫= λ e, if used e =? 0 then Some (NewEntry hval)
                       else if entry_matches e hval s then Some (Existing hval)
                       else
                         if ulong (htab_size t - 2) =? 0 then None
                         else probe (Z.to_nat (htab_size t))
                                (mk_htab (<[Z.to_nat hval := mk_entry hval (Some (c_str s))]> l)
                                         (htab_size t) filled)
                                s hval (ulong (1 + hval mod ulong (htab_size t - 2))) hval)
            = Some (Existing hval)).
  { intros l Hl. rewrite list_lookup_insert_eq by exact Hl. cbn.
    destruct (Z.eqb_spec hval 0) as [|_]; [lia|].
    rewrite entry_matches_stored. reflexivity. }
  destruct (htab_table t !! Z.to_nat hval) as [e|] eqn:He; [|discriminate].
  cbn.
  destruct (Z.eqb_spec (used e) 0) as [Hu|Hu].
  { intros [= <-]. apply Hstored. eapply lookup_lt_Some; exact He. }
  destruct (entry_matches e hval s) eqn:Hm; [discriminate|].
  destruct (ulong (htab_size t - 2) =? 0); [discriminate|].
  intros Hp.
  destruct (Z.eq_dec i hval) as [->|Hne].
  { apply Hstored. eapply lookup_lt_Some; exact He. }
  destruct (probe_new_unused _ _ _ _ _ _ _ Hp) as [|[e0 [He0 Hu0]]]; [contradiction|].
  assert (Z.to_nat hval ≠ Z.to_nat i) by (intros Heq; rewrite Heq in He; congruence).
  rewrite list_lookup_insert_ne by congruence.
  rewrite He. cbn.
  destruct (Z.eqb_spec (used e) 0) as [|_]; [contradiction|].
  rewrite Hm.
  apply probe_after_insert; eauto. lia.
Qed.

Lemma htab_hash_wf alloc_ok t s id t1 :
  htab_wf t → htab_hash alloc_ok t s = Some (id, t1) → htab_wf t1.
Proof.
  intros Hwf. unfold htab_hash.
  destruct s as [s|]; cbn; [|intros [= _ <-]; exact Hwf].
  destruct (htab_search t s) as [[idx|idx]|]; cbn; try discriminate.
  { intros [= _ <-]. exact Hwf. }
  destruct (htab_size t <=? htab_filled t). { intros [= _ <-]. exact Hwf. }
  destruct (in_bounds (htab_table t) idx); [|discriminate].
  destruct Hwf as [Hsize Hlen].
  destruct alloc_ok; intros [= _ <-]; split; cbn; try exact Hsize;
    rewrite length_insert; exact Hlen.
Qed.

(** The table [htab_create] makes for 1021 entries (a prime, the size in
    libusb's header) is well formed and empty. *)
Lemma htab_create_1021_wf :
  ∃ t, htab_create true 1021 = Some (Some t)
       ∧ htab_wf t ∧ htab_size t = 1021 ∧ htab_filled t = 0.
Proof.
  eexists. split; [vm_compute; reflexivity|].
  split; [|split; reflexivity].
  split; [cbn; lia|]. vm_compute. reflexivity.
Qed.

(** C3. Hashing the same string twice in the same table: when the table is
    not full and the copy of the string can be allocated, the first call
    returns a non-zero identifier, and a second call on the table the first
    one left returns the same identifier and leaves the table, hence the
    count of filled entries, as it is. *)
Theorem htab_hash_idempotent (t : htab) (s : string) :
  htab_wf t →
  htab_filled t < htab_size t →
  ∃ (id : Z) (t1 : htab),
    htab_hash true t (Some s) = Some (id, t1) ∧
    id ≠ 0 ∧
    ∀ alloc_ok : bool,
      ∃ t2 : htab,
        htab_hash alloc_ok t1 (Some s) = Some (id, t2) ∧
        htab_filled t2 = htab_filled t1 ∧
        t2 = t1.
Proof.
  intros Hwf Hfull.
  destruct (htab_search_total t s Hwf) as [r Hr].
  pose proof (htab_search_range t s r Hwf Hr) as Hrange.
  unfold htab_hash at 1. rewrite Hr. cbn.
  destruct r as [idx|idx]; cbn in Hrange.
  - exists idx, t. split; [reflexivity|]. split; [lia|].
    intros alloc_ok. exists t. unfold htab_hash. rewrite Hr. cbn. auto.
  - destruct (Z.leb_spec (htab_size t) (htab_filled t)) as [|_]; [lia|].
    destruct Hwf as [Hsize Hlen].
    rewrite in_bounds_true by lia.
    eexists idx, _. split; [reflexivity|]. split; [lia|].
    intros alloc_ok. eexists. unfold htab_hash.
    rewrite (htab_search_after_insert t s idx _ (conj Hsize Hlen) Hr). cbn.
    auto.
Qed.

(** A table of five entries, as [htab_create] makes it. *)
Lemma htab_hash_idempotent_witness :
  let t := mk_htab (replicate 6 (mk_entry 0 None)) 5 0 in
  htab_wf t ∧ htab_filled t < htab_size t ∧
  ∃ (id : Z) (t1 : htab),
    htab_hash true t (Some "USB\VID_046D"%string) = Some (id, t1) ∧
    id ≠ 0 ∧
    ∀ alloc_ok : bool,
      ∃ t2 : htab,
        htab_hash alloc_ok t1 (Some "USB\VID_046D"%string) = Some (id, t2) ∧
        htab_filled t2 = htab_filled t1 ∧
        t2 = t1.
Proof.
  assert (Hwf : htab_wf (mk_htab (replicate 6 (mk_entry 0 None)) 5 0)).
  { split; cbn; [lia | reflexivity]. }
  split; [exact Hwf|]. split; [cbn; lia|].
  apply (htab_hash_idempotent _ "USB\VID_046D"%string Hwf). cbn. lia.
Defined.

End HtabFacts.

(** ** Auto-claim counting *)

Module AutoclaimFacts.
Import Ctypes Carray Libusb Autoclaim Transfer CtypesFacts.

Lemma release_calls_app tr1 tr2 :
  release_calls (tr1 ++ tr2) = (release_calls tr1 + release_calls tr2)%nat.
Proof. unfold release_calls. rewrite List.filter_app, length_app. reflexivity. Qed.

Lemma claim_calls_app tr1 tr2 :
  claim_calls (tr1 ++ tr2) = (claim_calls tr1 + claim_calls tr2)%nat.
Proof. unfold claim_calls. rewrite List.filter_app, length_app. reflexivity. Qed.

Section WithCore.
Context `{windows_usb_h} {core : Type}.
Variable libusb_claim_interface : core_call core.
Variable libusb_release_interface : core_call core.

Lemma call_release_spec (st : handle_state core) (i : Z) :
  ∃ r st',
    call_release libusb_release_interface st i = (r, st') ∧
    autoclaim_count (st_handle st') = autoclaim_count (st_handle st) ∧
    st_trace st' = st_trace st ++ [EvReleaseInterface i r].
Proof.
  unfold call_release.
  destruct (libusb_release_interface (st_core st) (st_handle st) i) as [[r c] hp].
  eexists _, _. split; [reflexivity|]. cbn. auto.
Qed.

Lemma call_claim_spec (st : handle_state core) (i : Z) :
  ∃ r st',
    call_claim libusb_claim_interface st i = (r, st') ∧
    autoclaim_count (st_handle st') = autoclaim_count (st_handle st) ∧
    st_trace st' = st_trace st ++ [EvClaimInterface i r].
Proof.
  unfold call_claim.
  destruct (libusb_claim_interface (st_core st) (st_handle st) i) as [[r c] hp].
  eexists _, _. split; [reflexivity|]. cbn. auto.
Qed.

(** What one [auto_release] does, by the value of the count. *)
Lemma auto_release_spec (st : handle_state core) (n c : Z) :
  count_at st n = Some c →
  ∃ st',
    auto_release libusb_release_interface st n = Some st' ∧
    count_at st' n = Some (if 0 <? c then c - 1 else c) ∧
    (∀ j, j ≠ n → count_at st' j = count_at st j) ∧
    ((c = 1 ∧ ∃ r msg, st_trace st' = st_trace st ++ [EvReleaseInterface n r; EvLog LOG_DBG msg])
     ∨ (c ≠ 1 ∧ st_trace st' = st_trace st ∧ st_core st' = st_core st
        ∧ interface_handle (st_handle st') = interface_handle (st_handle st))).
Proof.
  unfold count_at. intros Hc. unfold auto_release. rewrite Hc. cbn.
  destruct (Z.ltb_spec 0 c) as [Hpos|Hle].
  - destruct (aset (autoclaim_count (st_handle st)) n (c - 1)) as [counts|] eqn:Hset.
    2:{ exfalso. unfold aset in Hset. apply aget_Some in Hc as [Hn Hl].
        apply lookup_lt_Some in Hl. rewrite in_bounds_true in Hset by lia. discriminate. }
    cbn.
    destruct (Z.eqb_spec (c - 1) 0) as [Hone|Hmore].
    + set (st1 := mk_state _ _ _).
      destruct (call_release_spec st1 n) as (r & st2 & Hcall & Hcnt & Htr).
      rewrite Hcall. eexists. split; [reflexivity|]. cbn.
      rewrite Hcnt. cbn. split; [|split].
      * eapply aget_aset_eq; exact Hset.
      * intros j Hj. eapply aget_aset_ne; [exact Hset|congruence].
      * left. split; [lia|]. rewrite Htr. cbn. rewrite <- app_assoc. cbn. eauto.
    + eexists. split; [reflexivity|]. cbn. split; [|split].
      * eapply aget_aset_eq; exact Hset.
      * intros j Hj. eapply aget_aset_ne; [exact Hset|congruence].
      * right. auto with lia.
  - eexists. split; [reflexivity|]. split; [exact Hc|]. split; [auto|].
    right. auto with lia.
Qed.

Lemma release_calls_auto_release (st st' : handle_state core) (n c : Z) :
  count_at st n = Some c →
  auto_release libusb_release_interface st n = Some st' →
  release_calls (st_trace st') =
    (release_calls (st_trace st) + if (c =? 1)%Z then 1 else 0)%nat.
Proof.
  intros Hc Hrel.
  destruct (auto_release_spec st n c Hc) as (st1 & Hrel1 & _ & _ & Hcases).
  rewrite Hrel in Hrel1. injection Hrel1 as <-.
  destruct Hcases as [[-> (r & msg & ->)]|(Hne & -> & _)].
  - rewrite release_calls_app. reflexivity.
  - destruct (Z.eqb_spec c 1); [contradiction|lia].
Qed.

(** One teardown of a transfer bound to interface [n]. *)
Lemma windows_clear_transfer_priv_spec (it : usbi_transfer) (st : handle_state core) (n c : Z) :
  interface_number (transfer_priv it) = n →
  count_at st n = Some c →
  ∃ it' st',
    windows_clear_transfer_priv libusb_release_interface it st = Some (it', st') ∧
    count_at st' n = Some (if 0 <? c then c - 1 else c) ∧
    release_calls (st_trace st') =
      (release_calls (st_trace st) + if (c =? 1)%Z then 1 else 0)%nat.
Proof.
  intros Hn Hc. unfold windows_clear_transfer_priv. rewrite Hn.
  assert (Hc' : count_at (log st [EvFreeFd]) n = Some c) by exact Hc.
  destruct (auto_release_spec (log st [EvFreeFd]) n c Hc') as (st1 & Hrel & Hcnt & _ & _).
  rewrite Hrel. cbn. eexists _, _. split; [reflexivity|]. split; [exact Hcnt|].
  rewrite (release_calls_auto_release _ _ _ _ Hc' Hrel). cbn.
  rewrite release_calls_app. unfold release_calls at 2. cbn. lia.
Qed.

(** Any number of teardowns of transfers bound to interface [n]: the count
    goes down to zero and stays there, and the release operation is called
    once, by the teardown that brings the count from 1 to 0. *)
Lemma teardown_all_spec (its : list usbi_transfer) :
  ∀ (st : handle_state core) (n c : Z),
  Forall (λ it, interface_number (transfer_priv it) = n) its →
  count_at st n = Some c → 0 <= c →
  ∃ st',
    teardown_all libusb_release_interface its st = Some st' ∧
    count_at st' n = Some (Z.max 0 (c - Z.of_nat (length its))) ∧
    release_calls (st_trace st') =
      (release_calls (st_trace st)
       + if ((0 <? c) && (c <=? Z.of_nat (length its)))%Z then 1 else 0)%nat.
Proof.
  induction its as [|it its IH]; intros st n c Hall Hc Hpos.
  - exists st. split; [reflexivity|]. split.
    + rewrite Hc. f_equal. cbn [length]. lia.
    + change (Z.of_nat (length (@nil usbi_transfer))) with 0.
      destruct (Z.ltb_spec 0 c), (Z.leb_spec c 0); cbn; lia.
  - inversion Hall as [|? ? Hit Hrest]; subst.
    destruct (windows_clear_transfer_priv_spec it st _ c eq_refl Hc)
      as (it' & st1 & Hclear & Hcnt1 & Hrel1).
    cbn [teardown_all]. rewrite Hclear. cbn.
    destruct (IH st1 _ _ Hrest Hcnt1) as (st2 & Htd & Hcnt2 & Hrel2).
    { destruct (Z.ltb_spec 0 c); lia. }
    exists st2. split; [exact Htd|]. split.
    + rewrite Hcnt2. f_equal. cbn [length].
      destruct (Z.ltb_spec 0 c); lia.
    + rewrite Hrel2, Hrel1. cbn [length]. case_Z_tests; cbn; lia.
Qed.

(** [auto_claim] on an interface that is given and already auto-claimed. *)
Lemma auto_claim_given (priv : windows_device_priv) (st : handle_state core)
    (n c : Z) (api_type : usb_api) :
  api_type = USB_API_WINUSBX ∨ api_type = USB_API_HID →
  0 <= n → count_at st n = Some c → 0 < c < INT_MAX →
  ∃ st',
    auto_claim libusb_claim_interface priv st n api_type
      = Some (LIBUSB_SUCCESS, n, st') ∧
    count_at st' n = Some (c + 1) ∧
    (∀ j, j ≠ n → count_at st' j = count_at st j) ∧
    st_trace st' = st_trace st ∧ st_core st' = st_core st ∧
    interface_handle (st_handle st') = interface_handle (st_handle st).
Proof.
  intros Hapi Hn Hc Hrange. unfold count_at in Hc.
  assert (Hbody :
    ∃ st', (if n <? 0
            then '(ci, st1) ← auto_claim_scan libusb_claim_interface
                                (Z.to_nat USB_MAXINTERFACES) (usb_interface priv) api_type 0 st;
                 if ci =? USB_MAXINTERFACES
                 then Some (LIBUSB_ERROR_NOT_FOUND, ci,
                            log st1 [EvLog LOG_ERR "could not auto-claim any interface"])
                 else Some (LIBUSB_SUCCESS, ci, st1)
            else c ← aget (autoclaim_count (st_handle st)) n;
                 if c =? 0 then Some (LIBUSB_SUCCESS, n, st)
                 else st1 ← incr_autoclaim st n; Some (LIBUSB_SUCCESS, n, st1))
           = Some (LIBUSB_SUCCESS, n, st') ∧
           count_at st' n = Some (c + 1) ∧
           (∀ j, j ≠ n → count_at st' j = count_at st j) ∧
           st_trace st' = st_trace st ∧ st_core st' = st_core st ∧
           interface_handle (st_handle st') = interface_handle (st_handle st)).
  { destruct (Z.ltb_spec n 0); [lia|].
    rewrite Hc. cbn.
    destruct (Z.eqb_spec c 0); [lia|].
    unfold incr_autoclaim. rewrite Hc. cbn.
    assert (Hadd : int_add c 1 = Some (c + 1)).
    { unfold int_add, INT_MAX in *.
      destruct (Z.leb_spec (- 2 ^ 31) (c + 1)), (Z.leb_spec (c + 1) (2 ^ 31 - 1));
        cbn; try reflexivity; lia. }
    rewrite Hadd. cbn.
    destruct (aset (autoclaim_count (st_handle st)) n (c + 1)) as [counts|] eqn:Hset.
    2:{ exfalso. unfold aset in Hset. apply aget_Some in Hc as [_ Hl].
        apply lookup_lt_Some in Hl. rewrite in_bounds_true in Hset by lia. discriminate. }
    cbn. eexists. split; [reflexivity|]. unfold count_at. cbn.
    split; [eapply aget_aset_eq; exact Hset|].
    split; [intros j Hj; eapply aget_aset_ne; [exact Hset|congruence]|].
    auto. }
  unfold auto_claim. destruct Hapi as [->| ->]; exact Hbody.
Qed.


End WithCore.


End AutoclaimFacts.

(** ** Submission of a control transfer when nothing can be auto-claimed *)

Module SubmitFacts.
Import Ctypes Carray Libusb Autoclaim Transfer CtypesFacts AutoclaimFacts.

Section WithCore.
Context `{windows_usb_h} {core : Type}.
Variable libusb_claim_interface : core_call core.
Variable winusbx_initialized : Z → bool.
Variable usbi_create_fd : core → Z → option Z.
Variable ControlTransfer : core → Z → list Z → control_outcome.

(** The scan either runs through all its rounds and leaves the counts
    alone, or stops at an interface it claimed. *)
Lemma auto_claim_scan_outcome (n : nat) (ifaces : list usb_interface_t) (api_type : usb_api) :
  ∀ (ci : Z) (st : handle_state core) (ci' : Z) (st' : handle_state core),
  auto_claim_scan libusb_claim_interface n ifaces api_type ci st = Some (ci', st') →
  (ci' = ci + Z.of_nat n ∧
   autoclaim_count (st_handle st') = autoclaim_count (st_handle st))
  ∨ ci <= ci' < ci + Z.of_nat n.
Proof.
  induction n as [|n IH]; intros ci st ci' st'; cbn [auto_claim_scan].
  - intros [= <- <-]. left. split; [lia|reflexivity].
  - destruct (aget ifaces ci) as [ifc|]; [|discriminate].
    destruct (decide (apib ifc = api_type)) as [_|_].
    + destruct (call_claim_spec libusb_claim_interface st ci) as (r & st1 & Hcall & Hcnt & _).
      rewrite Hcall.
      destruct (r =? LIBUSB_SUCCESS).
      * destruct (aget (autoclaim_count (st_handle st1)) ci); [|discriminate].
        destruct (incr_autoclaim _ ci); [|discriminate].
        cbn. intros [= <- <-]. right. lia.
      * intros Hscan. destruct (IH _ _ _ _ Hscan) as [[-> Hc]|Hr].
        -- left. split; [lia|congruence].
        -- right. lia.
    + intros Hscan. destruct (IH _ _ _ _ Hscan) as [[-> Hc]|Hr].
      * left. split; [lia|congruence].
      * right. lia.
Qed.

(** A failing [auto_claim] changes no count. *)
Lemma auto_claim_failure_keeps_counts (priv : windows_device_priv) (st st' : handle_state core)
    (n n' r : Z) (api_type : usb_api) :
  auto_claim libusb_claim_interface priv st n api_type = Some (r, n', st') →
  r ≠ LIBUSB_SUCCESS →
  autoclaim_count (st_handle st') = autoclaim_count (st_handle st).
Proof.
  unfold auto_claim.
  assert (Hbody :
    (if n <? 0
     then '(ci, st1) ← auto_claim_scan libusb_claim_interface
                         (Z.to_nat USB_MAXINTERFACES) (usb_interface priv) api_type 0 st;
          if ci =? USB_MAXINTERFACES
          then Some (LIBUSB_ERROR_NOT_FOUND, ci,
                     log st1 [EvLog LOG_ERR "could not auto-claim any interface"])
          else Some (LIBUSB_SUCCESS, ci, st1)
     else c ← aget (autoclaim_count (st_handle st)) n;
          if c =? 0 then Some (LIBUSB_SUCCESS, n, st)
          else st1 ← incr_autoclaim st n; Some (LIBUSB_SUCCESS, n, st1))
    = Some (r, n', st') →
    r ≠ LIBUSB_SUCCESS →
    autoclaim_count (st_handle st') = autoclaim_count (st_handle st)).
  { destruct (n <? 0).
    - destruct (auto_claim_scan _ _ _ _ 0 st) as [[ci st1]|] eqn:Hscan; [|discriminate].
      cbn. destruct (Z.eqb_spec ci USB_MAXINTERFACES) as [Hci|_].
      + intros [= <- <- <-] _. cbn.
        destruct (auto_claim_scan_outcome _ _ _ _ _ _ _ Hscan) as [[_ Hc]|Hr]; [exact Hc|].
        exfalso. lia.
      + intros [= <- _ _] Hr. contradiction.
    - destruct (aget (autoclaim_count (st_handle st)) n) as [c|]; [|discriminate].
      cbn. destruct (c =? 0).
      + intros [= <- _ _] Hr. contradiction.
      + destruct (incr_autoclaim st n); [|discriminate].
        cbn. intros [= <- _ _] Hr. contradiction. }
  destruct api_type; try exact Hbody; intros [= <- <- <-] _; reflexivity.
Qed.

(** When the core refuses every interface of the family, the scan runs
    through and changes no count. *)
Lemma auto_claim_scan_refused (ifaces : list usb_interface_t) (api_type : usb_api) :
  never_claims libusb_claim_interface ifaces api_type →
  ∀ (n : nat) (ci : Z) (st : handle_state core),
  0 <= ci → ci + Z.of_nat n <= Z.of_nat (length ifaces) →
  ∃ st',
    auto_claim_scan libusb_claim_interface n ifaces api_type ci st
      = Some (ci + Z.of_nat n, st') ∧
    autoclaim_count (st_handle st') = autoclaim_count (st_handle st).
Proof.
  intros Hnever. induction n as [|n IH]; intros ci st Hci Hlen; cbn [auto_claim_scan].
  - exists st. split; [f_equal; f_equal; lia|reflexivity].
  - destruct (aget_in_bounds ifaces ci ltac:(lia)) as [ifc Hifc]. rewrite Hifc.
    destruct (decide (apib ifc = api_type)) as [Hfam|_].
    + pose proof (Hnever ci ifc (st_core st) (st_handle st) Hifc Hfam) as Hrefuse.
      unfold call_claim.
      destruct (libusb_claim_interface (st_core st) (st_handle st) ci) as [[r c] hp].
      cbn in Hrefuse. destruct (Z.eqb_spec r LIBUSB_SUCCESS) as [|_]; [contradiction|].
      destruct (IH (ci + 1) (mk_state c (keep_counts (st_handle st) hp)
                               (st_trace st ++ [EvClaimInterface ci r]))
                  ltac:(lia) ltac:(lia)) as (st' & Hscan & Hc).
      exists st'. rewrite Hscan. split; [f_equal; f_equal; lia|exact Hc].
    + destruct (IH (ci + 1) st ltac:(lia) ltac:(lia)) as (st' & Hscan & Hc).
      exists st'. rewrite Hscan. split; [f_equal; f_equal; lia|exact Hc].
Qed.

(** C9, as the code has it.  A control transfer that passes the two checks
    at the head of the submission (the sub-API is loaded, the payload is
    not longer than [MAX_CTRL_BUFFER_LENGTH]), for which no claimed
    interface of the family is found and for which the core refuses every
    interface of the family: the submission returns
    [LIBUSB_ERROR_NOT_FOUND] and every auto-claim count is as before. *)
Theorem submit_control_not_found (priv : windows_device_priv) (sub_api : Z)
    (it : usbi_transfer) (st : handle_state core) :
  winusbx_initialized (if sub_api =? SUB_API_NOTSET then dev_sub_api priv else sub_api) = true →
  ulong (xfer_length it - LIBUSB_CONTROL_SETUP_SIZE) <= MAX_CTRL_BUFFER_LENGTH →
  0 <= USB_MAXINTERFACES →
  length (usb_interface priv) = Z.to_nat USB_MAXINTERFACES →
  get_valid_interface priv (st_handle st) USB_API_WINUSBX = Some (-1) →
  never_claims libusb_claim_interface (usb_interface priv) USB_API_WINUSBX →
  ∃ it' st',
    winusbx_submit_control_transfer libusb_claim_interface winusbx_initialized
      usbi_create_fd ControlTransfer priv sub_api it st
      = Some (LIBUSB_ERROR_NOT_FOUND, it', st') ∧
    autoclaim_count (st_handle st') = autoclaim_count (st_handle st).
Proof.
  intros Hinit Hsize Hmax Hlen Hvalid Hnever.
  unfold winusbx_submit_control_transfer.
  rewrite Hinit. cbn [negb set_transfer_priv xfer_length].
  destruct (Z.ltb_spec MAX_CTRL_BUFFER_LENGTH
              (ulong (xfer_length it - LIBUSB_CONTROL_SETUP_SIZE))) as [|_]; [lia|].
  rewrite Hvalid. cbn [mbind option_bind].
  change (-1 <? 0) with true. cbn iota.
  unfold auto_claim. change (-1 <? 0) with true. cbn iota.
  destruct (auto_claim_scan_refused (usb_interface priv)
              USB_API_WINUSBX Hnever (Z.to_nat USB_MAXINTERFACES) 0 st
              ltac:(lia) ltac:(lia)) as (st1 & Hscan & Hcounts).
  rewrite Hscan. cbn [mbind option_bind].
  replace (0 + Z.of_nat (Z.to_nat USB_MAXINTERFACES)) with USB_MAXINTERFACES by lia.
  rewrite Z.eqb_refl. cbn.
  eexists _, _. split; [reflexivity|]. exact Hcounts.
Qed.

End WithCore.

(** A payload of 16 bytes for a device whose interfaces the core refuses. *)
Lemma submit_control_not_found_witness :
  let H := Scenario.header_1_0 in
  let priv := Scenario.winusb_device in
  let st := Scenario.unclaimed_handle in
  let it := Scenario.control_transfer 16 in
  ulong (xfer_length it - LIBUSB_CONTROL_SETUP_SIZE) <= MAX_CTRL_BUFFER_LENGTH
  ∧ 0 <= USB_MAXINTERFACES
  ∧ length (usb_interface priv) = Z.to_nat USB_MAXINTERFACES
  ∧ get_valid_interface priv (st_handle st) USB_API_WINUSBX = Some (-1)
  ∧ never_claims Scenario.core_refuses (usb_interface priv) USB_API_WINUSBX
  ∧ ∃ it' st',
      winusbx_submit_control_transfer Scenario.core_refuses (λ _, true)
        (λ _ _, Some 3) (λ _ _ _, CtPending) priv SUB_API_NOTSET it st
        = Some (LIBUSB_ERROR_NOT_FOUND, it', st') ∧
      autoclaim_count (st_handle st') = autoclaim_count (st_handle st).
Proof.
  intros H priv st it.
  assert (Hsize : ulong (xfer_length it - LIBUSB_CONTROL_SETUP_SIZE) <= MAX_CTRL_BUFFER_LENGTH).
  { vm_compute. discriminate. }
  assert (Hmax : 0 <= USB_MAXINTERFACES) by (vm_compute; discriminate).
  assert (Hnever : never_claims Scenario.core_refuses (usb_interface priv) USB_API_WINUSBX).
  { intros i ifc c hp _ _. cbn. discriminate. }
  split; [exact Hsize|]. split; [exact Hmax|]. split; [reflexivity|].
  split; [reflexivity|]. split; [exact Hnever|].
  exact (submit_control_not_found Scenario.core_refuses (λ _, true) (λ _ _, Some 3)
           (λ _ _ _, CtPending) priv SUB_API_NOTSET it st
           eq_refl Hsize Hmax eq_refl eq_refl Hnever).
Defined.

(** C9 as stated fails on a control transfer whose payload is too long:
    no interface is claimed, none can be claimed (auto-claiming would report
    [LIBUSB_ERROR_NOT_FOUND]), and the submission returns
    [LIBUSB_ERROR_INVALID_PARAM]. *)
Lemma submit_control_not_found_counterexample :
  let H := Scenario.header_1_0 in
  let priv := Scenario.winusb_device in
  let st := Scenario.unclaimed_handle in
  let it := Scenario.control_transfer 5000 in
  get_valid_interface priv (st_handle st) USB_API_WINUSBX = Some (-1)
  ∧ never_claims Scenario.core_refuses (usb_interface priv) USB_API_WINUSBX
  ∧ (∃ n st', auto_claim Scenario.core_refuses priv st (-1) USB_API_WINUSBX
               = Some (LIBUSB_ERROR_NOT_FOUND, n, st'))
  ∧ ∃ it',
      winusbx_submit_control_transfer Scenario.core_refuses (λ _, true)
        (λ _ _, Some 3) (λ _ _ _, CtPending) priv SUB_API_NOTSET it st
        = Some (LIBUSB_ERROR_INVALID_PARAM, it', st)
      ∧ LIBUSB_ERROR_INVALID_PARAM ≠ LIBUSB_ERROR_NOT_FOUND.
Proof.
  intros H priv st it.
  split; [reflexivity|]. split.
  { intros i ifc c hp _ _. cbn. discriminate. }
  split.
  { eexists _, _. vm_compute. reflexivity. }
  eexists. split; [vm_compute; reflexivity|]. discriminate.
Qed.

End SubmitFacts.

(** ** Completion of a transfer *)

Module TransferFacts.
Import Ctypes Carray Libusb Autoclaim Transfer CtypesFacts AutoclaimFacts.

Lemma completions_app tr1 tr2 : completions (tr1 ++ tr2) = completions tr1 ++ completions tr2.
Proof. unfold completions. apply omap_app. Qed.

Lemma completions_cons e tr :
  completions (e :: tr) =
    match e with EvTransferCompletion s => s :: completions tr | _ => completions tr end.
Proof. destruct e; reflexivity. Qed.

Lemma completions_nil : completions [] = [].
Proof. reflexivity. Qed.

Ltac simpl_completions :=
  repeat (rewrite completions_app || rewrite completions_cons || rewrite completions_nil);
  cbn [app].

Lemma winusbx_copy_result `{windows_usb_h} it io_size res :
  winusbx_copy_transfer_data it io_size = Some res → copy_result_ok it res.
Proof. intros [= <-]. cbn. auto. Qed.

Lemma unsupported_copy_result `{windows_usb_h} it io_size res :
  unsupported_copy_transfer_data it io_size = Some res → copy_result_ok it res.
Proof. intros [= <-]. cbn. auto. Qed.

Lemma hid_copy_result `{windows_usb_h} it io_size res :
  hid_copy_transfer_data it io_size = Some res → copy_result_ok it res.
Proof.
  unfold hid_copy_transfer_data.
  destruct (hid_buffer (transfer_priv it)) as [hbuf|]; [|intros [= <-]; cbn; auto].
  destruct (hid_dest (transfer_priv it)) as [dest|]; [|intros [= <-]; cbn; auto].
  destruct (aget hbuf 0) as [first|]; [|discriminate]. cbn.
  destruct (memcpy _ _ _ _ _) as [buf'|]; [|discriminate]. cbn.
  intros [= <-]. cbn.
  destruct (hid_expected_size (transfer_priv it) <? io_size); cbn; auto.
Qed.

Lemma copy_transfer_data_result `{windows_usb_h} priv it io_size res :
  copy_transfer_data priv it io_size = Some res → copy_result_ok it res.
Proof.
  unfold copy_transfer_data, composite_copy_transfer_data.
  destruct (dev_apib priv);
    eauto using winusbx_copy_result, unsupported_copy_result, hid_copy_result.
  destruct (aget (usb_interface priv) _) as [ifc|]; [|discriminate]. cbn.
  destruct (apib ifc);
    eauto using winusbx_copy_result, unsupported_copy_result, hid_copy_result.
  discriminate.
Qed.

Section WithCore.
Context `{windows_usb_h} {core : Type}.
Variable libusb_release_interface : core_call core.

(** The teardown reports no completion. *)
Lemma windows_clear_transfer_priv_trace (it : usbi_transfer) (st : handle_state core) :
  is_Some (count_at st (interface_number (transfer_priv it))) →
  ∃ it' st' evs,
    windows_clear_transfer_priv libusb_release_interface it st = Some (it', st') ∧
    st_trace st' = st_trace st ++ evs ∧
    completions evs = [] ∧ In EvFreeFd evs.
Proof.
  intros [c Hc]. unfold windows_clear_transfer_priv.
  assert (Hc' : count_at (log st [EvFreeFd]) (interface_number (transfer_priv it)) = Some c)
    by exact Hc.
  destruct (auto_release_spec libusb_release_interface _ _ c Hc')
    as (st1 & Hrel & _ & _ & Hcases).
  rewrite Hrel. cbn.
  destruct Hcases as [[_ (r & msg & Htr)]|(_ & Htr & _)];
    eexists _, st1, _; (split; [reflexivity|]); rewrite Htr; cbn.
  - rewrite <- app_assoc. split; [reflexivity|]. cbn. auto.
  - split; [reflexivity|]. cbn. auto.
Qed.

Lemma log_log (st : handle_state core) (a b : list event) :
  log (log st a) b = log st (a ++ b).
Proof. unfold log. cbn. rewrite app_assoc. reflexivity. Qed.

Lemma completion_status_spec (priv : windows_device_priv) (it : usbi_transfer)
    (st : handle_state core) (io_result io_size : Z) :
  (io_result = NO_ERROR ∨ io_result = ERROR_OPERATION_ABORTED →
   is_Some (copy_transfer_data priv it io_size)) →
  ∃ status it1 evs,
    completion_status priv it st io_result io_size = Some (status, it1, log st evs) ∧
    completions evs = [] ∧
    interface_number (transfer_priv it1) = interface_number (transfer_priv it) ∧
    status_settled priv it io_result io_size status evs.
Proof.
  intros Hcopy. unfold completion_status, status_settled, status_vocabulary.
  destruct (Z.eqb_spec io_result NO_ERROR) as [->|Hne0].
  { destruct Hcopy as [[[r it1] l] Hc]; [auto|].
    pose proof (copy_transfer_data_result _ _ _ _ Hc) as (Hr & _ & Hif & Hl).
    rewrite Hc. cbn. eexists _, _, _. split; [reflexivity|].
    split; [exact Hl|]. split; [exact Hif|].
    split; [|split; [congruence|split; [|discriminate]]].
    - destruct Hr as [->|[->| ->]]; cbn; auto.
    - intros _. eexists _, _. split; [reflexivity|]. cbn. auto. }
  destruct (Z.eqb_spec io_result ERROR_GEN_FAILURE) as [->|Hne1].
  { eexists _, _, _. split; [reflexivity|]. cbn.
    repeat split; auto; try discriminate. }
  destruct (Z.eqb_spec io_result ERROR_SEM_TIMEOUT) as [->|Hne2].
  { eexists _, _, _. split; [reflexivity|]. cbn.
    repeat split; auto 6; try discriminate. }
  destruct (Z.eqb_spec io_result ERROR_OPERATION_ABORTED) as [->|Hne3].
  { destruct Hcopy as [[[r it1] l] Hc]; [auto|].
    pose proof (copy_transfer_data_result _ _ _ _ Hc) as (Hr & Hfl & Hif & Hl).
    rewrite Hc. cbn. rewrite Hfl.
    assert (Hlog : ∃ evs,
      (if r =? LIBUSB_TRANSFER_COMPLETED
       then log st (EvCopyTransferData (dev_apib priv) r :: l)
       else log (log st (EvCopyTransferData (dev_apib priv) r :: l))
              [EvLog LOG_DBG "Failed to copy partial data in aborted operation: %d"])
      = log st evs ∧ completions evs = [] ∧
      In (EvCopyTransferData (dev_apib priv) r) evs ∧
      (r ≠ LIBUSB_TRANSFER_COMPLETED →
       In (EvLog LOG_DBG "Failed to copy partial data in aborted operation: %d") evs)).
    { destruct (Z.eqb_spec r LIBUSB_TRANSFER_COMPLETED) as [Hrc|Hrc].
      - eexists. split; [reflexivity|]. simpl_completions. split; [exact Hl|].
        split; [cbn; auto|]. contradiction.
      - rewrite log_log. eexists. split; [reflexivity|].
        simpl_completions. rewrite Hl. split; [reflexivity|].
        split; [cbn; auto|]. intros _. cbn. right. apply in_or_app. right. cbn. auto. }
    destruct Hlog as (evs & -> & Hcompl & Hin & Hfail).
    destruct (Z.land (flags it) USBI_TRANSFER_TIMED_OUT =? 0) eqn:Hto;
      rewrite log_log; eexists _, _, _; (split; [reflexivity|]);
      simpl_completions; rewrite Hcompl; (split; [reflexivity|]); (split; [exact Hif|]);
      (split; [cbn; auto 6|]); (split; [cbn; auto 6|]); (split; [congruence|]);
      intros _; eexists _, _, _; (split; [reflexivity|]);
      (split; [apply in_or_app; auto|]); (split; [reflexivity|]);
      intros Hrc; apply in_or_app; auto. }
  eexists _, _, _. split; [reflexivity|]. cbn.
  repeat split; auto 7; try contradiction.
Qed.


End WithCore.



End TransferFacts.

(** ** Interface slots of a composite device *)

Module CompositeFacts.
Import Ctypes Carray Cstr Libusb Composite CtypesFacts.

Section WithHeader.
Context `{windows_usb_h}.

(** C5, as the code has it.  A leaf installed into a slot whose path is
    already set: a candidate of the HID backend is ignored, whatever
    occupies the slot (the call returns [LIBUSB_ERROR_ACCESS] and the
    device is as before); a candidate of any other backend overwrites the
    slot, whatever occupies it, and leaves the other slots as they are. *)
Theorem set_composite_interface_occupied (calloc_ok : bool) (priv : windows_device_priv)
    (dev_interface_path device_id : string) (api : usb_api) (sub_api : Z)
    (n : Z) (warn : bool) (slot : usb_interface_t) (old_path : string) :
  dev_apib priv = USB_API_COMPOSITE →
  parse_interface_number device_id = Some (n, warn) →
  n < USB_MAXINTERFACES →
  aget (usb_interface priv) n = Some slot →
  path slot = Some old_path →
  (api = USB_API_HID →
     ∃ evs, set_composite_interface calloc_ok priv dev_interface_path device_id api sub_api
            = Some (LIBUSB_ERROR_ACCESS, priv, evs))
  ∧ (api ≠ USB_API_HID →
     ∃ priv' evs,
       set_composite_interface calloc_ok priv dev_interface_path device_id api sub_api
         = Some (LIBUSB_SUCCESS, priv', evs) ∧
       aget (usb_interface priv') n
         = Some (mk_usb_interface (Some dev_interface_path) api sub_api (endpoint slot)) ∧
       ∀ j, j ≠ n → aget (usb_interface priv') j = aget (usb_interface priv) j).
Proof.
  intros Hcomp Hparse Hn Hslot Hpath.
  unfold set_composite_interface.
  rewrite Hcomp, bool_decide_eq_true_2 by reflexivity. cbn [negb].
  rewrite Hparse. cbn [mbind option_bind].
  destruct (Z.leb_spec USB_MAXINTERFACES n) as [|_]; [lia|].
  rewrite Hslot. cbn [mbind option_bind].
  rewrite Hpath, (bool_decide_eq_true_2 (Some old_path ≠ None)) by discriminate.
  cbn [andb]. split.
  - intros ->. rewrite bool_decide_eq_true_2 by reflexivity. eauto.
  - intros Hapi. rewrite !(bool_decide_eq_false_2 (api = USB_API_HID)) by exact Hapi.
    destruct (aset (usb_interface priv) n
                (mk_usb_interface (Some dev_interface_path) api sub_api (endpoint slot)))
      as [slots|] eqn:Hset.
    2:{ exfalso. unfold aset in Hset. apply aget_Some in Hslot as [Hn0 Hl].
        apply lookup_lt_Some in Hl. rewrite in_bounds_true in Hset by lia. discriminate. }
    cbn. eexists _, _. split; [reflexivity|]. cbn. split.
    + eapply aget_aset_eq; exact Hset.
    + intros j Hj. eapply aget_aset_ne; [exact Hset|congruence].
Qed.

(** A leaf installed into an empty slot fills that slot and no other. *)
Lemma set_composite_interface_empty (priv : windows_device_priv)
    (dev_interface_path device_id : string) (api : usb_api) (sub_api : Z)
    (n : Z) (warn : bool) (slot : usb_interface_t) :
  dev_apib priv = USB_API_COMPOSITE →
  parse_interface_number device_id = Some (n, warn) →
  n < USB_MAXINTERFACES →
  aget (usb_interface priv) n = Some slot →
  path slot = None →
  ∃ priv' evs,
    set_composite_interface true priv dev_interface_path device_id api sub_api
      = Some (LIBUSB_SUCCESS, priv', evs) ∧
    evs = warn_default warn ++ [EvLog LOG_DBG "interface[%d] = %s"] ∧
    aget (usb_interface priv') n
      = Some (mk_usb_interface (Some dev_interface_path) api sub_api (endpoint slot)) ∧
    ∀ j, j ≠ n → aget (usb_interface priv') j = aget (usb_interface priv) j.
Proof.
  intros Hcomp Hparse Hn Hslot Hpath.
  unfold set_composite_interface.
  rewrite Hcomp, bool_decide_eq_true_2 by reflexivity. cbn [negb].
  rewrite Hparse. cbn [mbind option_bind].
  destruct (Z.leb_spec USB_MAXINTERFACES n) as [|_]; [lia|].
  rewrite Hslot. cbn [mbind option_bind].
  rewrite Hpath, (bool_decide_eq_false_2 (None ≠ None)) by (intros Hne; apply Hne; reflexivity).
  cbn [andb].
  destruct (aset (usb_interface priv) n
              (mk_usb_interface (Some dev_interface_path) api sub_api (endpoint slot)))
    as [slots|] eqn:Hset.
  2:{ exfalso. unfold aset in Hset. apply aget_Some in Hslot as [Hn0 Hl].
      apply lookup_lt_Some in Hl. rewrite in_bounds_true in Hset by lia. discriminate. }
  cbn [mbind option_bind].
  assert (Hslots : aget slots n
                   = Some (mk_usb_interface (Some dev_interface_path) api sub_api (endpoint slot))
                   ∧ ∀ j, j ≠ n → aget slots j = aget (usb_interface priv) j).
  { split; [eapply aget_aset_eq; exact Hset|].
    intros j Hj. eapply aget_aset_ne; [exact Hset|congruence]. }
  destruct (bool_decide (api = USB_API_HID) && bool_decide (hid _ = None));
    eexists _, _; (split; [reflexivity|]); (split; [reflexivity|]); exact Hslots.
Qed.

(** Removing a leaf empties the slot its instance id names and no other. *)
Lemma unset_composite_interface_clears (priv : windows_device_priv) (device_id : string)
    (n : Z) (warn : bool) (slot : usb_interface_t) :
  dev_apib priv = USB_API_COMPOSITE →
  parse_interface_number device_id = Some (n, warn) →
  n < USB_MAXINTERFACES →
  aget (usb_interface priv) n = Some slot →
  ∃ priv' evs,
    unset_composite_interface priv device_id = Some (priv', evs) ∧
    slot_path priv' n = None ∧
    ∀ j, j ≠ n → aget (usb_interface priv') j = aget (usb_interface priv) j.
Proof.
  intros Hcomp Hparse Hn Hslot.
  unfold unset_composite_interface.
  rewrite Hcomp, bool_decide_eq_true_2 by reflexivity. cbn [negb].
  rewrite Hparse. cbn [mbind option_bind].
  destruct (Z.leb_spec USB_MAXINTERFACES n) as [|_]; [lia|].
  rewrite Hslot. cbn [mbind option_bind].
  destruct (path slot) as [p|] eqn:Hpath.
  - destruct (aset (usb_interface priv) n
                (mk_usb_interface None USB_API_UNSUPPORTED SUB_API_NOTSET (endpoint slot)))
      as [slots|] eqn:Hset.
    2:{ exfalso. unfold aset in Hset. apply aget_Some in Hslot as [Hn0 Hl].
        apply lookup_lt_Some in Hl. rewrite in_bounds_true in Hset by lia. discriminate. }
    cbn [mbind option_bind]. eexists _, _. split; [reflexivity|].
    assert (Hslots : aget slots n
                     = Some (mk_usb_interface None USB_API_UNSUPPORTED SUB_API_NOTSET
                               (endpoint slot))
                     ∧ ∀ j, j ≠ n → aget slots j = aget (usb_interface priv) j).
    { split; [eapply aget_aset_eq; exact Hset|].
      intros j Hj. eapply aget_aset_ne; [exact Hset|congruence]. }
    destruct Hslots as [Hn' Hothers].
    destruct (existsb _ _); cbn; unfold slot_path; cbn; rewrite Hn'; auto.
  - eexists _, _. split; [reflexivity|]. unfold slot_path. rewrite Hslot. cbn.
    split; [exact Hpath|]. auto.
Qed.

End WithHeader.

(** Slot 0 holds a WinUSB leaf; a WinUSB and a HID candidate arrive. *)
Lemma set_composite_interface_occupied_witness :
  let H := Scenario.header_1_0 in
  let occupied :=
    set_usb_interface Scenario.composite_device
      (<[0%nat := mk_usb_interface (Some Scenario.path_MI_00) USB_API_WINUSBX 0 None]>
         (usb_interface Scenario.composite_device)) in
  dev_apib occupied = USB_API_COMPOSITE
  ∧ parse_interface_number Scenario.id_MI_00 = Some (0, false)
  ∧ 0 < USB_MAXINTERFACES
  ∧ (∃ evs, set_composite_interface true occupied Scenario.path_HID_00 Scenario.id_MI_00
              USB_API_HID 0 = Some (LIBUSB_ERROR_ACCESS, occupied, evs)).
Proof.
  intros H occupied.
  assert (Hparse : parse_interface_number Scenario.id_MI_00 = Some (0, false))
    by (vm_compute; reflexivity).
  assert (Hmax : 0 < USB_MAXINTERFACES) by (vm_compute; reflexivity).
  split; [reflexivity|]. split; [exact Hparse|]. split; [exact Hmax|].
  exact (proj1 (set_composite_interface_occupied true occupied Scenario.path_HID_00
                  Scenario.id_MI_00 USB_API_HID 0 0 false
                  (mk_usb_interface (Some Scenario.path_MI_00) USB_API_WINUSBX 0 None)
                  Scenario.path_MI_00 eq_refl Hparse Hmax eq_refl eq_refl) eq_refl).
Defined.

(** C5 as stated fails when the slot holds a leaf that is not HID and the
    candidate is HID: the claim has the newer data overwrite the slot, the
    code ignores the candidate and keeps the slot. *)
Lemma set_composite_interface_occupied_counterexample :
  let H := Scenario.header_1_0 in
  let occupied :=
    set_usb_interface Scenario.composite_device
      (<[0%nat := mk_usb_interface (Some Scenario.path_MI_00) USB_API_WINUSBX 0 None]>
         (usb_interface Scenario.composite_device)) in
  (aget (usb_interface occupied) 0 ≫= λ slot, Some (apib slot)) = Some USB_API_WINUSBX
  ∧ ∃ evs,
      set_composite_interface true occupied Scenario.path_HID_00 Scenario.id_MI_00
        USB_API_HID 0 = Some (LIBUSB_ERROR_ACCESS, occupied, evs)
      ∧ slot_path occupied 0 = Some Scenario.path_MI_00
      ∧ Scenario.path_MI_00 ≠ Scenario.path_HID_00.
Proof.
  intros H occupied. split; [reflexivity|].
  eexists. split; [vm_compute; reflexivity|]. split; [reflexivity|]. discriminate.
Qed.

Lemma char_at_cons (a : ascii) (s : string) (i : nat) :
  char_at (String a s) (S i) = char_at s i.
Proof. reflexivity. Qed.

(** Reading behind the first character is reading in the rest. *)
Lemma scan_MI_cons (fuel : nat) (a : ascii) (s : string) :
  ∀ i, scan_MI fuel (String a s) (S i) = prod_map id S <$> scan_MI fuel s i.
Proof.
  induction fuel as [|f IH]; intros i; [reflexivity|].
  cbn [scan_MI]. rewrite char_at_cons.
  destruct (char_at s i) as [c|]; [|reflexivity]. cbn [mbind option_bind].
  destruct (c =? 0); [reflexivity|].
  destruct (c =? char_M); [|apply (IH (i + 1)%nat)].
  change (S i + 1)%nat with (S (i + 1)). rewrite char_at_cons.
  destruct (char_at s (i + 1)) as [c1|]; [|reflexivity]. cbn [mbind option_bind].
  destruct (c1 =? char_I); [|apply (IH (i + 2)%nat)].
  change (S i + 2)%nat with (S (i + 2)). rewrite char_at_cons.
  destruct (char_at s (i + 2)) as [c2|]; [|reflexivity]. cbn [mbind option_bind].
  destruct (c2 =? char_underscore); [|apply (IH (i + 3)%nat)].
  change (S i + 3)%nat with (S (i + 3)). rewrite char_at_cons.
  destruct (char_at s (i + 3)) as [d1|]; [|reflexivity]. cbn [mbind option_bind].
  change (S i + 4)%nat with (S (i + 4)). rewrite char_at_cons.
  destruct (char_at s (i + 4)) as [d2|]; reflexivity.
Qed.

Lemma with_marker_cons (a : ascii) (pre : string) (d1 d2 : ascii) (post : string) :
  with_marker (String a pre) d1 d2 post = String a (with_marker pre d1 d2 post).
Proof. reflexivity. Qed.

(** When no M precedes the marker, the loop stops at the second character
    behind it and has read the two characters as a decimal number. *)
Lemma scan_MI_with_marker (pre : string) (d1 d2 : ascii) (post : string) (k : nat) :
  no_M pre = true →
  scan_MI (String.length pre + S k) (with_marker pre d1 d2 post) 0
  = Some ((char_val d1 - char_0) * 10 + (char_val d2 - char_0),
          (String.length pre + 4)%nat).
Proof.
  intros Hpre. induction pre as [|a pre IH].
  - reflexivity.
  - cbn [no_M] in Hpre. apply andb_true_iff in Hpre as [Ha Hpre].
    apply andb_true_iff in Ha as [Hnul HM].
    apply negb_true_iff in Hnul, HM.
    cbn [String.length Nat.add]. rewrite with_marker_cons.
    cbn [scan_MI]. change (char_at (String a _) 0) with (Some (char_val a)).
    cbn [mbind option_bind]. rewrite Hnul, HM.
    change (0 + 1)%nat with 1%nat. rewrite scan_MI_cons, (IH Hpre). reflexivity.
Qed.

Lemma char_at_with_marker (pre : string) (d1 d2 : ascii) (post : string) :
  char_at (with_marker pre d1 d2 post) (String.length pre + 4) = Some (char_val d2).
Proof.
  induction pre as [|a pre IH]; [reflexivity|].
  cbn [String.length Nat.add]. rewrite with_marker_cons, char_at_cons. exact IH.
Qed.

Lemma length_with_marker (pre : string) (d1 d2 : ascii) (post : string) :
  String.length (with_marker pre d1 d2 post)
  = (String.length pre + S (4 + String.length post))%nat.
Proof.
  induction pre as [|a pre IH]; [reflexivity|].
  rewrite with_marker_cons. cbn [String.length Nat.add]. f_equal. exact IH.
Qed.

(** The interface number of an instance id in which no M precedes the
    marker: the two characters behind it, read as a decimal number; the
    warning is not given unless the id ends behind the first of them. *)
Lemma parse_interface_number_with_marker (pre : string) (d1 d2 : ascii) (post : string) :
  no_M pre = true →
  parse_interface_number (with_marker pre d1 d2 post)
  = Some ((char_val d1 - char_0) * 10 + (char_val d2 - char_0), char_val d2 =? 0).
Proof.
  intros Hpre. unfold parse_interface_number.
  rewrite length_with_marker.
  replace (String.length pre + S (4 + String.length post) + 1)%nat
    with (String.length pre + S (S (4 + String.length post)))%nat by lia.
  rewrite (scan_MI_with_marker pre d1 d2 post _ Hpre). cbn [mbind option_bind].
  rewrite char_at_with_marker. reflexivity.
Qed.

(** The scenario of the specification: children with [MI_00] and [MI_03]
    fill slots 0 and 3 and leave slots 1 and 2 empty; removing the
    [MI_00] child empties slot 0 only. *)
Lemma composite_slots_MI_00_MI_03 :
  let H := Scenario.header_1_0 in
  ∃ priv1 priv2 priv3 evs1 evs2 evs3,
    set_composite_interface true Scenario.composite_device Scenario.path_MI_00
      Scenario.id_MI_00 USB_API_WINUSBX 0 = Some (LIBUSB_SUCCESS, priv1, evs1)
    ∧ set_composite_interface true priv1 Scenario.path_MI_03
        Scenario.id_MI_03 USB_API_WINUSBX 0 = Some (LIBUSB_SUCCESS, priv2, evs2)
    ∧ slot_path priv2 0 = Some Scenario.path_MI_00
    ∧ slot_path priv2 1 = None
    ∧ slot_path priv2 2 = None
    ∧ slot_path priv2 3 = Some Scenario.path_MI_03
    ∧ unset_composite_interface priv2 Scenario.id_MI_00 = Some (priv3, evs3)
    ∧ slot_path priv3 0 = None
    ∧ (∀ j, j ≠ 0 → aget (usb_interface priv3) j = aget (usb_interface priv2) j).
Proof.
  intros H. eexists _, _, _, _, _, _.
  split; [vm_compute; reflexivity|]. split; [vm_compute; reflexivity|].
  split; [reflexivity|]. split; [reflexivity|]. split; [reflexivity|].
  split; [reflexivity|]. split; [vm_compute; reflexivity|]. split; [reflexivity|].
  intros j Hj. unfold aget, in_bounds. cbn [length usb_interface replicate].
  destruct ((0 <=? j) && (j <? _)) eqn:Hb; [|reflexivity].
  apply andb_true_iff in Hb as [H0 H1].
  apply Z.leb_le in H0. apply Z.ltb_lt in H1.
  destruct (Z.to_nat j) as [|k] eqn:Hk; [lia|]. reflexivity.
Qed.

(** C4 at an instance id in which the marker follows the letter M: the
    loop steps over the M of the marker, does not find it, and the leaf
    goes to slot 0 with the warning, while slot 3 stays empty. *)
Theorem set_composite_interface_marker_missed :
  let H := Scenario.header_1_0 in
  parse_interface_number Scenario.id_MMI_03 = Some (0, true)
  ∧ ∃ priv',
      set_composite_interface true Scenario.composite_device Scenario.path_MI_03
        Scenario.id_MMI_03 USB_API_WINUSBX 0
      = Some (LIBUSB_SUCCESS, priv',
              [EvLog LOG_WARN "failure to read interface number for %s. Using default value %d";
               EvLog LOG_DBG "interface[%d] = %s"])
      ∧ slot_path priv' 0 = Some Scenario.path_MI_03
      ∧ slot_path priv' 3 = None.
Proof.
  intros H. split; [vm_compute; reflexivity|].
  eexists. split; [vm_compute; reflexivity|]. split; reflexivity.
Qed.

End CompositeFacts.

(** ** The cached configuration descriptors *)

Module DescriptorFacts.
Import Ctypes Carray Libusb Enumerate Descriptor CtypesFacts.

(** A descriptor that [cache_config_descriptors] stores is as long as its
    [wTotalLength] says. *)
Lemma cache_one_stored_wf (io : config_io) (blob : list Z) (evs : list event) :
  cache_one io = Some (CacheStored blob evs) → blob_wf blob.
Proof.
  unfold cache_one.
  destruct (io_dummy io) as [[ret_size total]|]; [|discriminate].
  destruct (negb (ret_size =? _) || (total <? sizeof_USB_CONFIGURATION_DESCRIPTOR)) eqn:Hchk;
    [discriminate|].
  apply orb_false_iff in Hchk as [_ Htot]. apply Z.ltb_ge in Htot.
  unfold sizeof_USB_CONFIGURATION_DESCRIPTOR in Htot.
  destruct (negb (io_calloc_ok io)); [discriminate|].
  destruct (io_actual io) as [[ret_size' written]|]; [|discriminate].
  set (cd_data := take (Z.to_nat total) (written ++ replicate (Z.to_nat total) 0)).
  assert (Hlen : length cd_data = Z.to_nat total).
  { unfold cd_data. rewrite length_take, length_app, length_replicate. lia. }
  destruct (wTotalLength cd_data) as [cd_total|] eqn:Hw; [|discriminate]. cbn.
  destruct (negb (_ =? ret_size') || negb (cd_total =? total)) eqn:Hchk2; [discriminate|].
  apply orb_false_iff in Hchk2 as [_ Heq]. apply negb_false_iff, Z.eqb_eq in Heq. subst cd_total.
  destruct (aget cd_data 1) as [ty|]; [|discriminate]. cbn.
  destruct (negb (ty =? USB_CONFIGURATION_DESCRIPTOR_TYPE)); [discriminate|].
  destruct (negb (io_malloc_ok io)); [discriminate|].
  intros [= <- _]. unfold blob_wf.
  rewrite firstn_all2 by lia. rewrite Hw, Hlen. f_equal. lia.
Qed.

(** C10. [windows_get_config_descriptor]: an index that is not below the
    number of configurations gives [LIBUSB_ERROR_INVALID_PARAM]; no cached
    descriptor for the index gives [LIBUSB_ERROR_NOT_FOUND]; otherwise the
    first [min wTotalLength len] bytes of the descriptor are copied to the
    front of the buffer and that count is returned, so a short buffer gets
    a truncated copy and a non-negative result, never
    [LIBUSB_ERROR_OVERFLOW]. *)
Theorem windows_get_config_descriptor_spec (dev : libusb_device) (config_index : Z)
    (buffer : list Z) (len : Z) :
  0 <= len <= Z.of_nat (length buffer) →
  (num_configurations dev <= config_index →
     windows_get_config_descriptor dev config_index buffer len
       = Some (LIBUSB_ERROR_INVALID_PARAM, buffer))
  ∧ (config_index < num_configurations dev →
       (config_descriptor (os_priv dev) = None
        ∨ ∃ descs, config_descriptor (os_priv dev) = Some descs
                   ∧ aget descs config_index = Some None) →
       windows_get_config_descriptor dev config_index buffer len
         = Some (LIBUSB_ERROR_NOT_FOUND, buffer))
  ∧ (config_index < num_configurations dev →
       ∀ descs blob,
         config_descriptor (os_priv dev) = Some descs →
         aget descs config_index = Some (Some blob) →
         blob_wf blob →
         let size := Z.min (Z.of_nat (length blob)) len in
         windows_get_config_descriptor dev config_index buffer len
           = Some (size, take (Z.to_nat size) blob ++ drop (Z.to_nat size) buffer)
         ∧ 0 <= size
         ∧ size ≠ LIBUSB_ERROR_OVERFLOW).
Proof.
  intros Hlen. unfold windows_get_config_descriptor. split; [|split].
  - intros Hidx. destruct (Z.leb_spec (num_configurations dev) config_index); [reflexivity|lia].
  - intros Hidx Hnone.
    destruct (Z.leb_spec (num_configurations dev) config_index); [lia|].
    destruct Hnone as [->|(descs & -> & ->)]; reflexivity.
  - intros Hidx descs blob Hdescs Hblob Hwf.
    destruct (Z.leb_spec (num_configurations dev) config_index); [lia|].
    rewrite Hdescs, Hblob. cbn [mbind option_bind].
    unfold blob_wf in Hwf. rewrite Hwf. cbn [mbind option_bind].
    set (size := Z.min (Z.of_nat (length blob)) len). unfold memcpy_to.
    assert (Hsize : 0 <= size ∧ size <= Z.of_nat (length buffer)
                    ∧ size <= Z.of_nat (length blob)) by (unfold size; lia).
    destruct Hsize as (H0 & H1 & H2).
    destruct (Z.leb_spec 0 size); [|lia].
    destruct (Z.leb_spec size (Z.of_nat (length buffer))); [|lia].
    destruct (Z.leb_spec size (Z.of_nat (length blob))); [|lia].
    cbn. split; [reflexivity|]. split; [exact H0|].
    unfold LIBUSB_ERROR_OVERFLOW. lia.
Qed.

(** A buffer of 9 bytes for a descriptor of 25. *)
Lemma windows_get_config_descriptor_spec_witness :
  let buffer := replicate 9 0 in
  0 <= 9 <= Z.of_nat (length buffer)
  ∧ blob_wf Scenario.config_blob
  ∧ windows_get_config_descriptor Scenario.configured_device 0 buffer 9
      = Some (9, [9; 2; 25; 0; 1; 1; 0; 128; 50]).
Proof.
  intros buffer.
  assert (Hlen : 0 <= 9 <= Z.of_nat (length buffer)) by (cbn; lia).
  assert (Hwf : blob_wf Scenario.config_blob) by reflexivity.
  split; [exact Hlen|]. split; [exact Hwf|].
  exact (proj1 (proj2 (proj2
           (windows_get_config_descriptor_spec Scenario.configured_device 0 buffer 9 Hlen))
           ltac:(cbn; lia) [Some Scenario.config_blob] Scenario.config_blob
           eq_refl eq_refl Hwf)).
Defined.

End DescriptorFacts.

(** ** Device initialisation *)

Module EnumerateFacts.
Import Ctypes Carray Cstr Libusb Enumerate CtypesFacts.

Section WithHeader.
Context `{windows_usb_h}.
Variable sanitized : libusb_device → Z.

Lemma force_hcd_keeps_address hcd_id ok pci table dev r table' dev' evs :
  force_hcd_device_descriptor hcd_id ok pci table dev = Some (r, table', dev', evs) →
  device_address dev' = device_address dev ∧ port_number dev' = port_number dev
  ∧ (bus_number dev' = bus_number dev ∨ r = LIBUSB_SUCCESS).
Proof.
  unfold force_hcd_device_descriptor.
  destruct hcd_id as [id|]; [|intros [= <- <- <- <-]; auto].
  destruct (hcd_lookup _ _ _ _ _) as [[index table1]|]; [|discriminate]. cbn.
  destruct (index =? MAX_USB_HOST_CONTROLLERS); [intros [= <- <- <- <-]; auto|].
  destruct (aget table1 index) as [[e|]|]; cbn; [|intros [= <- <- <- <-]; auto|discriminate].
  destruct pci as [[vid pid]|]; intros [= <- <- <- <-]; cbn; auto.
Qed.

Lemma cache_config_descriptors_keeps dev calloc_ok hub r dev' evs :
  cache_config_descriptors calloc_ok hub dev = Some (r, dev', evs) →
  device_address dev' = device_address dev ∧ port_number dev' = port_number dev
  ∧ bus_number dev' = bus_number dev ∧ session_data dev' = session_data dev.
Proof.
  unfold cache_config_descriptors.
  destruct (num_configurations dev =? 0); [intros [= <- <- <-]; auto|].
  destruct (negb calloc_ok); [intros [= <- <- <-]; auto|].
  destruct (cache_loop _ _ _ _ _) as [[[r1 descs] evs1]|]; [|discriminate].
  cbn. intros [= <- <- <-]. auto.
Qed.

(** What a successful [init_device] has assigned. *)
Lemma init_device_success env table dev parent port_num table' dev' evs :
  init_device sanitized env table dev parent port_num
    = Some (LIBUSB_SUCCESS, table', dev', evs) →
  (port_num = 0 ∧ parent = None ∧ device_address dev' = 1 ∧ port_number dev' = 0
   ∧ bus_number dev' ≠ 0)
  ∨ (port_num ≠ 0 ∧
     ∃ p, parent = Some p ∧ bus_number dev' = bus_number p ∧ bus_number p ≠ 0
          ∧ port_number dev' = port_num
          ∧ ((device_address dev ≠ 0 ∧ device_address dev' = device_address dev)
             ∨ (device_address dev = 0 ∧
                ∃ ci, env_conn_info env = Some ci
                      ∧ device_address dev' = uint8 (uint8 (DeviceAddress ci) + 1)))).
Proof.
  unfold init_device.
  destruct (Z.eqb_spec port_num 0) as [->|Hport].
  - destruct parent as [p|]; [discriminate|].
    destruct (force_hcd_device_descriptor _ _ _ _ _) as [[[[r table1] dev1] evs1]|] eqn:Hf;
      [|discriminate].
    cbn. apply force_hcd_keeps_address in Hf as (Haddr & Hpn & _). cbn in Haddr, Hpn.
    destruct (Z.eqb_spec (bus_number dev1) 0) as [|Hbus]; [discriminate|].
    intros [= <- <- <-]. left. cbn. auto.
  - destruct parent as [p|]; [|discriminate].
    destruct (negb (bool_decide _)); [discriminate|].
    destruct (Z.eqb_spec (bus_number p) 0) as [|Hbus]; [discriminate|].
    cbn [device_address set_port_number set_priv set_bus_number].
    destruct (Z.eqb_spec (device_address dev) 0) as [Hzero|Hset]; cbn [negb].
    + destruct (negb (env_CreateFileA_ok env)); [discriminate|].
      destruct (env_conn_info env) as [ci|]; [|discriminate].
      destruct (ConnectionStatus ci =? NoDeviceConnected); [discriminate|].
      destruct (cache_config_descriptors _ _ _) as [[[res dev1] evs1]|] eqn:Hc; [|discriminate].
      apply cache_config_descriptors_keeps in Hc as (Ha & Hp & Hb & Hs). cbn in Ha, Hp, Hb, Hs.
      cbv beta iota delta [mbind option_bind].
      destruct (res =? LIBUSB_SUCCESS);
        destruct (Speed ci =? 0), (Speed ci =? 1), (Speed ci =? 2), (Speed ci =? 3);
        intros [= <- <- <-]; right; (split; [exact Hport|]); exists p;
        (split; [reflexivity|]); cbn; (split; [exact Hb|]); (split; [exact Hbus|]);
        (split; [exact Hp|]); right; (split; [exact Hzero|]); eauto.
    + intros [= <- <- <-]. right. split; [exact Hport|]. exists p. cbn. auto 10.
Qed.

(** The loop over the table, started behind the entries [pre]: it stops
    at the saved id if there is one, else at the first free entry, which
    it fills, else behind the table. *)
Lemma hcd_lookup_from (seen_rest : list string) :
  ∀ (pre : hc_table) (k : nat) (ok : bool) (id : string),
  Forall is_c_string seen_rest →
  hcd_lookup (length seen_rest + k) ok (pre ++ (Some <$> seen_rest) ++ replicate k None) id
    (Z.of_nat (length pre)) =
  match list_find (λ s, s = c_str id) seen_rest with
  | Some (j, _) =>
      Some (Z.of_nat (length pre + j), pre ++ (Some <$> seen_rest) ++ replicate k None)
  | None =>
      match k with
      | O => Some (Z.of_nat (length pre + length seen_rest),
                   pre ++ (Some <$> seen_rest) ++ replicate k None)
      | S _ => Some (Z.of_nat (length pre + length seen_rest),
                     <[(length pre + length seen_rest)%nat :=
                         if ok then Some (c_str id) else None]>
                       (pre ++ (Some <$> seen_rest) ++ replicate k None))
      end
  end.
Proof.
  induction seen_rest as [|s rest IH]; intros pre k ok id Hcs.
  - cbn [length fmap list_fmap app list_find Nat.add]. rewrite Nat.add_0_r.
    destruct k as [|k]; [reflexivity|].
    cbn [hcd_lookup]. rewrite aget_of_nat.
    rewrite lookup_app_r, Nat.sub_diag by lia. cbn.
    rewrite aset_of_nat by (rewrite length_app; cbn; lia). reflexivity.
  - inversion Hcs as [|? ? Hs Hrest]; subst.
    cbn [length fmap list_fmap app Nat.add hcd_lookup].
    rewrite aget_of_nat, lookup_app_r, Nat.sub_diag by lia. cbn [lookup list_lookup mbind option_bind].
    cbn [list_find].
    destruct (strcmp_eq s id) eqn:Hcmp.
    + apply strcmp_eq_spec in Hcmp. rewrite Hs in Hcmp.
      rewrite decide_True by exact Hcmp. rewrite Nat.add_0_r. reflexivity.
    + assert (Hne : s ≠ c_str id).
      { intros Heq. apply not_true_iff_false in Hcmp. apply Hcmp.
        apply strcmp_eq_spec. rewrite Hs. exact Heq. }
      rewrite decide_False by exact Hne.
      specialize (IH (pre ++ [Some s]) k ok id Hrest).
      rewrite length_app in IH. cbn [length] in IH.
      rewrite <- !app_assoc in IH. cbn [app] in IH.
      replace (Z.of_nat (length pre) + 1) with (Z.of_nat (length pre + 1)) by lia.
      rewrite IH.
      replace (length pre + 1 + length rest)%nat
        with (length pre + S (length rest))%nat by lia.
      destruct (list_find (λ s0, s0 = c_str id) rest) as [[j s']|]; cbn.
      * f_equal. f_equal. lia.
      * destruct k; reflexivity.
Qed.

Lemma position_Some cid seen j :
  position cid seen = Some j → seen !! j = Some cid ∧ (j < length seen)%nat.
Proof.
  unfold position. destruct (list_find _ seen) as [[j' s']|] eqn:Hf; [|discriminate].
  cbn. intros [= <-]. apply list_find_Some in Hf as (Hl & -> & _).
  split; [exact Hl|]. eapply lookup_lt_Some; exact Hl.
Qed.

Lemma position_None cid seen : position cid seen = None → cid ∉ seen.
Proof.
  unfold position. destruct (list_find _ seen) as [[j' s']|] eqn:Hf; [discriminate|].
  intros _ Hin. eapply list_find_None in Hf. rewrite Forall_forall in Hf.
  exact (Hf cid Hin eq_refl).
Qed.

Lemma position_app cid seen more j :
  position cid seen = Some j → position cid (seen ++ more) = Some j.
Proof.
  unfold position. destruct (list_find _ seen) as [[j' s']|] eqn:Hf; [|discriminate].
  cbn. intros [= <-]. rewrite (list_find_app_l _ _ _ _ _ Hf). reflexivity.
Qed.

Lemma hcd_lookup_table (seen : list string) (ok : bool) (id : string) :
  seen_ok seen →
  hcd_lookup (Z.to_nat MAX_USB_HOST_CONTROLLERS) ok (table_of seen) id 0 =
  match list_find (λ s, s = c_str id) seen with
  | Some (j, _) => Some (Z.of_nat j, table_of seen)
  | None =>
      if Z.of_nat (length seen) <? MAX_USB_HOST_CONTROLLERS
      then Some (Z.of_nat (length seen),
                 <[length seen := if ok then Some (c_str id) else None]> (table_of seen))
      else Some (MAX_USB_HOST_CONTROLLERS, table_of seen)
  end.
Proof.
  intros (Hlen & _ & Hcs).
  pose proof (hcd_lookup_from seen [] (Z.to_nat MAX_USB_HOST_CONTROLLERS - length seen)
                ok id Hcs) as Hl.
  cbn [app length Nat.add] in Hl.
  replace (length seen + (Z.to_nat MAX_USB_HOST_CONTROLLERS - length seen))%nat
    with (Z.to_nat MAX_USB_HOST_CONTROLLERS) in Hl by lia.
  change (Z.of_nat 0) with 0 in Hl. fold (table_of seen) in Hl. rewrite Hl.
  destruct (list_find _ seen) as [[j s']|]; [reflexivity|].
  destruct (Z.ltb_spec (Z.of_nat (length seen)) MAX_USB_HOST_CONTROLLERS) as [Hlt|Hge].
  - destruct (Z.to_nat MAX_USB_HOST_CONTROLLERS - length seen)%nat eqn:Hk; [lia|reflexivity].
  - destruct (Z.to_nat MAX_USB_HOST_CONTROLLERS - length seen)%nat eqn:Hk; [|lia].
    f_equal. f_equal. lia.
Qed.

Lemma table_of_lookup_seen (seen : list string) (j : nat) (s : string) :
  seen !! j = Some s → table_of seen !! j = Some (Some s).
Proof.
  intros Hs. unfold table_of. rewrite lookup_app_l.
  - rewrite list_lookup_fmap, Hs. reflexivity.
  - rewrite length_fmap. eapply lookup_lt_Some; exact Hs.
Qed.

Lemma table_of_insert_new (seen : list string) (cid : string) :
  Z.of_nat (length seen) < MAX_USB_HOST_CONTROLLERS →
  <[length seen := Some cid]> (table_of seen) = table_of (seen ++ [cid]).
Proof.
  intros Hlt. unfold table_of.
  destruct (Z.to_nat MAX_USB_HOST_CONTROLLERS - length seen)%nat as [|k] eqn:Hk; [lia|].
  rewrite insert_app_r_alt by (rewrite length_fmap; lia).
  rewrite length_fmap, Nat.sub_diag. cbn.
  rewrite fmap_app, <- app_assoc, length_app. cbn.
  replace (Z.to_nat MAX_USB_HOST_CONTROLLERS - (length seen + 1))%nat with k by lia.
  reflexivity.
Qed.

Lemma table_of_insert_none (seen : list string) :
  <[length seen := None]> (table_of seen) = table_of seen.
Proof.
  unfold table_of.
  destruct (Z.to_nat MAX_USB_HOST_CONTROLLERS - length seen)%nat as [|k] eqn:Hk.
  - apply list_insert_ge. rewrite length_app, length_fmap. cbn. lia.
  - rewrite insert_app_r_alt by (rewrite length_fmap; lia).
    rewrite length_fmap, Nat.sub_diag. reflexivity.
Qed.

Lemma seen_ok_nil : 0 <= MAX_USB_HOST_CONTROLLERS → seen_ok [].
Proof. intros Hmax. split; [cbn; lia|]. split; constructor. Qed.

Lemma seen_ok_snoc (seen : list string) (id : string) :
  seen_ok seen → position (c_str id) seen = None →
  Z.of_nat (length seen) < MAX_USB_HOST_CONTROLLERS →
  seen_ok (seen ++ [c_str id]).
Proof.
  intros (Hlen & Hnd & Hcs) Hpos Hlt. split; [|split].
  - rewrite length_app. cbn. lia.
  - apply NoDup_app. split; [exact Hnd|]. split; [|apply NoDup_singleton].
    intros x Hx Hin. apply list_elem_of_singleton in Hin. subst x.
    exact (position_None _ _ Hpos Hx).
  - apply Forall_app. split; [exact Hcs|]. constructor; [apply c_str_idemp|constructor].
Qed.

(** One call of [force_hcd_device_descriptor] on the table of the
    controllers [seen]. *)
Lemma force_hcd_step (seen : list string) (id : string) (ok : bool)
    (pci : option (Z * Z)) (dev : libusb_device) :
  MAX_USB_HOST_CONTROLLERS <= 255 →
  seen_ok seen →
  match position (c_str id) seen with
  | Some j =>
      ∃ dev' evs,
        force_hcd_device_descriptor (Some id) ok pci (table_of seen) dev
          = Some (LIBUSB_SUCCESS, table_of seen, dev', evs)
        ∧ bus_number dev' = Z.of_nat j + 1
  | None =>
      if Z.of_nat (length seen) <? MAX_USB_HOST_CONTROLLERS then
        if ok then
          ∃ dev' evs,
            force_hcd_device_descriptor (Some id) ok pci (table_of seen) dev
              = Some (LIBUSB_SUCCESS, table_of (seen ++ [c_str id]), dev', evs)
            ∧ bus_number dev' = Z.of_nat (length seen) + 1
        else
          ∃ evs,
            force_hcd_device_descriptor (Some id) ok pci (table_of seen) dev
              = Some (LIBUSB_ERROR_NO_DEVICE, table_of seen, dev, evs)
      else
        force_hcd_device_descriptor (Some id) ok pci (table_of seen) dev
          = Some (LIBUSB_ERROR_NO_DEVICE, table_of seen, dev,
                  [EvLog LOG_ERR "program assertion failed: too many host controllers"])
  end.
Proof.
  intros Hmax Hok. unfold force_hcd_device_descriptor.
  rewrite (hcd_lookup_table seen ok id Hok).
  destruct Hok as (Hlen & _ & _).
  unfold position.
  destruct (list_find (λ s, s = c_str id) seen) as [[j s']|] eqn:Hf; cbn.
  - apply list_find_Some in Hf as (Hl & -> & _).
    pose proof (lookup_lt_Some _ _ _ Hl) as Hj.
    destruct (Z.eqb_spec (Z.of_nat j) MAX_USB_HOST_CONTROLLERS) as [|_]; [lia|].
    rewrite aget_of_nat, (table_of_lookup_seen _ _ _ Hl). cbn.
    destruct pci as [[vid pid]|]; eexists _, _; (split; [reflexivity|]); cbn;
      apply uint8_small; lia.
  - destruct (Z.ltb_spec (Z.of_nat (length seen)) MAX_USB_HOST_CONTROLLERS) as [Hlt|Hge]; cbn.
    + destruct (Z.eqb_spec (Z.of_nat (length seen)) MAX_USB_HOST_CONTROLLERS) as [|_]; [lia|].
      rewrite aget_of_nat.
      assert (Hin : (length seen < length (table_of seen))%nat).
      { unfold table_of. rewrite length_app, length_fmap, length_replicate. lia. }
      rewrite list_lookup_insert_eq by exact Hin.
      destruct ok; cbn.
      * rewrite table_of_insert_new by exact Hlt.
        destruct pci as [[vid pid]|]; eexists _, _; (split; [reflexivity|]); cbn;
          apply uint8_small; lia.
      * rewrite table_of_insert_none. eauto.
    + rewrite Z.eqb_refl. reflexivity.
Qed.

(** Later calls keep the controllers saved so far where they are. *)
Lemma force_hcd_all_grows
    (calls : list (option string * bool * option (Z * Z) * libusb_device)) :
  MAX_USB_HOST_CONTROLLERS <= 255 →
  ∀ (seen : list string) (table2 : hc_table),
  seen_ok seen →
  force_hcd_all calls (table_of seen) = Some table2 →
  ∃ seen2, table2 = table_of seen2 ∧ seen_ok seen2 ∧ seen `prefix_of` seen2.
Proof.
  intros Hmax. induction calls as [|[[[id ok] pci] dev] calls IH]; intros seen table2 Hok.
  - intros [= <-]. exists seen. split; [reflexivity|]. split; [exact Hok|reflexivity].
  - cbn [force_hcd_all]. destruct id as [id|].
    + pose proof (force_hcd_step seen id ok pci dev Hmax Hok) as Hstep.
      destruct (position (c_str id) seen) as [j|] eqn:Hpos.
      * destruct Hstep as (dev' & evs & -> & _). cbn. apply IH. exact Hok.
      * destruct (Z.ltb_spec (Z.of_nat (length seen)) MAX_USB_HOST_CONTROLLERS) as [Hlt|Hge].
        -- destruct ok.
           ++ destruct Hstep as (dev' & evs & -> & _). cbn. intros Hall.
              destruct (IH _ _ (seen_ok_snoc seen id Hok Hpos Hlt) Hall)
                as (seen2 & -> & Hok2 & Hpre).
              exists seen2. split; [reflexivity|]. split; [exact Hok2|].
              etransitivity; [|exact Hpre]. apply prefix_app_r. reflexivity.
           ++ destruct Hstep as (evs & ->). cbn. apply IH. exact Hok.
        -- rewrite Hstep. cbn. apply IH. exact Hok.
    + cbn. apply IH. exact Hok.
Qed.

Lemma position_snoc_new cid seen :
  position cid seen = None → position cid (seen ++ [cid]) = Some (length seen).
Proof.
  unfold position. destruct (list_find _ seen) as [[j s']|] eqn:Hf; [discriminate|].
  intros _. rewrite (list_find_app_r _ _ _ Hf). cbn.
  rewrite decide_True by reflexivity. reflexivity.
Qed.

(** A successful call leaves the controller saved, at the position that
    gives its bus number. *)
Lemma force_hcd_success_saved (seen : list string) (id : string) (ok : bool)
    (pci : option (Z * Z)) (dev : libusb_device) table1 dev1 evs1 :
  MAX_USB_HOST_CONTROLLERS <= 255 →
  seen_ok seen →
  force_hcd_device_descriptor (Some id) ok pci (table_of seen) dev
    = Some (LIBUSB_SUCCESS, table1, dev1, evs1) →
  ∃ seen1 j,
    table1 = table_of seen1 ∧ seen_ok seen1
    ∧ position (c_str id) seen1 = Some j ∧ bus_number dev1 = Z.of_nat j + 1.
Proof.
  intros Hmax Hok Hcall.
  pose proof (force_hcd_step seen id ok pci dev Hmax Hok) as Hstep.
  destruct (position (c_str id) seen) as [j|] eqn:Hpos.
  - destruct Hstep as (dev' & evs & Heq & Hbus). rewrite Heq in Hcall.
    injection Hcall as <- <- <-. exists seen, j. auto.
  - destruct (Z.ltb_spec (Z.of_nat (length seen)) MAX_USB_HOST_CONTROLLERS) as [Hlt|Hge].
    + destruct ok.
      * destruct Hstep as (dev' & evs & Heq & Hbus). rewrite Heq in Hcall.
        injection Hcall as <- <- <-. exists (seen ++ [c_str id]), (length seen).
        split; [reflexivity|]. split; [apply seen_ok_snoc; assumption|].
        split; [apply position_snoc_new; exact Hpos|exact Hbus].
      * destruct Hstep as (evs & Heq). rewrite Heq in Hcall. discriminate.
    + rewrite Hstep in Hcall. discriminate.
Qed.

(** C7.  With the controllers [seen] saved in the table, in the order in
    which they were first met: (a) the root hub of a controller met before
    gets the bus number of its position in the table plus one, and the
    table is as before; (b) the root hub of a new controller, below the
    cap, is saved behind the others and gets the next bus number; (c) at
    the cap a new controller is not saved, the device gets no bus number,
    and the initialisation of such a root hub fails; (d) once a
    controller has a bus number, every later call for it, after any other
    calls, gives the same bus number. *)
Theorem host_controller_bus_number (seen : list string) (id : string) (ok : bool)
    (pci : option (Z * Z)) (dev : libusb_device) :
  MAX_USB_HOST_CONTROLLERS <= 255 →
  seen_ok seen →
  (∀ j, position (c_str id) seen = Some j →
     ∃ dev' evs,
       force_hcd_device_descriptor (Some id) ok pci (table_of seen) dev
         = Some (LIBUSB_SUCCESS, table_of seen, dev', evs)
       ∧ bus_number dev' = Z.of_nat j + 1)
  ∧ (position (c_str id) seen = None →
     Z.of_nat (length seen) < MAX_USB_HOST_CONTROLLERS →
     ∃ dev' evs,
       force_hcd_device_descriptor (Some id) true pci (table_of seen) dev
         = Some (LIBUSB_SUCCESS, table_of (seen ++ [c_str id]), dev', evs)
       ∧ bus_number dev' = Z.of_nat (length seen) + 1
       ∧ seen_ok (seen ++ [c_str id]))
  ∧ (position (c_str id) seen = None →
     Z.of_nat (length seen) = MAX_USB_HOST_CONTROLLERS →
     (∃ evs,
        force_hcd_device_descriptor (Some id) ok pci (table_of seen) dev
          = Some (LIBUSB_ERROR_NO_DEVICE, table_of seen, dev, evs))
     ∧ (bus_number dev = 0 →
        ∀ env, env_hcd_device_id env = Some id →
          ∃ dev' evs,
            init_device sanitized env (table_of seen) dev None 0
              = Some (LIBUSB_ERROR_NOT_FOUND, table_of seen, dev', evs)
            ∧ bus_number dev' = 0))
  ∧ (∀ table1 dev1 evs1 calls table2 ok' pci' dev',
       force_hcd_device_descriptor (Some id) ok pci (table_of seen) dev
         = Some (LIBUSB_SUCCESS, table1, dev1, evs1) →
       force_hcd_all calls table1 = Some table2 →
       ∃ dev2 evs2,
         force_hcd_device_descriptor (Some id) ok' pci' table2 dev'
           = Some (LIBUSB_SUCCESS, table2, dev2, evs2)
         ∧ bus_number dev2 = bus_number dev1).
Proof.
  intros Hmax Hok. split; [|split; [|split]].
  - intros j Hpos.
    pose proof (force_hcd_step seen id ok pci dev Hmax Hok) as Hstep.
    rewrite Hpos in Hstep. exact Hstep.
  - intros Hpos Hlt.
    pose proof (force_hcd_step seen id true pci dev Hmax Hok) as Hstep.
    rewrite Hpos in Hstep.
    destruct (Z.ltb_spec (Z.of_nat (length seen)) MAX_USB_HOST_CONTROLLERS); [|lia].
    destruct Hstep as (dev' & evs & Heq & Hbus).
    exists dev', evs. split; [exact Heq|]. split; [exact Hbus|].
    apply seen_ok_snoc; assumption.
  - intros Hpos Hfull.
    assert (Hcap : ∀ ok0 pci0 dev0,
              force_hcd_device_descriptor (Some id) ok0 pci0 (table_of seen) dev0
              = Some (LIBUSB_ERROR_NO_DEVICE, table_of seen, dev0,
                      [EvLog LOG_ERR "program assertion failed: too many host controllers"])).
    { intros ok0 pci0 dev0.
      pose proof (force_hcd_step seen id ok0 pci0 dev0 Hmax Hok) as Hstep.
      rewrite Hpos in Hstep.
      destruct (Z.ltb_spec (Z.of_nat (length seen)) MAX_USB_HOST_CONTROLLERS); [lia|].
      exact Hstep. }
    split; [eauto|].
    intros Hbus env Henv. unfold init_device. cbn [Z.eqb].
    rewrite Henv, Hcap. cbn. rewrite Hbus. cbn. eauto.
  - intros table1 dev1 evs1 calls table2 ok' pci' dev' Hcall Hall.
    destruct (force_hcd_success_saved _ _ _ _ _ _ _ _ Hmax Hok Hcall)
      as (seen1 & j & -> & Hok1 & Hpos1 & Hbus1).
    destruct (force_hcd_all_grows calls Hmax seen1 table2 Hok1 Hall)
      as (seen2 & -> & Hok2 & [more ->]).
    pose proof (force_hcd_step (seen1 ++ more) id ok' pci' dev' Hmax Hok2) as Hstep.
    rewrite (position_app _ _ more _ Hpos1) in Hstep.
    destruct Hstep as (dev2 & evs2 & Heq & Hbus2).
    exists dev2, evs2. split; [exact Heq|]. lia.
Qed.

(** C6. A device whose initialisation succeeds: with port number 0 (a
    root hub) it has device address 1 and port number 0; with any other
    port number it has a parent and the bus number of that parent. *)
Theorem init_device_root_and_bus (env : init_env) (table : hc_table) (dev : libusb_device)
    (parent : option libusb_device) (port_num : Z)
    (table' : hc_table) (dev' : libusb_device) (evs : list event) :
  init_device sanitized env table dev parent port_num
    = Some (LIBUSB_SUCCESS, table', dev', evs) →
  (port_num = 0 → device_address dev' = 1 ∧ port_number dev' = 0)
  ∧ (port_num ≠ 0 → ∃ p, parent = Some p ∧ bus_number dev' = bus_number p).
Proof.
  intros Hinit.
  destruct (init_device_success _ _ _ _ _ _ _ _ Hinit)
    as [(Hport & _ & Haddr & Hpn & _)|(Hport & p & Hparent & Hbus & _)].
  - split; [auto|]. intros Hne. contradiction.
  - split; [intros Heq; contradiction|]. intros _. eauto.
Qed.


End WithHeader.

(** Two controllers saved; the root hub of the second one is met again. *)
Lemma host_controller_bus_number_witness :
  let H := Scenario.header_1_0 in
  let seen := ["PCI\VEN_8086&DEV_9CED\3&11583659&0&A0"; "PCI\VEN_8086&DEV_9CB1\3&11583659&0&E8"]%string in
  let id := "PCI\VEN_8086&DEV_9CB1\3&11583659&0&E8"%string in
  MAX_USB_HOST_CONTROLLERS <= 255
  ∧ seen_ok seen
  ∧ position (c_str id) seen = Some 1%nat
  ∧ ∃ dev' evs,
      force_hcd_device_descriptor (Some id) true None (table_of seen) Scenario.new_device
        = Some (LIBUSB_SUCCESS, table_of seen, dev', evs)
      ∧ bus_number dev' = 2.
Proof.
  intros H seen id.
  assert (Hmax : MAX_USB_HOST_CONTROLLERS <= 255) by (vm_compute; discriminate).
  assert (Hok : seen_ok seen).
  { split; [vm_compute; discriminate|]. split.
    - apply NoDup_cons. split; [|apply NoDup_singleton].
      intros Hin. apply list_elem_of_singleton in Hin. discriminate Hin.
    - repeat constructor. }
  split; [exact Hmax|]. split; [exact Hok|]. split; [reflexivity|].
  exact (proj1 (host_controller_bus_number num_configurations seen id true None
                  Scenario.new_device Hmax Hok) 1%nat eq_refl).
Defined.

(** A root hub on the first host controller seen, and a device at
    connection address 4 on port 2 of an enumerated hub. *)
Lemma init_device_root_and_bus_witness :
  let H := Scenario.header_1_0 in
  (∃ table' dev' evs,
     init_device num_configurations (Scenario.hub_answers 0) Scenario.no_controllers
       Scenario.new_device None 0 = Some (LIBUSB_SUCCESS, table', dev', evs)
     ∧ device_address dev' = 1 ∧ port_number dev' = 0 ∧ bus_number dev' = 1)
  ∧ (∃ table' dev' evs,
       init_device num_configurations (Scenario.hub_answers 4) Scenario.no_controllers
         Scenario.new_device (Some Scenario.root_hub) 2
         = Some (LIBUSB_SUCCESS, table', dev', evs)
       ∧ ∃ p, Some Scenario.root_hub = Some p ∧ bus_number dev' = bus_number p).
Proof.
  intros H. split.
  - eexists _, _, _. split; [vm_compute; reflexivity|]. repeat split.
  - eexists _, _, _. split; [vm_compute; reflexivity|].
    refine (proj2 (init_device_root_and_bus num_configurations (Scenario.hub_answers 4)
                     Scenario.no_controllers Scenario.new_device (Some Scenario.root_hub) 2
                     _ _ _ _) _).
    + vm_compute. reflexivity.
    + discriminate.
Defined.



End EnumerateFacts.

(** ** The identity hash table: primes, consistency, stable identifiers *)

Module HtabRunsFacts.
Import Ctypes Carray Cstr Htab HtabRuns CtypesFacts HtabFacts.

(** *** [isprime] *)

Section Isprime.
Variable number : Z.
Hypothesis Hrange : 5 <= number <= 65535 * 65535.
Hypothesis Hodd : Z.odd number = true.

Lemma odd_not_even_divisor k : Z.even k = true → ¬ (k | number).
Proof using Hodd.
  intros Hk [q Hq].
  rewrite Hq, Z.odd_mul, <- (Z.negb_even k), Hk in Hodd. cbn in Hodd.
  rewrite andb_false_r in Hodd. discriminate.
Qed.

Lemma isprime_loop_spec (fuel : nat) (d : Z) :
  3 <= d <= number → Z.odd d = true → d <= 65535 →
  (d = 3 ∨ (d - 2) * (d - 2) < number) →
  no_divisor_below number d →
  number - d < Z.of_nat fuel →
  ∃ d', isprime_loop fuel number d = Some d'
        ∧ 3 <= d' <= number
        ∧ (d' = 3 ∨ (d' - 2) * (d' - 2) < number)
        ∧ no_divisor_below number d'
        ∧ (number <= d' * d' ∨ number mod d' = 0).
Proof using Hrange Hodd.
  revert d. induction fuel as [|f IH]; intros d Hd Hdodd Hd16 Hprev Hno Hfuel; [lia|].
  cbn [isprime_loop].
  assert (H32 : 65535 * 65535 < 2 ^ 32) by (vm_compute; reflexivity).
  rewrite (ulong_small (d * d)) by nia.
  destruct (Z.ltb_spec (d * d) number) as [Hlt|Hge]; cbn [andb].
  - destruct (Z.eqb_spec (number mod d) 0) as [Hdiv|Hndiv]; cbn [negb].
    + exists d. repeat split; auto; lia.
    + assert (Hd2 : d + 2 <= 65535).
      { assert (d < 65535) by nia.
        destruct (Z.eq_dec d 65534) as [->|]; [discriminate|]. lia. }
      rewrite (ulong_small (d + 2)) by lia.
      apply IH.
      * nia.
      * rewrite Z.odd_add, Hdodd. reflexivity.
      * exact Hd2.
      * right. replace (d + 2 - 2) with d by lia. exact Hlt.
      * intros k Hk.
        destruct (Z.eq_dec k d) as [->|Hkd].
        { intros Hdiv. apply Hndiv. apply Z.mod_divide; [lia|exact Hdiv]. }
        destruct (Z.eq_dec k (d + 1)) as [->|Hkd1].
        { apply odd_not_even_divisor.
          rewrite Z.even_add, <- (Z.negb_odd d), Hdodd. reflexivity. }
        apply Hno. lia.
      * lia.
  - exists d. repeat split; auto; lia.
Qed.

Lemma isprime_correct :
  ∃ b, isprime number = Some b ∧ (b = true ↔ Z.prime number).
Proof using Hrange Hodd.
  unfold isprime.
  destruct (isprime_loop_spec (Z.to_nat number + 1) 3) as (d & -> & Hd & Hprev & Hno & Hexit).
  - lia.
  - reflexivity.
  - lia.
  - auto.
  - intros k Hk. assert (k = 2) as -> by lia. apply odd_not_even_divisor. reflexivity.
  - lia.
  - cbn. eexists. split; [reflexivity|].
    destruct (Z.eqb_spec (number mod d) 0) as [Hdiv|Hndiv]; cbn.
    + split; [discriminate|]. intros Hp. exfalso.
      destruct Hp as [_ Hp].
      apply (Hp d).
      * assert (d ≠ number) by nia. lia.
      * apply Z.mod_divide; [lia|exact Hdiv].
    + split; [intros _|reflexivity].
      split; [lia|].
      intros n Hn [q Hq].
      assert (Hqpos : 1 < q < number) by nia.
      destruct Hexit as [Hsq|]; [|contradiction].
      destruct (Z.le_gt_cases n q) as [Hle|Hgt].
      * assert (n <= d) by nia.
        destruct (Z.eq_dec n d) as [->|].
        { apply Hndiv. apply Z.mod_divide; [lia|]. exists q. exact Hq. }
        apply (Hno n); [lia|]. exists q. exact Hq.
      * assert (q <= d) by nia.
        destruct (Z.eq_dec q d) as [->|].
        { apply Hndiv. apply Z.mod_divide; [lia|]. exists n. lia. }
        apply (Hno q); [lia|]. exists n. lia.
Qed.

End Isprime.

Lemma lor_1 n : 0 <= n → Z.lor n 1 = if Z.odd n then n else n + 1.
Proof.
  intros Hn. destruct n as [|p|p]; [reflexivity| |lia].
  destruct p; reflexivity.
Qed.

Lemma prime_odd p : Z.prime p → 2 < p → Z.odd p = true.
Proof.
  intros [_ Hp] H2. destruct (Z.odd p) eqn:Ho; [reflexivity|]. exfalso.
  apply (Hp 2); [lia|].
  rewrite <- Z.negb_even in Ho. apply negb_false_iff, Z.even_spec in Ho.
  destruct Ho as [k Hk]. exists k. lia.
Qed.

(** The loop of [htab_create] stops at the first prime it meets. *)
Lemma next_prime_spec (p : Z) :
  Z.prime p → p <= 65535 * 65535 →
  ∀ (fuel : nat) (c : Z),
  5 <= c <= p → Z.odd c = true → p - c < 2 * Z.of_nat fuel →
  ∃ size, next_prime fuel c = Some size ∧ Z.prime size ∧ c <= size <= p.
Proof.
  intros Hp Hmax. induction fuel as [|f IH]; intros c Hc Hodd Hfuel; [lia|].
  cbn [next_prime].
  destruct (isprime_correct c ltac:(lia) Hodd) as (b & -> & Hb).
  destruct b.
  - exists c. split; [reflexivity|]. split; [apply Hb; reflexivity|lia].
  - assert (c ≠ p).
    { intros ->. destruct Hb as [_ Hb]. specialize (Hb Hp). discriminate. }
    pose proof (prime_odd p Hp ltac:(lia)) as Hpo.
    assert (c + 2 <= p).
    { destruct (Z.eq_dec p (c + 1)) as [->|]; [|lia].
      rewrite Z.odd_add, Hodd in Hpo. discriminate. }
    assert (H32 : 65535 * 65535 < 2 ^ 32) by (vm_compute; reflexivity).
    rewrite ulong_small by lia.
    destruct (IH (c + 2)) as (size & Hs & Hps & Hr).
    + lia.
    + rewrite Z.odd_add, Hodd. reflexivity.
    + lia.
    + exists size. split; [exact Hs|]. split; [exact Hps|lia].
Qed.

Lemma filter_replicate_unused (n : nat) :
  filter (λ e, used e ≠ 0) (replicate n (mk_entry 0 None)) = [].
Proof.
  induction n as [|n IH]; [reflexivity|].
  cbn [replicate]. rewrite filter_cons. cbn. destruct (decide (0 ≠ 0)); [lia|exact IH].
Qed.

Lemma used_count_replicate (n : nat) (size filled : Z) :
  used_count (mk_htab (replicate n (mk_entry 0 None)) size filled) = 0.
Proof.
  unfold used_count. cbn [htab_table].
  rewrite drop_replicate, filter_replicate_unused. reflexivity.
Qed.

Lemma prime_5 : Z.prime 5.
Proof.
  split; [lia|]. intros n Hn [q Hq].
  assert (n = 2 ∨ n = 3 ∨ n = 4) as [->|[->| ->]] by lia; lia.
Qed.

(** *** The probe sequence of a table of prime size *)

Section ProbeAll.
Variables (size hval hval2 : Z).
Hypothesis Hprime : Z.prime size.
Hypothesis Hsize : 3 <= size < 2 ^ 31.
Hypothesis Hhval : 1 <= hval <= size.
Hypothesis Hhval2 : 1 <= hval2 <= size - 1.

(** The sequence comes back to its start only after [size] steps. *)
Lemma nth_probe_back (j : Z) :
  0 <= j <= size → nth_probe size hval hval2 j = hval → j = 0 ∨ j = size.
Proof using Hprime Hsize Hhval Hhval2.
  unfold nth_probe. intros Hj Heq.
  assert (Hm : (hval - 1 - j * hval2) mod size = (hval - 1) mod size).
  { rewrite (Z.mod_small (hval - 1)) by lia. lia. }
  assert (Hdiv : (size | j * hval2)).
  { apply Z.mod_divide; [lia|].
    replace (j * hval2) with ((hval - 1) - (hval - 1 - j * hval2)) by lia.
    rewrite Zminus_mod, Hm, Z.sub_diag. apply Z.mod_0_l. lia. }
  apply Z.divide_prime_mul in Hdiv; [|exact Hprime].
  destruct Hdiv as [[q Hq]|[q Hq]].
  - assert (q = 0 ∨ q = 1) as [->| ->] by nia; lia.
  - assert (q <= 0 ∨ 1 <= q) as [|] by lia; nia.
Qed.

(** Every index from 1 to [size] is on the sequence. *)
Lemma nth_probe_onto (i : Z) :
  1 <= i <= size → ∃ j, 0 <= j < size ∧ nth_probe size hval hval2 j = i.
Proof using Hprime Hsize Hhval Hhval2.
  intros Hi.
  assert (Hcop : Z.coprime size hval2).
  { apply Z.coprime_prime_l; [exact Hprime|]. intros [q Hq].
    assert (q <= 0 ∨ 1 <= q) as [|] by lia; nia. }
  destruct (Z.Bezout_coprime _ _ Hcop) as (a & b & Hab).
  set (X := (hval - i) * b).
  exists (X mod size). split; [apply Z.mod_pos_bound; lia|].
  unfold nth_probe.
  rewrite <- (Z.mod_unique (hval - 1 - X mod size * hval2) size
                ((X / size) * hval2 + (hval - i) * a) (i - 1)); [lia|left; lia|].
  rewrite (Z.mod_eq X size) by lia.
  assert (E : (hval - i) * (b * hval2) = (hval - i) * (1 - a * size)).
  { f_equal. lia. }
  unfold X. lia.
Qed.

Variables (t : htab) (s : string).
Hypothesis Ht_size : htab_size t = size.

(** When the loop hands out an index, either the entry there is unused, or
    the loop has gone through every other index of the sequence and found
    it in use. *)
Lemma probe_break (fuel : nat) :
  ∀ (k i : Z), 0 <= k < size →
  probe fuel t s hval hval2 (nth_probe size hval hval2 k) = Some (NewEntry i) →
  (∃ e, htab_table t !! Z.to_nat i = Some e ∧ used e = 0)
  ∨ (∀ j, k < j < size →
       ∃ e, htab_table t !! Z.to_nat (nth_probe size hval hval2 j) = Some e ∧ used e ≠ 0).
Proof using Hprime Hsize Hhval Hhval2 Ht_size.
  induction fuel as [|f IH]; intros k i Hk; [discriminate|].
  cbn [probe]. rewrite Ht_size, nth_probe_step by assumption.
  destruct (Z.eqb_spec (nth_probe size hval hval2 (k + 1)) hval) as [Heq|Hne].
  - intros _. right. intros j Hj.
    destruct (nth_probe_back (k + 1) ltac:(lia) Heq); lia.
  - destruct (htab_table t !! Z.to_nat (nth_probe size hval hval2 (k + 1)))
      as [e|] eqn:He; [|discriminate].
    cbn.
    destruct (entry_matches e hval s); [discriminate|].
    destruct (Z.eqb_spec (used e) 0) as [Hu|Hu].
    + intros [= <-]. left. eauto.
    + intros Hp.
      assert (k + 1 < size).
      { destruct (Z.eq_dec (k + 1) size) as [E|]; [|lia].
        exfalso. apply Hne. rewrite E. apply nth_probe_cycle; assumption. }
      destruct (IH (k + 1) i ltac:(lia) Hp) as [?|Hall]; [left; assumption|].
      right. intros j Hj.
      destruct (Z.eq_dec j (k + 1)) as [->|]; [eauto|apply Hall; lia].
Qed.

End ProbeAll.

(** *** Counting the entries in use *)

Lemma filter_all {A : Type} (P : A → Prop) `{∀ x, Decision (P x)} (l : list A) :
  Forall P l → filter P l = l.
Proof.
  induction 1 as [|x l Hx _ IH]; [reflexivity|].
  rewrite filter_cons_True by exact Hx. f_equal. exact IH.
Qed.

Lemma length_filter_insert {A : Type} (P : A → Prop) `{∀ x, Decision (P x)}
    (l : list A) (n : nat) (e x : A) :
  l !! n = Some e → ¬ P e →
  length (filter P (<[n := x]> l))
  = (length (filter P l) + if decide (P x) then 1 else 0)%nat.
Proof.
  revert n. induction l as [|a l IH]; intros n; [discriminate|].
  destruct n as [|n]; simpl.
  - intros [= ->] He. rewrite !filter_cons.
    destruct (decide (P e)); [contradiction|].
    destruct (decide (P x)); simpl; lia.
  - intros Hl He. rewrite !filter_cons.
    destruct (decide (P a)); simpl; rewrite (IH n Hl He); lia.
Qed.

Lemma all_used_count (t : htab) :
  htab_wf t →
  (∀ i, 1 <= i <= htab_size t →
     ∃ e, htab_table t !! Z.to_nat i = Some e ∧ used e ≠ 0) →
  used_count t = htab_size t.
Proof.
  intros [Hs Hl] Hall. unfold used_count.
  rewrite filter_all.
  - rewrite length_drop, Hl. lia.
  - apply Forall_lookup. intros n e. rewrite lookup_drop. intros He.
    pose proof (lookup_lt_Some _ _ _ He) as Hn. rewrite Hl in Hn.
    destruct (Hall (Z.of_nat (1 + n)) ltac:(lia)) as (e' & He' & Hu).
    rewrite Nat2Z.id in He'. congruence.
Qed.

Lemma used_count_insert (t : htab) (i : Z) (e x : htab_entry) (size filled : Z) :
  1 <= i → htab_table t !! Z.to_nat i = Some e → used e = 0 →
  used_count (mk_htab (<[Z.to_nat i := x]> (htab_table t)) size filled)
  = used_count t + if decide (used x ≠ 0) then 1 else 0.
Proof.
  intros Hi He Hu. unfold used_count. cbn [htab_table].
  rewrite drop_insert_ge by lia.
  rewrite (length_filter_insert _ _ _ e).
  - destruct (decide (used x ≠ 0)); lia.
  - rewrite lookup_drop. rewrite <- He. f_equal. lia.
  - lia.
Qed.

(** *** The search and the insertion on a consistent table *)

(** In a table that is not full the index handed to the insertion code is
    that of an unused entry: the loop never comes round to its start. *)
Lemma htab_search_new_unused (t : htab) (s : string) (i : Z) :
  htab_consistent t → htab_filled t < htab_size t →
  htab_search t s = Some (NewEntry i) →
  ∃ e, htab_table t !! Z.to_nat i = Some e ∧ used e = 0.
Proof.
  intros (Hwf & Hprime & Hfilled) Hfull.
  pose proof Hwf as [Hsize Hlen].
  unfold htab_search.
  destruct (Z.eqb_spec (htab_size t) 0) as [|_]; [lia|].
  pose proof (table_hash_range (htab_size t) s ltac:(lia)) as Hh.
  destruct (second_hash_range (htab_size t) (table_hash (htab_size t) s) Hsize ltac:(lia))
    as [Hm Hh2].
  set (hval := table_hash (htab_size t) s) in *.
  destruct (htab_table t !! Z.to_nat hval) as [e|] eqn:He; [|discriminate].
  cbn.
  destruct (Z.eqb_spec (used e) 0) as [Hu|Hu].
  { intros [= <-]. eauto. }
  destruct (entry_matches e hval s); [discriminate|].
  rewrite Hm. destruct (Z.eqb_spec (htab_size t - 2) 0) as [|_]; [lia|].
  set (hval2 := ulong (1 + hval mod (htab_size t - 2))) in *.
  intros Hp.
  pose proof (probe_break (htab_size t) hval hval2 Hprime Hsize ltac:(lia) ltac:(lia)
                t s eq_refl (Z.to_nat (htab_size t)) 0 i ltac:(lia)) as Hbreak.
  rewrite nth_probe_0 in Hbreak by lia.
  destruct (Hbreak Hp) as [Hunused|Hall]; [exact Hunused|].
  exfalso.
  assert (used_count t = htab_size t); [|lia].
  apply all_used_count; [exact Hwf|].
  intros j Hj.
  destruct (nth_probe_onto (htab_size t) hval hval2 Hprime Hsize ltac:(lia) ltac:(lia) j Hj)
    as (k & Hk & <-).
  destruct (Z.eq_dec k 0) as [->|].
  - rewrite nth_probe_0 by lia. eauto.
  - apply Hall. lia.
Qed.

Lemma keeps_used_refl (t : htab) : keeps_used t t.
Proof. split; auto. Qed.

Lemma keeps_used_trans (t1 t2 t3 : htab) :
  keeps_used t1 t2 → keeps_used t2 t3 → keeps_used t1 t3.
Proof.
  intros [Hs1 H1] [Hs2 H2]. split; [congruence|].
  intros i e He Hu. apply H2; [apply H1|]; assumption.
Qed.

Lemma keeps_used_insert (t : htab) (i : Z) (e x : htab_entry) (filled : Z) :
  htab_table t !! Z.to_nat i = Some e → used e = 0 →
  keeps_used t (mk_htab (<[Z.to_nat i := x]> (htab_table t)) (htab_size t) filled).
Proof.
  intros He Hu. split; [reflexivity|].
  intros j e' He' Hu'. cbn [htab_table].
  destruct (decide (j = Z.to_nat i)) as [->|Hne].
  - congruence.
  - rewrite list_lookup_insert_ne by congruence. exact He'.
Qed.

(** What one call of [htab_hash] does to a consistent table. *)
Lemma htab_hash_step (alloc_ok : bool) (t : htab) (s : option string) :
  htab_consistent t →
  ∃ (id : Z) (t1 : htab),
    htab_hash alloc_ok t s = Some (id, t1)
    ∧ htab_consistent t1 ∧ keeps_used t t1
    ∧ 0 <= id <= htab_size t
    ∧ (htab_filled t1 = htab_filled t
       ∨ (id ≠ 0 ∧ htab_filled t1 = htab_filled t + 1)).
Proof.
  intros Hc. pose proof Hc as (Hwf & Hprime & Hfilled).
  pose proof Hwf as [Hsize Hlen].
  assert (Hsame : ∀ id, 0 <= id <= htab_size t →
            ∃ (id' : Z) (t1 : htab),
              Some (id, t) = Some (id', t1)
              ∧ htab_consistent t1 ∧ keeps_used t t1
              ∧ 0 <= id' <= htab_size t
              ∧ (htab_filled t1 = htab_filled t
                 ∨ (id' ≠ 0 ∧ htab_filled t1 = htab_filled t + 1))).
  { intros id Hid. exists id, t. split; [reflexivity|]. split; [exact Hc|].
    split; [apply keeps_used_refl|]. split; [lia|]. left. reflexivity. }
  unfold htab_hash. destruct s as [s|]; [|apply Hsame; lia].
  destruct (htab_search_total t s Hwf) as [r Hr].
  pose proof (htab_search_range t s r Hwf Hr) as Hrange.
  rewrite Hr. cbn.
  destruct r as [idx|idx]; cbn in Hrange; [apply Hsame; lia|].
  destruct (Z.leb_spec (htab_size t) (htab_filled t)) as [|Hroom]; [apply Hsame; lia|].
  destruct (htab_search_new_unused t s idx Hc Hroom Hr) as (e & He & Hu).
  rewrite in_bounds_true by lia.
  pose proof (table_hash_range (htab_size t) s ltac:(lia)) as Hh.
  assert (H32 : 2 ^ 31 < 2 ^ 32) by (vm_compute; reflexivity).
  assert (Hcount : 0 <= used_count t <= htab_size t).
  { unfold used_count.
    pose proof (length_filter (λ e, used e ≠ 0) (drop 1 (htab_table t))) as Hf.
    rewrite length_drop, Hlen in Hf. lia. }
  destruct alloc_ok; eexists _, _; (split; [reflexivity|]).
  - split; [|split; [|split; [lia|]]].
    + split; [|split]; cbn [htab_size htab_table htab_filled].
      * split; cbn [htab_size htab_table]; [exact Hsize|].
        rewrite length_insert. exact Hlen.
      * exact Hprime.
      * rewrite (used_count_insert t idx e _ _ _ ltac:(lia) He Hu). cbn [used].
        rewrite ulong_small by lia.
        destruct (decide (table_hash (htab_size t) s ≠ 0)); lia.
    + eapply keeps_used_insert; eassumption.
    + right. split; [lia|]. cbn [htab_filled]. apply ulong_small. lia.
  - split; [|split; [|split; [lia|]]].
    + split; [|split]; cbn [htab_size htab_table htab_filled].
      * split; cbn [htab_size htab_table]; [exact Hsize|].
        rewrite length_insert. exact Hlen.
      * exact Hprime.
      * rewrite (used_count_insert t idx e _ _ _ ltac:(lia) He Hu). cbn [used].
        destruct (decide (0 ≠ 0)); lia.
    + eapply keeps_used_insert; eassumption.
    + left. reflexivity.
Qed.

(** A string that the search finds is found at the same index as long as
    the entries in use are kept. *)
Lemma probe_keeps (fuel : nat) (t t' : htab) (s : string) (hval hval2 : Z) :
  keeps_used t t' → hval ≠ 0 →
  ∀ (idx i : Z),
  probe fuel t s hval hval2 idx = Some (Existing i) →
  probe fuel t' s hval hval2 idx = Some (Existing i).
Proof.
  intros [Hs Hk] Hh. induction fuel as [|f IH]; intros idx i; [discriminate|].
  cbn [probe]. rewrite Hs.
  destruct (probe_step (htab_size t) hval2 idx =? hval); [discriminate|].
  destruct (htab_table t !! Z.to_nat (probe_step (htab_size t) hval2 idx))
    as [e|] eqn:He; [|discriminate].
  cbn.
  destruct (Z.eqb_spec (used e) 0) as [Hu|Hu].
  { rewrite (entry_matches_unused e hval s Hh Hu). discriminate. }
  rewrite (Hk _ _ He Hu). cbn.
  destruct (entry_matches e hval s); [auto|].
  destruct (Z.eqb_spec (used e) 0) as [|_]; [contradiction|].
  apply IH.
Qed.

Lemma htab_search_keeps (t t' : htab) (s : string) (i : Z) :
  htab_wf t → keeps_used t t' →
  htab_search t s = Some (Existing i) → htab_search t' s = Some (Existing i).
Proof.
  intros [Hsize Hlen] Hk. pose proof Hk as [Hs Hkeep].
  unfold htab_search. rewrite Hs.
  destruct (Z.eqb_spec (htab_size t) 0) as [|_]; [lia|].
  pose proof (table_hash_range (htab_size t) s ltac:(lia)) as Hh.
  set (hval := table_hash (htab_size t) s) in *.
  destruct (htab_table t !! Z.to_nat hval) as [e|] eqn:He; [|discriminate].
  cbn.
  destruct (Z.eqb_spec (used e) 0) as [Hu|Hu]; [discriminate|].
  rewrite (Hkeep _ _ He Hu). cbn.
  destruct (Z.eqb_spec (used e) 0) as [|_]; [contradiction|].
  destruct (entry_matches e hval s); [auto|].
  destruct (ulong (htab_size t - 2) =? 0); [discriminate|].
  apply probe_keeps; [exact Hk|lia].
Qed.

(** The entry at the index the search returns holds the string. *)
Lemma probe_existing_matches (fuel : nat) (t : htab) (s : string) (hval hval2 : Z) :
  ∀ (idx i : Z),
  probe fuel t s hval hval2 idx = Some (Existing i) →
  ∃ e, htab_table t !! Z.to_nat i = Some e ∧ entry_matches e hval s = true.
Proof.
  induction fuel as [|f IH]; intros idx i; [discriminate|].
  cbn [probe].
  destruct (probe_step (htab_size t) hval2 idx =? hval); [discriminate|].
  destruct (htab_table t !! Z.to_nat (probe_step (htab_size t) hval2 idx))
    as [e|] eqn:He; [|discriminate].
  cbn.
  destruct (entry_matches e hval s) eqn:Hm.
  { intros [= <-]. eauto. }
  destruct (used e =? 0); [discriminate|].
  apply IH.
Qed.

Lemma htab_search_existing_matches (t : htab) (s : string) (i : Z) :
  htab_search t s = Some (Existing i) →
  ∃ e, htab_table t !! Z.to_nat i = Some e
       ∧ entry_matches e (table_hash (htab_size t) s) s = true.
Proof.
  unfold htab_search.
  destruct (htab_size t =? 0); [discriminate|].
  set (hval := table_hash (htab_size t) s) in *.
  destruct (htab_table t !! Z.to_nat hval) as [e|] eqn:He; [|discriminate].
  cbn.
  destruct (used e =? 0); [discriminate|].
  destruct (entry_matches e hval s) eqn:Hm.
  { intros [= <-]. eauto. }
  destruct (ulong (htab_size t - 2) =? 0); [discriminate|].
  apply probe_existing_matches.
Qed.

(** A non-zero identifier is the index at which the search finds the
    string afterwards. *)
Lemma htab_hash_found (alloc_ok : bool) (t : htab) (s : string) (id : Z) (t1 : htab) :
  htab_wf t →
  htab_hash alloc_ok t (Some s) = Some (id, t1) → id ≠ 0 →
  htab_search t1 s = Some (Existing id).
Proof.
  intros Hwf. unfold htab_hash.
  destruct (htab_search t s) as [[idx|idx]|] eqn:Hr; cbn; [| |discriminate].
  { intros [= <- <-] _. exact Hr. }
  destruct (htab_size t <=? htab_filled t). { intros [= <- <-]. contradiction. }
  destruct (in_bounds (htab_table t) idx); [|discriminate].
  destruct alloc_ok.
  - intros [= <- <-] _. apply htab_search_after_insert; assumption.
  - intros [= <- <-]. contradiction.
Qed.

Lemma htab_hash_of_search (alloc_ok : bool) (t : htab) (s : string) (i : Z) :
  htab_search t s = Some (Existing i) → htab_hash alloc_ok t (Some s) = Some (i, t).
Proof. intros Hr. unfold htab_hash. rewrite Hr. reflexivity. Qed.

Lemma htab_hash_all_step (calls : list (bool * option string)) :
  ∀ t, htab_consistent t →
  ∃ t2, htab_hash_all calls t = Some t2 ∧ htab_consistent t2 ∧ keeps_used t t2.
Proof.
  induction calls as [|[ok s] rest IH]; intros t Hc.
  - exists t. split; [reflexivity|]. split; [exact Hc|apply keeps_used_refl].
  - cbn [htab_hash_all].
    destruct (htab_hash_step ok t s Hc) as (id & t1 & -> & Hc1 & Hk1 & _).
    cbn. destruct (IH t1 Hc1) as (t2 & -> & Hc2 & Hk2).
    exists t2. split; [reflexivity|]. split; [exact Hc2|].
    eapply keeps_used_trans; eassumption.
Qed.

Lemma prime_1021 : Z.prime 1021.
Proof.
  destruct (isprime_correct 1021 ltac:(lia) eq_refl) as (b & Hb & Hiff).
  apply Hiff. assert (Hc : isprime 1021 = Some true) by (vm_compute; reflexivity).
  congruence.
Qed.

Lemma empty_table_consistent (size : Z) :
  3 <= size < 2 ^ 31 → Z.prime size →
  htab_consistent (mk_htab (replicate (Z.to_nat (size + 1)) (mk_entry 0 None)) size 0).
Proof.
  intros Hs Hp. split; [|split]; cbn [htab_size htab_table htab_filled].
  - split; cbn [htab_size htab_table]; [exact Hs|]. apply length_replicate.
  - exact Hp.
  - symmetry. apply used_count_replicate.
Qed.

(** X1. [isprime] is a correct primality test for the odd numbers from 5
    up to 65535 squared, the range in which [divider * divider] does not
    wrap around; it takes 3 for composite and 1 for prime. *)
Theorem isprime_spec (number : Z) :
  5 <= number <= 65535 * 65535 → Z.odd number = true →
  (∃ b, isprime number = Some b ∧ (b = true ↔ Z.prime number))
  ∧ isprime 3 = Some false ∧ isprime 1 = Some true.
Proof.
  intros Hr Ho. split; [apply isprime_correct; assumption|].
  split; vm_compute; reflexivity.
Qed.

Lemma isprime_spec_witness :
  5 <= 1021 <= 65535 * 65535 ∧ Z.odd 1021 = true
  ∧ isprime 1021 = Some true ∧ Z.prime 1021.
Proof.
  assert (Hr : 5 <= 1021 <= 65535 * 65535) by lia.
  split; [exact Hr|]. split; [reflexivity|].
  destruct (isprime_spec 1021 Hr eq_refl) as [(b & Hb & Hiff) _].
  assert (Hc : isprime 1021 = Some true) by (vm_compute; reflexivity).
  split; [exact Hc|]. apply Hiff. congruence.
Defined.

(** X2. [htab_create] for [nel] from 4 on makes an empty table whose size
    is the least prime not smaller than [nel], with one entry more than
    the size; when the allocation fails it reports failure.  A prime
    between [nel] and [3 * nel] (there is always one) bounds the search. *)
Theorem htab_create_prime (nel p : Z) :
  4 <= nel → Z.prime p → nel <= p <= 3 * nel → p < 2 ^ 31 →
  htab_create false nel = Some None
  ∧ ∃ t, htab_create true nel = Some (Some t)
         ∧ Z.prime (htab_size t) ∧ nel <= htab_size t <= p
         ∧ htab_table t = replicate (Z.to_nat (htab_size t + 1)) (mk_entry 0 None)
         ∧ htab_filled t = 0
         ∧ htab_consistent t.
Proof.
  intros Hnel Hp Hrange Hmax.
  assert (H31 : 2 ^ 31 <= 65535 * 65535) by (vm_compute; discriminate).
  pose proof (prime_odd p Hp ltac:(lia)) as Hpo.
  assert (Hc0 : 5 <= Z.lor nel 1 <= p ∧ Z.odd (Z.lor nel 1) = true ∧ nel <= Z.lor nel 1).
  { rewrite lor_1 by lia. destruct (Z.odd nel) eqn:Ho.
    - split; [|split]; [|exact Ho|lia].
      destruct (Z.eq_dec nel 4) as [->|]; [discriminate|lia].
    - split; [|split]; [| |lia].
      + destruct (Z.eq_dec p nel) as [->|]; [congruence|lia].
      + rewrite Z.odd_add, Ho. reflexivity. }
  destruct Hc0 as (Hc0 & Hc0odd & Hc0nel).
  destruct (next_prime_spec p Hp ltac:(lia) (Z.to_nat nel + 2) (Z.lor nel 1) Hc0 Hc0odd
              ltac:(lia)) as (size & Hsize & Hprime & Hbounds).
  unfold htab_create. rewrite Hsize. cbn.
  split; [reflexivity|].
  eexists. split; [reflexivity|]. cbn [htab_size htab_table htab_filled].
  split; [exact Hprime|]. split; [lia|]. split; [reflexivity|]. split; [reflexivity|].
  apply empty_table_consistent; [lia|exact Hprime].
Qed.

Lemma htab_create_prime_witness :
  4 <= 1021 ∧ Z.prime 1021 ∧ 1021 <= 1021 <= 3 * 1021 ∧ 1021 < 2 ^ 31
  ∧ ∃ t, htab_create true 1021 = Some (Some t)
         ∧ htab_size t = 1021 ∧ htab_filled t = 0 ∧ htab_consistent t.
Proof.
  assert (H31 : 1021 < 2 ^ 31) by (vm_compute; reflexivity).
  split; [lia|]. split; [exact prime_1021|]. split; [lia|]. split; [exact H31|].
  destruct (htab_create_prime 1021 1021 ltac:(lia) prime_1021 ltac:(lia) H31)
    as (_ & t & Ht & _ & Hs & _ & Hf & Hc).
  exists t. split; [exact Ht|]. split; [lia|]. split; [exact Hf|exact Hc].
Defined.

(** X3. On a consistent table (a prime size, [htab_filled] equal to the
    number of entries in use) [htab_hash] always returns: an identifier
    between 0 and the size and a table that is consistent again;
    [htab_filled] stays as it is or, when a new identifier is handed out,
    grows by one, and never exceeds the size. *)
Theorem htab_hash_consistent (alloc_ok : bool) (t : htab) (s : option string) :
  htab_consistent t →
  ∃ (id : Z) (t1 : htab),
    htab_hash alloc_ok t s = Some (id, t1)
    ∧ htab_consistent t1
    ∧ htab_size t1 = htab_size t
    ∧ 0 <= id <= htab_size t
    ∧ (htab_filled t1 = htab_filled t
       ∨ (id ≠ 0 ∧ htab_filled t1 = htab_filled t + 1))
    ∧ htab_filled t1 <= htab_size t1.
Proof.
  intros Hc.
  destruct (htab_hash_step alloc_ok t s Hc) as (id & t1 & Hh & Hc1 & [Hs _] & Hid & Hf).
  exists id, t1. split; [exact Hh|]. split; [exact Hc1|]. split; [exact Hs|].
  split; [exact Hid|]. split; [exact Hf|].
  destruct Hc1 as ([_ Hlen] & _ & ->). unfold used_count.
  pose proof (length_filter (λ e, used e ≠ 0) (drop 1 (htab_table t1))) as Hle.
  rewrite length_drop, Hlen in Hle. lia.
Qed.

Lemma htab_hash_consistent_witness :
  let t := mk_htab (replicate 6 (mk_entry 0 None)) 5 0 in
  htab_consistent t
  ∧ ∃ (id : Z) (t1 : htab),
      htab_hash true t (Some "USB\VID_046D&PID_C52B\5&1A2B3C&0&2"%string) = Some (id, t1)
      ∧ htab_consistent t1 ∧ id ≠ 0 ∧ htab_filled t1 = 1.
Proof.
  assert (Hc : htab_consistent (mk_htab (replicate 6 (mk_entry 0 None)) 5 0)).
  { apply (empty_table_consistent 5); [split; [lia|vm_compute; reflexivity]|exact prime_5]. }
  split; [exact Hc|].
  destruct (htab_hash_consistent true _ (Some "USB\VID_046D&PID_C52B\5&1A2B3C&0&2"%string) Hc)
    as (id & t1 & Hh & Hc1 & _).
  exists id, t1. split; [exact Hh|]. split; [exact Hc1|].
  vm_compute in Hh. injection Hh as <- <-. split; [discriminate|reflexivity].
Defined.

(** X4. [htab_hash] never overwrites: on a consistent table every entry
    in use is the same entry at the same index after the call, whatever
    string is hashed and whether or not the allocation succeeds. *)
Theorem htab_hash_keeps_entries (alloc_ok : bool) (t : htab) (s : option string)
    (id : Z) (t1 : htab) (i : nat) (e : htab_entry) :
  htab_consistent t →
  htab_hash alloc_ok t s = Some (id, t1) →
  htab_table t !! i = Some e → used e ≠ 0 →
  htab_table t1 !! i = Some e.
Proof.
  intros Hc Hh He Hu.
  destruct (htab_hash_step alloc_ok t s Hc) as (id' & t1' & Hh' & _ & [_ Hk] & _).
  rewrite Hh in Hh'. injection Hh' as -> ->. exact (Hk i e He Hu).
Qed.

Lemma table_5_two_consistent : htab_consistent HtabScenario.table_5_two.
Proof.
  split; [|split].
  - split; [cbn; split; [lia|vm_compute; reflexivity]|reflexivity].
  - exact prime_5.
  - vm_compute. reflexivity.
Qed.

Lemma htab_hash_keeps_entries_witness :
  let t := HtabScenario.table_5_two in
  let e := mk_entry 1 (Some HtabScenario.id_receiver) in
  htab_consistent t
  ∧ htab_table t !! 1%nat = Some e ∧ used e ≠ 0
  ∧ ∃ t1, htab_hash true t (Some HtabScenario.id_mouse) = Some (2, t1)
          ∧ table_hash 5 HtabScenario.id_mouse = used e
          ∧ htab_table t1 !! 1%nat = Some e.
Proof.
  cbn zeta.
  split; [exact table_5_two_consistent|]. split; [reflexivity|]. split; [discriminate|].
  eexists. split; [vm_compute; reflexivity|]. split; [vm_compute; reflexivity|].
  apply (htab_hash_keeps_entries true HtabScenario.table_5_two (Some HtabScenario.id_mouse)
           2 _ 1%nat _ table_5_two_consistent).
  - vm_compute. reflexivity.
  - reflexivity.
  - discriminate.
Defined.

(** X5. When the table is full, [htab_hash] changes nothing: a string that
    is in the table gets its identifier, every other string gets 0. *)
Theorem htab_hash_full (alloc_ok : bool) (t : htab) (s : string) :
  htab_wf t → htab_size t <= htab_filled t →
  ∃ id, htab_hash alloc_ok t (Some s) = Some (id, t)
        ∧ (id ≠ 0 → htab_search t s = Some (Existing id))
        ∧ (id = 0 → ∀ i, htab_search t s ≠ Some (Existing i)).
Proof.
  intros Hwf Hfull.
  destruct (htab_search_total t s Hwf) as [r Hr].
  pose proof (htab_search_range t s r Hwf Hr) as Hrange.
  unfold htab_hash. rewrite Hr. cbn.
  destruct r as [idx|idx]; cbn in Hrange.
  - exists idx. split; [reflexivity|]. split; [auto|]. lia.
  - destruct (Z.leb_spec (htab_size t) (htab_filled t)) as [_|]; [|lia].
    exists 0. split; [reflexivity|]. split; [congruence|]. intros _ i. discriminate.
Qed.

Lemma htab_hash_full_witness :
  let t := HtabScenario.table_5_full in
  htab_wf t ∧ htab_size t <= htab_filled t
  ∧ htab_hash true t (Some HtabScenario.id_mouse) = Some (0, t)
  ∧ htab_hash true t (Some HtabScenario.id_root_hub) = Some (4, t).
Proof.
  cbn zeta.
  assert (Hwf : htab_wf HtabScenario.table_5_full).
  { split; [cbn; split; [lia|vm_compute; reflexivity]|reflexivity]. }
  assert (Hfull : htab_size HtabScenario.table_5_full <= htab_filled HtabScenario.table_5_full).
  { cbn. lia. }
  split; [exact Hwf|]. split; [exact Hfull|]. split.
  - destruct (htab_hash_full true _ HtabScenario.id_mouse Hwf Hfull) as (id & Hh & _).
    rewrite Hh. vm_compute in Hh. injection Hh as <-. reflexivity.
  - destruct (htab_hash_full true _ HtabScenario.id_root_hub Hwf Hfull) as (id & Hh & _).
    rewrite Hh. vm_compute in Hh. injection Hh as <-. reflexivity.
Defined.

(** X6. An identifier is stable: once [htab_hash] has returned a non-zero
    identifier for a string, every later call for that string returns the
    same identifier and leaves the table alone, whatever strings were
    hashed in between and whatever the allocator did. *)
Theorem htab_hash_stable (alloc_ok : bool) (t : htab) (s : string) (id : Z) (t1 : htab)
    (calls : list (bool * option string)) :
  htab_consistent t →
  htab_hash alloc_ok t (Some s) = Some (id, t1) → id ≠ 0 →
  ∃ t2, htab_hash_all calls t1 = Some t2
        ∧ ∀ alloc_ok' : bool, htab_hash alloc_ok' t2 (Some s) = Some (id, t2).
Proof.
  intros Hc Hh Hid.
  pose proof Hc as (Hwf & _).
  pose proof (htab_hash_found _ _ _ _ _ Hwf Hh Hid) as Hfound.
  destruct (htab_hash_step alloc_ok t (Some s) Hc) as (id' & t1' & Hh' & Hc1 & _).
  rewrite Hh in Hh'. injection Hh' as <- <-.
  destruct (htab_hash_all_step calls t1 Hc1) as (t2 & Hall & Hc2 & Hk).
  exists t2. split; [exact Hall|]. intros ok'.
  apply htab_hash_of_search.
  destruct Hc1 as (Hwf1 & _).
  eapply htab_search_keeps; eassumption.
Qed.

Lemma table_5_consistent : htab_consistent HtabScenario.table_5.
Proof.
  apply (empty_table_consistent 5); [split; [lia|vm_compute; reflexivity]|exact prime_5].
Qed.

Lemma htab_hash_stable_witness :
  let calls := HtabScenario.hashed
                 [HtabScenario.id_root_hub; HtabScenario.id_vendor;
                  HtabScenario.id_controller; HtabScenario.id_stick;
                  HtabScenario.id_mouse] in
  htab_consistent HtabScenario.table_5
  ∧ ∃ t1, htab_hash true HtabScenario.table_5 (Some HtabScenario.id_receiver) = Some (1, t1)
          ∧ 1 ≠ 0
          ∧ htab_hash_all calls t1 = Some HtabScenario.table_5_full
          ∧ htab_hash false HtabScenario.table_5_full (Some HtabScenario.id_receiver)
            = Some (1, HtabScenario.table_5_full).
Proof.
  cbn zeta. split; [exact table_5_consistent|].
  eexists. split; [vm_compute; reflexivity|]. split; [discriminate|].
  match goal with
  | |- htab_hash_all ?calls ?t1 = _ ∧ _ =>
      destruct (htab_hash_stable true HtabScenario.table_5 HtabScenario.id_receiver 1 t1 calls
                  table_5_consistent ltac:(vm_compute; reflexivity) ltac:(discriminate))
        as (t2 & Hall & Hsame)
  end.
  assert (Ht2 : t2 = HtabScenario.table_5_full).
  { vm_compute in Hall. injection Hall as <-. reflexivity. }
  rewrite Ht2 in Hall, Hsame. split; [exact Hall|apply Hsame].
Defined.

(** X7. Identifiers tell strings apart: when a string has been given a
    non-zero identifier and, after any further calls, another string is
    given the same identifier, the two are the same C string. *)
Theorem htab_hash_injective (ok1 ok2 : bool) (t t1 t2 t3 : htab) (s1 s2 : string) (id : Z)
    (calls : list (bool * option string)) :
  htab_consistent t →
  htab_hash ok1 t (Some s1) = Some (id, t1) → id ≠ 0 →
  htab_hash_all calls t1 = Some t2 →
  htab_hash ok2 t2 (Some s2) = Some (id, t3) →
  c_str s1 = c_str s2.
Proof.
  intros Hc Hh1 Hid Hall Hh2.
  pose proof Hc as (Hwf & _).
  pose proof (htab_hash_found _ _ _ _ _ Hwf Hh1 Hid) as Hfound1.
  destruct (htab_hash_step ok1 t (Some s1) Hc) as (id' & t1' & Hh' & Hc1 & _).
  rewrite Hh1 in Hh'. injection Hh' as <- <-.
  destruct (htab_hash_all_step calls t1 Hc1) as (t2' & Hall' & Hc2 & Hk).
  rewrite Hall in Hall'. injection Hall' as <-.
  destruct Hc1 as (Hwf1 & _).
  pose proof (htab_search_keeps _ _ _ _ Hwf1 Hk Hfound1) as Hfound2.
  destruct (htab_search_existing_matches _ _ _ Hfound2) as (e & He & Hm1).
  assert (Hused : used e ≠ 0).
  { unfold entry_matches in Hm1. apply andb_prop in Hm1 as [Hu _].
    apply Z.eqb_eq in Hu. rewrite Hu. destruct Hc2 as ([Hsize _] & _).
    pose proof (table_hash_range (htab_size t2) s1 ltac:(lia)). lia. }
  assert (Hm2 : entry_matches e (table_hash (htab_size t2) s2) s2 = true).
  { revert Hh2. unfold htab_hash.
    destruct (htab_search t2 s2) as [[idx|idx]|] eqn:Hr; cbn; [| |discriminate].
    - intros [= -> _].
      destruct (htab_search_existing_matches _ _ _ Hr) as (e' & He' & Hm').
      congruence.
    - destruct (Z.leb_spec (htab_size t2) (htab_filled t2)) as [|Hroom].
      { intros [= <- _]. contradiction. }
      destruct (htab_search_new_unused t2 s2 idx Hc2 Hroom Hr) as (e' & He' & Hu').
      destruct (in_bounds (htab_table t2) idx); [|discriminate].
      destruct ok2; intros [= <- _]; [congruence|contradiction]. }
  unfold entry_matches, safe_strcmp_eq in Hm1, Hm2.
  apply andb_prop in Hm1 as [_ Hm1]. apply andb_prop in Hm2 as [_ Hm2].
  apply strcmp_eq_spec in Hm1, Hm2. cbn in Hm1, Hm2. congruence.
Qed.

Lemma htab_hash_injective_witness :
  let calls := HtabScenario.hashed [HtabScenario.id_root_hub; HtabScenario.id_vendor] in
  htab_consistent HtabScenario.table_5
  ∧ ∃ t1 t2,
      htab_hash true HtabScenario.table_5 (Some HtabScenario.id_receiver) = Some (1, t1)
      ∧ 1 ≠ 0
      ∧ htab_hash_all calls t1 = Some t2
      ∧ htab_hash true t2 (Some HtabScenario.id_receiver_buffer) = Some (1, t2)
      ∧ HtabScenario.id_receiver ≠ HtabScenario.id_receiver_buffer
      ∧ c_str HtabScenario.id_receiver = c_str HtabScenario.id_receiver_buffer.
Proof.
  cbn zeta. split; [exact table_5_consistent|].
  eexists _, _. split; [vm_compute; reflexivity|]. split; [discriminate|].
  split; [vm_compute; reflexivity|].
  assert (Hh2 : ∀ t2 : htab,
            t2 = mk_htab [mk_entry 0 None; mk_entry 1 (Some HtabScenario.id_receiver);
                          mk_entry 2 (Some HtabScenario.id_vendor); mk_entry 0 None;
                          mk_entry 1 (Some HtabScenario.id_root_hub); mk_entry 0 None] 5 3 →
            htab_hash true t2 (Some HtabScenario.id_receiver_buffer) = Some (1, t2)).
  { intros t2 ->. vm_compute. reflexivity. }
  split; [apply Hh2; reflexivity|]. split; [discriminate|].
  eapply (htab_hash_injective true true HtabScenario.table_5 _ _ _ _ _ 1
            (HtabScenario.hashed [HtabScenario.id_root_hub; HtabScenario.id_vendor])
            table_5_consistent).
  - vm_compute. reflexivity.
  - discriminate.
  - vm_compute. reflexivity.
  - apply Hh2. reflexivity.
Defined.

(** X8. A failed allocation costs nothing: for a string that is not in
    the table [htab_hash] returns 0, [htab_filled] and every entry in use
    are as before, and a later call with memory available gives the
    string a non-zero identifier. *)
Theorem htab_hash_alloc_failure (t : htab) (s : string) :
  htab_consistent t → htab_filled t < htab_size t →
  (∀ i, htab_search t s ≠ Some (Existing i)) →
  ∃ t1, htab_hash false t (Some s) = Some (0, t1)
        ∧ htab_filled t1 = htab_filled t
        ∧ keeps_used t t1
        ∧ ∃ id t2, htab_hash true t1 (Some s) = Some (id, t2) ∧ id ≠ 0.
Proof.
  intros Hc Hroom Hnew.
  destruct (htab_hash_step false t (Some s) Hc) as (id & t1 & Hh & Hc1 & Hk & Hid & Hf).
  assert (id = 0 ∧ htab_filled t1 = htab_filled t) as [-> Hf1].
  { revert Hh. unfold htab_hash.
    destruct (htab_search t s) as [[idx|idx]|] eqn:Hr; cbn; [| |discriminate].
    - exfalso. exact (Hnew idx eq_refl).
    - destruct (htab_size t <=? htab_filled t). { intros [= <- <-]. auto. }
      destruct (in_bounds (htab_table t) idx); [|discriminate].
      intros [= <- <-]. auto. }
  exists t1. split; [exact Hh|]. split; [exact Hf1|]. split; [exact Hk|].
  pose proof Hc1 as (Hwf1 & _).
  destruct (htab_search_total t1 s Hwf1) as [r Hr].
  pose proof (htab_search_range t1 s r Hwf1 Hr) as Hrange.
  destruct Hk as [Hs1 _].
  unfold htab_hash. rewrite Hr. cbn.
  destruct r as [idx|idx]; cbn in Hrange.
  - exists idx, t1. split; [reflexivity|lia].
  - destruct (Z.leb_spec (htab_size t1) (htab_filled t1)) as [|_]; [lia|].
    destruct Hwf1 as [Hsize1 Hlen1].
    rewrite in_bounds_true by lia.
    eexists idx, _. split; [reflexivity|lia].
Qed.

Lemma htab_hash_alloc_failure_witness :
  let t := HtabScenario.table_5_two in
  htab_consistent t ∧ htab_filled t < htab_size t
  ∧ (∀ i, htab_search t HtabScenario.id_mouse ≠ Some (Existing i))
  ∧ ∃ t1, htab_hash false t (Some HtabScenario.id_mouse) = Some (0, t1)
          ∧ htab_filled t1 = 2
          ∧ ∃ id t2, htab_hash true t1 (Some HtabScenario.id_mouse) = Some (id, t2) ∧ id ≠ 0.
Proof.
  cbn zeta.
  assert (Hroom : htab_filled HtabScenario.table_5_two < htab_size HtabScenario.table_5_two).
  { cbn. lia. }
  assert (Hnew : ∀ i, htab_search HtabScenario.table_5_two HtabScenario.id_mouse
                      ≠ Some (Existing i)).
  { intros i. vm_compute. discriminate. }
  split; [exact table_5_two_consistent|]. split; [exact Hroom|]. split; [exact Hnew|].
  destruct (htab_hash_alloc_failure _ HtabScenario.id_mouse table_5_two_consistent Hroom Hnew)
    as (t1 & Hh & Hf & _ & Hretry).
  exists t1. split; [exact Hh|]. split; [exact Hf|exact Hretry].
Defined.

End HtabRunsFacts.

(** ** Interface lookup and the auto-claim scan *)

Module EndpointsFacts.
Import Ctypes Carray Libusb Autoclaim Endpoints CtypesFacts AutoclaimFacts.

Lemma has_endpoint_spec (endpoints : list Z) (a : Z) :
  has_endpoint endpoints a = bool_decide (a ∈ endpoints).
Proof.
  induction endpoints as [|e rest IH]; cbn [has_endpoint].
  - symmetry. apply bool_decide_eq_false. apply not_elem_of_nil.
  - rewrite IH. destruct (Z.eqb_spec e a) as [->|Hne]; cbn.
    + symmetry. apply bool_decide_eq_true. apply elem_of_cons. left. reflexivity.
    + destruct (decide (a ∈ rest)) as [Hin|Hnin].
      * rewrite !bool_decide_eq_true_2; auto. apply elem_of_cons. right. exact Hin.
      * rewrite !bool_decide_eq_false_2; auto. rewrite elem_of_cons. intros [->|?]; auto.
Qed.

Lemma successful_claims_app (tr1 tr2 : list event) :
  successful_claims (tr1 ++ tr2) = successful_claims tr1 ++ successful_claims tr2.
Proof. apply omap_app. Qed.

Section WithHeader.
Context `{windows_usb_h}.

Lemma interface_by_endpoint_loop_spec (priv : windows_device_priv)
    (hp : windows_device_handle_priv) (a : Z) (n : nat) :
  ∀ i, 0 <= i →
  i + Z.of_nat n <= Z.of_nat (length (interface_handle hp)) →
  i + Z.of_nat n <= Z.of_nat (length (usb_interface priv)) →
  ∃ r, interface_by_endpoint_loop n (interface_handle hp) (usb_interface priv) a i = Some r
       ∧ ((r = -1 ∧ ∀ j, i <= j < i + Z.of_nat n → serves priv hp a j = false)
          ∨ (i <= r < i + Z.of_nat n ∧ serves priv hp a r = true
             ∧ ∀ j, i <= j < r → serves priv hp a j = false)).
Proof.
  induction n as [|n IH]; intros i Hi Hh Hu; cbn [interface_by_endpoint_loop].
  - exists (-1). split; [reflexivity|]. left. split; [reflexivity|]. intros j Hj. lia.
  - destruct (aget_in_bounds (interface_handle hp) i ltac:(lia)) as [[dev_h api_h] Hhi].
    destruct (aget_in_bounds (usb_interface priv) i ltac:(lia)) as [ifc Hui].
    rewrite Hhi. cbn [mbind option_bind].
    assert (Hserves : serves priv hp a i
              = negb ((api_h =? INVALID_HANDLE_VALUE) || (api_h =? 0))
                && match endpoint ifc with
                   | Some endpoints => has_endpoint endpoints a
                   | None => false
                   end).
    { unfold serves. rewrite Hhi, Hui. unfold handle_set.
      destruct (endpoint ifc) as [eps|]; [rewrite has_endpoint_spec|];
        destruct (api_h =? 0), (api_h =? INVALID_HANDLE_VALUE); reflexivity. }
    assert (Hskip : serves priv hp a i = false →
              ∃ r, interface_by_endpoint_loop n (interface_handle hp) (usb_interface priv)
                     a (i + 1) = Some r
                   ∧ ((r = -1 ∧ ∀ j, i <= j < i + Z.of_nat (S n) → serves priv hp a j = false)
                      ∨ (i <= r < i + Z.of_nat (S n) ∧ serves priv hp a r = true
                         ∧ ∀ j, i <= j < r → serves priv hp a j = false))).
    { intros Hno. destruct (IH (i + 1) ltac:(lia) ltac:(lia) ltac:(lia)) as (r & Hr & Hcase).
      exists r. split; [exact Hr|].
      destruct Hcase as [[-> Hall]|(Hrange & Hyes & Hbefore)].
      - left. split; [reflexivity|]. intros j Hj.
        destruct (Z.eq_dec j i) as [->|]; [exact Hno|apply Hall; lia].
      - right. split; [lia|]. split; [exact Hyes|]. intros j Hj.
        destruct (Z.eq_dec j i) as [->|]; [exact Hno|apply Hbefore; lia]. }
    destruct ((api_h =? INVALID_HANDLE_VALUE) || (api_h =? 0)) eqn:Hbad.
    { apply Hskip. rewrite Hserves. reflexivity. }
    rewrite Hui. cbn [mbind option_bind].
    destruct (endpoint ifc) as [eps|] eqn:Heps.
    + destruct (has_endpoint eps a) eqn:Hhas.
      * exists i. split; [reflexivity|]. right. split; [lia|].
        split; [rewrite Hserves; reflexivity|]. intros j Hj. lia.
      * apply Hskip. rewrite Hserves. reflexivity.
    + apply Hskip. rewrite Hserves. reflexivity.
Qed.

(** X9. [interface_by_endpoint] returns the
    first interface whose API handle is set (neither 0 nor
    [INVALID_HANDLE_VALUE]) and whose endpoint list holds the address, and
    -1 exactly when there is no such interface. *)
Theorem interface_by_endpoint_first (priv : windows_device_priv)
    (hp : windows_device_handle_priv) (endpoint_address : Z) :
  0 <= USB_MAXINTERFACES →
  length (interface_handle hp) = Z.to_nat USB_MAXINTERFACES →
  length (usb_interface priv) = Z.to_nat USB_MAXINTERFACES →
  ∃ r, interface_by_endpoint priv hp endpoint_address = Some r
       ∧ ((r = -1
           ∧ ∀ j, 0 <= j < USB_MAXINTERFACES → serves priv hp endpoint_address j = false)
          ∨ (0 <= r < USB_MAXINTERFACES
             ∧ serves priv hp endpoint_address r = true
             ∧ ∀ j, 0 <= j < r → serves priv hp endpoint_address j = false)).
Proof.
  intros Hmax Hh Hu. unfold interface_by_endpoint.
  destruct (interface_by_endpoint_loop_spec priv hp endpoint_address
              (Z.to_nat USB_MAXINTERFACES) 0 ltac:(lia) ltac:(lia) ltac:(lia))
    as (r & Hr & Hcase).
  exists r. split; [exact Hr|].
  destruct Hcase as [[-> Hall]|(Hrange & Hyes & Hbefore)].
  - left. split; [reflexivity|]. intros j Hj. apply Hall. lia.
  - right. split; [lia|]. split; [exact Hyes|exact Hbefore].
Qed.

Lemma get_valid_interface_loop_spec (priv : windows_device_priv)
    (hp : windows_device_handle_priv) (api_id : usb_api) (n : nat) :
  api_id = USB_API_WINUSBX ∨ api_id = USB_API_HID →
  ∀ i, 0 <= i →
  i + Z.of_nat n <= Z.of_nat (length (interface_handle hp)) →
  i + Z.of_nat n <= Z.of_nat (length (usb_interface priv)) →
  ∃ r, get_valid_interface_loop n (interface_handle hp) (usb_interface priv) api_id i = Some r
       ∧ ((r = -1 ∧ ∀ j, i <= j < i + Z.of_nat n → open_for priv hp api_id j = false)
          ∨ (i <= r < i + Z.of_nat n ∧ open_for priv hp api_id r = true
             ∧ ∀ j, i <= j < r → open_for priv hp api_id j = false)).
Proof.
  intros Hfam.
  induction n as [|n IH]; intros i Hi Hh Hu; cbn [get_valid_interface_loop].
  - exists (-1). split; [reflexivity|]. left. split; [reflexivity|]. intros j Hj. lia.
  - destruct (aget_in_bounds (interface_handle hp) i ltac:(lia)) as [[dev_h api_h] Hhi].
    destruct (aget_in_bounds (usb_interface priv) i ltac:(lia)) as [ifc Hui].
    rewrite Hhi, Hui. cbn [mbind option_bind].
    assert (Hopen : open_for priv hp api_id i
              = handle_set dev_h && handle_set api_h && bool_decide (apib ifc = api_id)).
    { unfold open_for. rewrite Hhi, Hui.
      destruct Hfam as [-> | ->]; cbn; rewrite andb_true_r; reflexivity. }
    rewrite <- Hopen.
    destruct (open_for priv hp api_id i) eqn:Hyes.
    + exists i. split; [reflexivity|]. right. split; [lia|]. split; [exact Hyes|].
      intros j Hj. lia.
    + destruct (IH (i + 1) ltac:(lia) ltac:(lia) ltac:(lia)) as (r & Hr & Hcase).
      exists r. split; [exact Hr|].
      destruct Hcase as [[-> Hall]|(Hrange & Hyes' & Hbefore)].
      * left. split; [reflexivity|]. intros j Hj.
        destruct (Z.eq_dec j i) as [->|]; [exact Hyes|apply Hall; lia].
      * right. split; [lia|]. split; [exact Hyes'|]. intros j Hj.
        destruct (Z.eq_dec j i) as [->|]; [exact Hyes|apply Hbefore; lia].
Qed.

(** X10. [get_valid_interface] returns the first
    interface of the family [api_id] whose device handle and API handle are
    both set, and -1 exactly when there is none; for a family other than
    the two that carry transfers it returns -1. *)
Theorem get_valid_interface_first (priv : windows_device_priv)
    (hp : windows_device_handle_priv) (api_id : usb_api) :
  0 <= USB_MAXINTERFACES →
  length (interface_handle hp) = Z.to_nat USB_MAXINTERFACES →
  length (usb_interface priv) = Z.to_nat USB_MAXINTERFACES →
  ∃ r, get_valid_interface priv hp api_id = Some r
       ∧ ((r = -1 ∧ ∀ j, 0 <= j < USB_MAXINTERFACES → open_for priv hp api_id j = false)
          ∨ (0 <= r < USB_MAXINTERFACES
             ∧ open_for priv hp api_id r = true
             ∧ ∀ j, 0 <= j < r → open_for priv hp api_id j = false)).
Proof.
  intros Hmax Hh Hu.
  assert (Hother : api_id ≠ USB_API_WINUSBX → api_id ≠ USB_API_HID →
            ∀ j, open_for priv hp api_id j = false).
  { intros H1 H2 j. unfold open_for.
    destruct (aget (interface_handle hp) j) as [[dev_h api_h]|]; [|reflexivity].
    destruct (aget (usb_interface priv) j) as [ifc|]; [|reflexivity].
    rewrite (bool_decide_eq_false_2 _ H1), (bool_decide_eq_false_2 _ H2).
    apply andb_false_r. }
  assert (Hloop : api_id = USB_API_WINUSBX ∨ api_id = USB_API_HID →
            ∃ r, get_valid_interface_loop (Z.to_nat USB_MAXINTERFACES) (interface_handle hp)
                   (usb_interface priv) api_id 0 = Some r
                 ∧ ((r = -1 ∧ ∀ j, 0 <= j < USB_MAXINTERFACES →
                                   open_for priv hp api_id j = false)
                    ∨ (0 <= r < USB_MAXINTERFACES
                       ∧ open_for priv hp api_id r = true
                       ∧ ∀ j, 0 <= j < r → open_for priv hp api_id j = false))).
  { intros Hfam.
    destruct (get_valid_interface_loop_spec priv hp api_id (Z.to_nat USB_MAXINTERFACES) Hfam
                0 ltac:(lia) ltac:(lia) ltac:(lia)) as (r & Hr & Hcase).
    exists r. split; [exact Hr|].
    destruct Hcase as [[-> Hall]|(Hrange & Hyes & Hbefore)].
    - left. split; [reflexivity|]. intros j Hj. apply Hall. lia.
    - right. split; [lia|]. split; [exact Hyes|exact Hbefore]. }
  unfold get_valid_interface.
  destruct api_id; try (apply Hloop; auto);
    (exists (-1); split; [reflexivity|]; left; split; [reflexivity|];
     intros j _; apply Hother; discriminate).
Qed.

Context {core : Type}.
Variable libusb_claim_interface : core_call core.

(** What the scan of [auto_claim] leaves behind. *)
Lemma auto_claim_scan_claims (ifaces : list usb_interface_t) (api_type : usb_api) (n : nat) :
  ∀ (ci : Z) (st : handle_state core) (ci' : Z) (st' : handle_state core),
  auto_claim_scan libusb_claim_interface n ifaces api_type ci st = Some (ci', st') →
  ∃ evs,
    st_trace st' = st_trace st ++ evs
    ∧ ((ci' = ci + Z.of_nat n ∧ successful_claims evs = []
        ∧ autoclaim_count (st_handle st') = autoclaim_count (st_handle st))
       ∨ (ci <= ci' < ci + Z.of_nat n ∧ successful_claims evs = [ci']
          ∧ (∃ ifc, aget ifaces ci' = Some ifc ∧ apib ifc = api_type)
          ∧ (∃ c, count_at st ci' = Some c ∧ count_at st' ci' = Some (c + 1))
          ∧ ∀ j, j ≠ ci' → count_at st' j = count_at st j)).
Proof.
  induction n as [|n IH]; intros ci st ci' st'; cbn [auto_claim_scan].
  - intros [= <- <-]. exists []. split; [symmetry; apply app_nil_r|].
    left. split; [lia|]. split; reflexivity.
  - destruct (aget ifaces ci) as [ifc|] eqn:Hifc; [|discriminate].
    destruct (decide (apib ifc = api_type)) as [Hfam|_].
    + destruct (call_claim_spec libusb_claim_interface st ci) as (r & st1 & Hcall & Hcnt & Htr).
      rewrite Hcall.
      destruct (Z.eqb_spec r LIBUSB_SUCCESS) as [->|Hr].
      * destruct (aget (autoclaim_count (st_handle st1)) ci) as [c|] eqn:Hc; [|discriminate].
        unfold incr_autoclaim. cbn [log st_handle st_core st_trace].
        rewrite Hc. cbn [mbind option_bind].
        destruct (int_add c 1) as [c'|] eqn:Hadd; [|discriminate]. cbn [mbind option_bind].
        destruct (aset (autoclaim_count (st_handle st1)) ci c') as [counts|] eqn:Hset;
          [|discriminate].
        cbn [mbind option_bind]. intros [= <- <-]. cbn [st_trace st_handle].
        assert (c' = c + 1) as ->.
        { unfold int_add in Hadd. destruct (_ && _); congruence. }
        eexists. split; [rewrite Htr, <- app_assoc; reflexivity|].
        right. split; [lia|]. split.
        { rewrite successful_claims_app. cbn.
          destruct (c =? 0); reflexivity. }
        split; [eauto|]. unfold count_at. cbn [st_handle set_autoclaim_count autoclaim_count].
        split.
        -- exists c. rewrite <- Hcnt. split; [exact Hc|]. eapply aget_aset_eq; exact Hset.
        -- intros j Hj. rewrite <- Hcnt. eapply aget_aset_ne; [exact Hset|congruence].
      * intros Hscan. destruct (IH _ _ _ _ Hscan) as (evs & Hevs & Hcase).
        exists (EvClaimInterface ci r :: evs).
        split; [rewrite Hevs, Htr, <- app_assoc; reflexivity|].
        assert (Hsc : successful_claims (EvClaimInterface ci r :: evs) = successful_claims evs).
        { unfold successful_claims. cbn.
          destruct (Z.eqb_spec r LIBUSB_SUCCESS); [contradiction|reflexivity]. }
        rewrite Hsc. unfold count_at in *. rewrite <- Hcnt.
        destruct Hcase as [(-> & Hnone & Hsame)|(Hrange & Hone & Hifc' & Hc & Hothers)].
        -- left. split; [lia|]. split; [exact Hnone|exact Hsame].
        -- right. split; [lia|]. split; [exact Hone|]. split; [exact Hifc'|].
           split; [exact Hc|exact Hothers].
    + intros Hscan. destruct (IH _ _ _ _ Hscan) as (evs & Hevs & Hcase).
      exists evs. split; [exact Hevs|].
      destruct Hcase as [(-> & Hnone & Hsame)|(Hrange & Hone & Hifc' & Hc & Hothers)].
      * left. split; [lia|]. split; [exact Hnone|exact Hsame].
      * right. split; [lia|]. split; [exact Hone|]. split; [exact Hifc'|].
        split; [exact Hc|exact Hothers].
Qed.

(** X11. [auto_claim] called without an interface
    (a negative number) claims at most one: it either returns
    [LIBUSB_ERROR_NOT_FOUND] after the core accepted no claim, with every
    count unchanged, or [LIBUSB_SUCCESS] with an interface of the requested
    family, the only one the core accepted, whose count has grown by one
    while all other counts are unchanged; for a family other than
    WinUSB-like and HID it returns [LIBUSB_ERROR_INVALID_PARAM] and does
    nothing. *)
Theorem auto_claim_claims_one (priv : windows_device_priv) (st st' : handle_state core)
    (n n' r : Z) (api_type : usb_api) :
  0 <= USB_MAXINTERFACES → n < 0 →
  auto_claim libusb_claim_interface priv st n api_type = Some (r, n', st') →
  ∃ evs,
    st_trace st' = st_trace st ++ evs
    ∧ ((r = LIBUSB_ERROR_INVALID_PARAM ∧ st' = st
        ∧ api_type ≠ USB_API_WINUSBX ∧ api_type ≠ USB_API_HID)
       ∨ (r = LIBUSB_ERROR_NOT_FOUND ∧ successful_claims evs = []
          ∧ autoclaim_count (st_handle st') = autoclaim_count (st_handle st))
       ∨ (r = LIBUSB_SUCCESS ∧ 0 <= n' < USB_MAXINTERFACES
          ∧ successful_claims evs = [n']
          ∧ (∃ ifc, aget (usb_interface priv) n' = Some ifc ∧ apib ifc = api_type)
          ∧ (∃ c, count_at st n' = Some c ∧ count_at st' n' = Some (c + 1))
          ∧ ∀ j, j ≠ n' → count_at st' j = count_at st j)).
Proof.
  intros Hmax Hn. unfold auto_claim.
  assert (Hbody :
    (if n <? 0
     then '(ci, st1) ← auto_claim_scan libusb_claim_interface
                         (Z.to_nat USB_MAXINTERFACES) (usb_interface priv) api_type 0 st;
          if ci =? USB_MAXINTERFACES
          then Some (LIBUSB_ERROR_NOT_FOUND, ci,
                     log st1 [EvLog LOG_ERR "could not auto-claim any interface"])
          else Some (LIBUSB_SUCCESS, ci, st1)
     else c ← aget (autoclaim_count (st_handle st)) n;
          if c =? 0 then Some (LIBUSB_SUCCESS, n, st)
          else st1 ← incr_autoclaim st n; Some (LIBUSB_SUCCESS, n, st1))
    = Some (r, n', st') →
    ∃ evs,
      st_trace st' = st_trace st ++ evs
      ∧ ((r = LIBUSB_ERROR_INVALID_PARAM ∧ st' = st
          ∧ api_type ≠ USB_API_WINUSBX ∧ api_type ≠ USB_API_HID)
         ∨ (r = LIBUSB_ERROR_NOT_FOUND ∧ successful_claims evs = []
            ∧ autoclaim_count (st_handle st') = autoclaim_count (st_handle st))
         ∨ (r = LIBUSB_SUCCESS ∧ 0 <= n' < USB_MAXINTERFACES
            ∧ successful_claims evs = [n']
            ∧ (∃ ifc, aget (usb_interface priv) n' = Some ifc ∧ apib ifc = api_type)
            ∧ (∃ c, count_at st n' = Some c ∧ count_at st' n' = Some (c + 1))
            ∧ ∀ j, j ≠ n' → count_at st' j = count_at st j))).
  { destruct (Z.ltb_spec n 0) as [_|]; [|lia].
    destruct (auto_claim_scan _ _ _ _ 0 st) as [[ci st1]|] eqn:Hscan; [|discriminate].
    cbn [mbind option_bind].
    destruct (auto_claim_scan_claims _ _ _ _ _ _ _ Hscan) as (evs & Hevs & Hcase).
    destruct (Z.eqb_spec ci USB_MAXINTERFACES) as [Hci|Hci].
    - intros [= <- <- <-]. cbn [log st_trace st_handle].
      exists (evs ++ [EvLog LOG_ERR "could not auto-claim any interface"]).
      split; [rewrite Hevs, <- app_assoc; reflexivity|].
      right. left. split; [reflexivity|].
      destruct Hcase as [(_ & Hnone & Hsame)|(Hrange & _)]; [|lia].
      split; [|exact Hsame].
      rewrite successful_claims_app, Hnone. reflexivity.
    - intros [= <- <- <-]. exists evs. split; [exact Hevs|].
      right. right. split; [reflexivity|].
      destruct Hcase as [(-> & _)|(Hrange & Hone & Hifc & Hc & Hothers)].
      + exfalso. apply Hci. lia.
      + split; [lia|]. split; [exact Hone|]. split; [exact Hifc|].
        split; [exact Hc|exact Hothers]. }
  destruct api_type; try exact Hbody;
    (intros [= <- <- <-]; exists []; split; [symmetry; apply app_nil_r|];
     left; split; [reflexivity|]; split; [reflexivity|]; split; discriminate).
Qed.

End WithHeader.

Lemma interface_by_endpoint_first_witness :
  let H := Scenario.header_1_0 in
  0 <= USB_MAXINTERFACES
  ∧ length (interface_handle open_1_3) = Z.to_nat USB_MAXINTERFACES
  ∧ length (usb_interface device_1_3) = Z.to_nat USB_MAXINTERFACES
  ∧ interface_by_endpoint device_1_3 open_1_3 131 = Some 3
  ∧ interface_by_endpoint device_1_3 open_1_3 2 = Some 1
  ∧ interface_by_endpoint device_1_3 open_1_3 132 = Some (-1)
  ∧ serves device_1_3 open_1_3 2 3 = true.
Proof.
  cbn zeta.
  assert (Hmax : 0 <= @USB_MAXINTERFACES Scenario.header_1_0) by (cbn; lia).
  assert (Hh : length (interface_handle open_1_3)
               = Z.to_nat (@USB_MAXINTERFACES Scenario.header_1_0)) by reflexivity.
  assert (Hu : length (usb_interface device_1_3)
               = Z.to_nat (@USB_MAXINTERFACES Scenario.header_1_0)) by reflexivity.
  split; [exact Hmax|]. split; [exact Hh|]. split; [exact Hu|].
  split; [|split; [|split; [|vm_compute; reflexivity]]].
  - destruct (@interface_by_endpoint_first Scenario.header_1_0 device_1_3 open_1_3 131
                Hmax Hh Hu) as (r & Hr & _).
    rewrite Hr. vm_compute in Hr. symmetry. exact Hr.
  - destruct (@interface_by_endpoint_first Scenario.header_1_0 device_1_3 open_1_3 2
                Hmax Hh Hu) as (r & Hr & _).
    rewrite Hr. vm_compute in Hr. symmetry. exact Hr.
  - destruct (@interface_by_endpoint_first Scenario.header_1_0 device_1_3 open_1_3 132
                Hmax Hh Hu) as (r & Hr & _).
    rewrite Hr. vm_compute in Hr. symmetry. exact Hr.
Defined.

Lemma get_valid_interface_first_witness :
  let H := Scenario.header_1_0 in
  0 <= USB_MAXINTERFACES
  ∧ length (interface_handle open_1_3) = Z.to_nat USB_MAXINTERFACES
  ∧ length (usb_interface device_1_3) = Z.to_nat USB_MAXINTERFACES
  ∧ get_valid_interface device_1_3 open_1_3 USB_API_WINUSBX = Some 1
  ∧ get_valid_interface device_1_3 open_1_3 USB_API_HID = Some (-1)
  ∧ get_valid_interface device_1_3 open_1_3 USB_API_COMPOSITE = Some (-1).
Proof.
  cbn zeta.
  assert (Hmax : 0 <= @USB_MAXINTERFACES Scenario.header_1_0) by (cbn; lia).
  assert (Hh : length (interface_handle open_1_3)
               = Z.to_nat (@USB_MAXINTERFACES Scenario.header_1_0)) by reflexivity.
  assert (Hu : length (usb_interface device_1_3)
               = Z.to_nat (@USB_MAXINTERFACES Scenario.header_1_0)) by reflexivity.
  split; [exact Hmax|]. split; [exact Hh|]. split; [exact Hu|].
  split; [|split].
  - destruct (@get_valid_interface_first Scenario.header_1_0 device_1_3 open_1_3
                USB_API_WINUSBX Hmax Hh Hu) as (r & Hr & _).
    rewrite Hr. vm_compute in Hr. symmetry. exact Hr.
  - destruct (@get_valid_interface_first Scenario.header_1_0 device_1_3 open_1_3
                USB_API_HID Hmax Hh Hu) as (r & Hr & _).
    rewrite Hr. vm_compute in Hr. symmetry. exact Hr.
  - destruct (@get_valid_interface_first Scenario.header_1_0 device_1_3 open_1_3
                USB_API_COMPOSITE Hmax Hh Hu) as (r & Hr & _).
    rewrite Hr. vm_compute in Hr. symmetry. exact Hr.
Defined.

Lemma auto_claim_claims_one_witness :
  let H := Scenario.header_1_0 in
  0 <= USB_MAXINTERFACES ∧ -1 < 0
  ∧ ∃ st' evs,
      auto_claim (core_accepts_from 2) Scenario.winusb_device Scenario.unclaimed_handle
        (-1) USB_API_WINUSBX = Some (LIBUSB_SUCCESS, 2, st')
      ∧ st_trace st' = st_trace Scenario.unclaimed_handle ++ evs
      ∧ successful_claims evs = [2]
      ∧ count_at st' 2 = Some 1.
Proof.
  cbn zeta.
  assert (Hmax : 0 <= @USB_MAXINTERFACES Scenario.header_1_0) by (cbn; lia).
  split; [exact Hmax|]. split; [lia|].
  assert (Hrun : ∃ st',
            @auto_claim Scenario.header_1_0 unit (core_accepts_from 2) Scenario.winusb_device
              Scenario.unclaimed_handle (-1) USB_API_WINUSBX = Some (LIBUSB_SUCCESS, 2, st')).
  { eexists. vm_compute. reflexivity. }
  destruct Hrun as (st' & Hrun). exists st'.
  destruct (@auto_claim_claims_one Scenario.header_1_0 unit (core_accepts_from 2)
              Scenario.winusb_device Scenario.unclaimed_handle st' (-1) 2 LIBUSB_SUCCESS
              USB_API_WINUSBX Hmax ltac:(lia) Hrun) as (evs & Hevs & Hcase).
  exists evs. split; [exact Hrun|]. split; [exact Hevs|].
  destruct Hcase as [(Hr & _)|[(Hr & _)|(_ & _ & Hone & _ & (c & Hc & Hc') & _)]];
    [discriminate Hr|discriminate Hr|].
  split; [exact Hone|].
  rewrite Hc'. vm_compute in Hc. injection Hc as <-. reflexivity.
Defined.

End EndpointsFacts.

(** ** Composite interface slots: failures and the round trip *)

Module CompositeSlotsFacts.
Import Ctypes Carray Cstr Libusb Composite CtypesFacts.

Lemma aset_in_range {A : Type} (l : list A) (i : Z) (x y : A) :
  aget l i = Some y → aset l i x = Some (<[Z.to_nat i := x]> l).
Proof.
  intros Hget. unfold aset. apply aget_Some in Hget as [Hi Hl].
  apply lookup_lt_Some in Hl. rewrite in_bounds_true by lia. reflexivity.
Qed.

Lemma existsb_no_hid (slots : list usb_interface_t) :
  Forall (λ ifc, apib ifc ≠ USB_API_HID) slots →
  existsb (λ ifc, bool_decide (apib ifc = USB_API_HID)) slots = false.
Proof.
  induction 1 as [|ifc slots Hifc _ IH]; [reflexivity|].
  cbn. rewrite bool_decide_eq_false_2 by exact Hifc. exact IH.
Qed.

Section WithHeader.
Context `{windows_usb_h}.

(** X12. Every failure of
    [set_composite_interface] but one leaves the device as it was: the
    device is not composite ([LIBUSB_ERROR_NO_DEVICE]), the interface
    number is not below [USB_MAXINTERFACES] ([LIBUSB_ERROR_OTHER]), or a
    HID collection meets a slot already set ([LIBUSB_ERROR_ACCESS]).  Only
    [LIBUSB_ERROR_NO_MEM], the failed allocation of [priv->hid], comes
    after the slot was written: the slot then names the HID backend while
    [priv->hid] is NULL. *)
Theorem set_composite_interface_failure (calloc_ok : bool) (priv priv' : windows_device_priv)
    (dev_interface_path device_id : string) (api : usb_api) (sub_api r : Z)
    (evs : list event) :
  set_composite_interface calloc_ok priv dev_interface_path device_id api sub_api
    = Some (r, priv', evs) →
  r ≠ LIBUSB_SUCCESS →
  (priv' = priv
   ∧ ((r = LIBUSB_ERROR_NO_DEVICE ∧ dev_apib priv ≠ USB_API_COMPOSITE)
      ∨ (r = LIBUSB_ERROR_OTHER
         ∧ ∃ n warn, parse_interface_number device_id = Some (n, warn)
                     ∧ USB_MAXINTERFACES <= n)
      ∨ (r = LIBUSB_ERROR_ACCESS ∧ api = USB_API_HID)))
  ∨ (r = LIBUSB_ERROR_NO_MEM ∧ calloc_ok = false ∧ api = USB_API_HID
     ∧ hid priv = None ∧ hid priv' = None
     ∧ ∃ n slot, aget (usb_interface priv') n = Some slot
                 ∧ path slot = Some dev_interface_path ∧ apib slot = USB_API_HID).
Proof.
  unfold set_composite_interface.
  destruct (decide (dev_apib priv = USB_API_COMPOSITE)) as [Hcomp|Hcomp].
  2:{ rewrite bool_decide_eq_false_2 by exact Hcomp. cbn [negb].
      intros [= <- <- <-] _. left. split; [reflexivity|]. left. split; [reflexivity|exact Hcomp]. }
  rewrite bool_decide_eq_true_2 by exact Hcomp. cbn [negb].
  destruct (parse_interface_number device_id) as [[n warn]|] eqn:Hparse; [|discriminate].
  cbn [mbind option_bind].
  destruct (Z.leb_spec USB_MAXINTERFACES n) as [Hbig|Hn].
  { intros [= <- <- <-] _. left. split; [reflexivity|]. right. left.
    split; [reflexivity|]. exists n, warn. split; [reflexivity|exact Hbig]. }
  destruct (aget (usb_interface priv) n) as [slot|] eqn:Hslot; [|discriminate].
  cbn [mbind option_bind].
  destruct (bool_decide (path slot ≠ None) && bool_decide (api = USB_API_HID)) eqn:Hocc.
  { intros [= <- <- <-] _. left. split; [reflexivity|]. right. right.
    split; [reflexivity|]. apply andb_prop in Hocc as [_ Hapi].
    apply bool_decide_eq_true in Hapi. exact Hapi. }
  rewrite (aset_in_range _ _ _ _ Hslot). cbn [mbind option_bind].
  destruct (bool_decide (api = USB_API_HID) && bool_decide (hid _ = None)) eqn:Hhid.
  2:{ intros [= <- _ _] Hr. contradiction. }
  destruct calloc_ok. { intros [= <- _ _] Hr. contradiction. }
  intros [= <- <- <-] _. right.
  apply andb_prop in Hhid as [Hapi Hnone].
  apply bool_decide_eq_true in Hapi. apply bool_decide_eq_true in Hnone.
  cbn in Hnone. subst api.
  split; [reflexivity|]. split; [reflexivity|]. split; [reflexivity|].
  split; [exact Hnone|]. split; [exact Hnone|].
  exists n, (mk_usb_interface (Some dev_interface_path) USB_API_HID sub_api (endpoint slot)).
  split; [|split; reflexivity].
  cbn. eapply aget_aset_eq. apply (aset_in_range _ _ _ _ Hslot).
Qed.

(** X13. Installing a leaf into an empty
    slot of a composite device and removing it again gives the device
    back as it was: the interface number read from the instance id names
    the same slot both times, the slot is reset to the unsupported backend
    with no path, and [priv->hid], allocated for a HID leaf, is released
    again when no HID slot is left. *)
Theorem composite_set_unset_round_trip (priv : windows_device_priv)
    (dev_interface_path device_id : string) (api : usb_api) (sub_api : Z)
    (n : Z) (warn : bool) (endpoints : option (list Z)) :
  dev_apib priv = USB_API_COMPOSITE →
  parse_interface_number device_id = Some (n, warn) →
  n < USB_MAXINTERFACES →
  aget (usb_interface priv) n
    = Some (mk_usb_interface None USB_API_UNSUPPORTED SUB_API_NOTSET endpoints) →
  hid priv = None →
  Forall (λ ifc, apib ifc ≠ USB_API_HID) (usb_interface priv) →
  ∃ priv1 evs1 evs2,
    set_composite_interface true priv dev_interface_path device_id api sub_api
      = Some (LIBUSB_SUCCESS, priv1, evs1)
    ∧ slot_path priv1 n = Some dev_interface_path
    ∧ (api = USB_API_HID → hid priv1 = Some (mk_hid 0))
    ∧ unset_composite_interface priv1 device_id = Some (priv, evs2).
Proof.
  intros Hcomp Hparse Hn Hslot Hhid Hnohid.
  pose proof Hslot as Hslot'. apply aget_Some in Hslot' as [Hn0 Hl].
  pose proof (lookup_lt_Some _ _ _ Hl) as Hlen.
  set (new := mk_usb_interface (Some dev_interface_path) api sub_api endpoints).
  set (blank := mk_usb_interface None USB_API_UNSUPPORTED SUB_API_NOTSET endpoints) in *.
  assert (Hback : <[Z.to_nat n := blank]> (<[Z.to_nat n := new]> (usb_interface priv))
                  = usb_interface priv).
  { rewrite list_insert_insert_eq. apply list_insert_id. exact Hl. }
  assert (Hunset : ∀ priv1,
            dev_apib priv1 = USB_API_COMPOSITE →
            usb_interface priv1 = <[Z.to_nat n := new]> (usb_interface priv) →
            set_hid (set_usb_interface priv1 (usb_interface priv)) None = priv →
            ∃ evs2, unset_composite_interface priv1 device_id = Some (priv, evs2)).
  { intros priv1 Hcomp1 Hslots1 Hsame. unfold unset_composite_interface.
    rewrite Hcomp1, bool_decide_eq_true_2 by reflexivity. cbn [negb].
    rewrite Hparse. cbn [mbind option_bind].
    destruct (Z.leb_spec USB_MAXINTERFACES n) as [|_]; [lia|].
    assert (Hget1 : aget (usb_interface priv1) n = Some new).
    { rewrite Hslots1. apply aget_Some. split; [exact Hn0|].
      apply list_lookup_insert_eq. exact Hlen. }
    rewrite Hget1. cbn [mbind option_bind path new endpoint].
    rewrite (aset_in_range _ _ _ _ Hget1). cbn [mbind option_bind].
    rewrite Hslots1. fold blank. rewrite Hback.
    rewrite existsb_no_hid by (apply Forall_take; exact Hnohid).
    eexists. rewrite Hsame. reflexivity. }
  unfold set_composite_interface.
  rewrite Hcomp, bool_decide_eq_true_2 by reflexivity. cbn [negb].
  rewrite Hparse. cbn [mbind option_bind].
  destruct (Z.leb_spec USB_MAXINTERFACES n) as [|_]; [lia|].
  rewrite Hslot. cbn [mbind option_bind path blank endpoint].
  rewrite (bool_decide_eq_false_2 (None ≠ None)) by (intros Hne; apply Hne; reflexivity).
  cbn [andb]. rewrite (aset_in_range _ _ _ _ Hslot). cbn [mbind option_bind].
  fold new.
  assert (Hsame : ∀ h, set_hid (set_usb_interface
                                  (set_hid (set_usb_interface priv
                                              (<[Z.to_nat n := new]> (usb_interface priv))) h)
                                  (usb_interface priv)) None = priv).
  { intros h. destruct priv. cbn in *. subst. reflexivity. }
  assert (Hsame' : set_hid (set_usb_interface
                              (set_usb_interface priv
                                 (<[Z.to_nat n := new]> (usb_interface priv)))
                              (usb_interface priv)) None = priv).
  { destruct priv. cbn in *. subst. reflexivity. }
  assert (Hpath : ∀ priv1, usb_interface priv1 = <[Z.to_nat n := new]> (usb_interface priv) →
                           slot_path priv1 n = Some dev_interface_path).
  { intros priv1 Hs. unfold slot_path, aget. rewrite Hs.
    rewrite in_bounds_true by (rewrite length_insert; lia).
    rewrite list_lookup_insert_eq by exact Hlen. reflexivity. }
  destruct (decide (api = USB_API_HID)) as [Hapi|Hapi].
  - rewrite (bool_decide_eq_true_2 _ Hapi). cbn [andb set_usb_interface hid].
    rewrite Hhid, bool_decide_eq_true_2 by reflexivity.
    destruct (Hunset (set_hid (set_usb_interface priv
                                 (<[Z.to_nat n := new]> (usb_interface priv)))
                        (Some (mk_hid 0))) Hcomp eq_refl (Hsame _)) as [evs2 Hevs2].
    eexists _, _, evs2. split; [reflexivity|]. split; [apply Hpath; reflexivity|].
    split; [reflexivity|exact Hevs2].
  - rewrite (bool_decide_eq_false_2 _ Hapi). cbn [andb].
    destruct (Hunset (set_usb_interface priv (<[Z.to_nat n := new]> (usb_interface priv)))
                Hcomp eq_refl Hsame') as [evs2 Hevs2].
    eexists _, _, evs2. split; [reflexivity|]. split; [apply Hpath; reflexivity|].
    split; [contradiction|exact Hevs2].
Qed.

End WithHeader.

Lemma set_composite_interface_failure_witness :
  let H := Scenario.header_1_0 in
  ∃ priv' evs n slot,
    set_composite_interface false Scenario.composite_device Scenario.path_HID_00
      Scenario.id_MI_00 USB_API_HID 0 = Some (LIBUSB_ERROR_NO_MEM, priv', evs)
    ∧ LIBUSB_ERROR_NO_MEM ≠ LIBUSB_SUCCESS
    ∧ hid priv' = None
    ∧ aget (usb_interface priv') n = Some slot
    ∧ path slot = Some Scenario.path_HID_00 ∧ apib slot = USB_API_HID.
Proof.
  cbn zeta.
  assert (Hrun : ∃ priv' evs,
            @set_composite_interface Scenario.header_1_0 false Scenario.composite_device
              Scenario.path_HID_00 Scenario.id_MI_00 USB_API_HID 0
            = Some (LIBUSB_ERROR_NO_MEM, priv', evs)).
  { eexists _, _. vm_compute. reflexivity. }
  destruct Hrun as (priv' & evs & Hrun).
  assert (Hr : LIBUSB_ERROR_NO_MEM ≠ LIBUSB_SUCCESS) by discriminate.
  destruct (@set_composite_interface_failure Scenario.header_1_0 _ _ _ _ _ _ _ _ _ Hrun Hr)
    as [(_ & [(Hbad & _)|[(Hbad & _)|(Hbad & _)]])
       |(_ & _ & _ & _ & Hnone & n & slot & Hslot & Hpath & Hapi)];
    [discriminate Hbad|discriminate Hbad|discriminate Hbad|].
  exists priv', evs, n, slot. split; [exact Hrun|]. split; [exact Hr|].
  split; [exact Hnone|]. split; [exact Hslot|]. split; [exact Hpath|exact Hapi].
Defined.

Lemma composite_set_unset_round_trip_witness :
  let H := Scenario.header_1_0 in
  let priv := Scenario.composite_device in
  dev_apib priv = USB_API_COMPOSITE
  ∧ parse_interface_number Scenario.id_MI_03 = Some (3, false)
  ∧ 3 < USB_MAXINTERFACES
  ∧ aget (usb_interface priv) 3
      = Some (mk_usb_interface None USB_API_UNSUPPORTED SUB_API_NOTSET None)
  ∧ hid priv = None
  ∧ Forall (λ ifc, apib ifc ≠ USB_API_HID) (usb_interface priv)
  ∧ ∃ priv1 evs1 evs2,
      set_composite_interface true priv Scenario.path_MI_03 Scenario.id_MI_03 USB_API_HID 0
        = Some (LIBUSB_SUCCESS, priv1, evs1)
      ∧ hid priv1 = Some (mk_hid 0)
      ∧ unset_composite_interface priv1 Scenario.id_MI_03 = Some (priv, evs2).
Proof.
  cbn zeta.
  assert (Hparse : parse_interface_number Scenario.id_MI_03 = Some (3, false))
    by (vm_compute; reflexivity).
  assert (Hmax : 3 < @USB_MAXINTERFACES Scenario.header_1_0) by (cbn; lia).
  assert (Hnohid : Forall (λ ifc, apib ifc ≠ USB_API_HID)
                     (usb_interface Scenario.composite_device)).
  { apply Forall_forall. intros ifc Hin. apply elem_of_replicate in Hin as [-> _].
    discriminate. }
  split; [reflexivity|]. split; [exact Hparse|]. split; [exact Hmax|].
  split; [reflexivity|]. split; [reflexivity|]. split; [exact Hnohid|].
  destruct (@composite_set_unset_round_trip Scenario.header_1_0 Scenario.composite_device
              Scenario.path_MI_03 Scenario.id_MI_03 USB_API_HID 0 3 false None
              eq_refl Hparse Hmax eq_refl eq_refl Hnohid)
    as (priv1 & evs1 & evs2 & Hset & _ & Hhid & Hunset).
  exists priv1, evs1, evs2. split; [exact Hset|]. split; [apply Hhid; reflexivity|exact Hunset].
Defined.

End CompositeSlotsFacts.

(** ** Interfaces of a HID device and the HID claim flag *)

Module HidInterfaceFacts.
Import Ctypes Carray Cstr Libusb Composite HidInterface CtypesFacts.

Lemma find_hid_path_none (slots : list usb_interface_t) (p : string) (k : nat) :
  ∀ i : nat,
  Forall (λ ifc, safe_strcmp_eq (path ifc) (Some p) = false) (take k (drop i slots)) →
  (i + k <= length slots)%nat →
  find_hid_path k slots p (Z.of_nat i) = Some None.
Proof.
  induction k as [|k IH]; intros i Hall Hlen; [reflexivity|].
  cbn [find_hid_path]. rewrite aget_of_nat.
  destruct (lookup_lt_is_Some_2 slots i ltac:(lia)) as [slot Hslot].
  rewrite Hslot. cbn [mbind option_bind].
  rewrite (drop_S _ _ _ Hslot) in Hall. cbn [take] in Hall.
  apply Forall_cons in Hall as [Hno Hrest]. rewrite Hno.
  replace (Z.of_nat i + 1) with (Z.of_nat (S i)) by lia.
  apply IH; [exact Hrest|lia].
Qed.

Lemma find_hid_path_some (slots : list usb_interface_t) (p : string) (k : nat) :
  ∀ (i j : nat) (slot : usb_interface_t),
  (i <= j < i + k)%nat → slots !! j = Some slot →
  safe_strcmp_eq (path slot) (Some p) = true →
  ∃ r, find_hid_path k slots p (Z.of_nat i) = Some (Some r).
Proof.
  induction k as [|k IH]; intros i j slot Hj Hslot Hm; [lia|].
  cbn [find_hid_path]. rewrite aget_of_nat.
  destruct (lookup_lt_is_Some_2 slots i) as [slot_i Hi].
  { apply lookup_lt_Some in Hslot. lia. }
  rewrite Hi. cbn [mbind option_bind].
  destruct (safe_strcmp_eq (path slot_i) (Some p)) eqn:Hmi; [eauto|].
  replace (Z.of_nat i + 1) with (Z.of_nat (S i)) by lia.
  apply (IH (S i) j slot); [|exact Hslot|exact Hm].
  destruct (decide (j = i)) as [->|]; [congruence|lia].
Qed.

(** The search of [unset_hid_interface] stops at the first slot whose
    path is the given one. *)
Lemma find_hid_slot_first (slots : list usb_interface_t) (p q : string) (k : nat) :
  ∀ (i : nat) (extra : nat) (slot : usb_interface_t),
  no_match_before (drop i slots) (Z.of_nat k) p →
  slots !! (i + k)%nat = Some slot → path slot = Some q → strcmp_eq q p = true →
  ∃ evs, find_hid_slot (k + S extra) slots p (Z.of_nat i) = Some (Z.of_nat (i + k), evs).
Proof.
  unfold no_match_before. rewrite Nat2Z.id.
  induction k as [|k IH]; intros i extra slot Hall Hslot Hq Hm.
  - cbn [Nat.add find_hid_slot]. rewrite aget_of_nat.
    replace (i + 0)%nat with i in * by lia. rewrite Hslot. cbn [mbind option_bind].
    rewrite Hq, Hm. eauto.
  - cbn [Nat.add find_hid_slot]. rewrite aget_of_nat.
    destruct (lookup_lt_is_Some_2 slots i) as [slot_i Hi].
    { apply lookup_lt_Some in Hslot. lia. }
    rewrite Hi. cbn [mbind option_bind].
    rewrite (drop_S _ _ _ Hi) in Hall. cbn [take] in Hall.
    apply Forall_cons in Hall as [Hno Hrest].
    replace (Z.of_nat i + 1) with (Z.of_nat (S i)) by lia.
    destruct (IH (S i) extra slot Hrest) as [evs Hevs]; [|exact Hq|exact Hm|].
    { rewrite <- Hslot. f_equal. lia. }
    replace (S i + k)%nat with (i + S k)%nat in Hevs by lia.
    destruct (path slot_i) as [q'|] eqn:Hq'.
    + rewrite (Hno q' eq_refl). eauto.
    + rewrite Hevs. cbn. eauto.
Qed.

(** The loop that shifts the interfaces up, in closed form. *)
Lemma shift_up_spec (k : nat) :
  ∀ (slots : list usb_interface_t) (i : nat),
  (i + k < length slots)%nat →
  shift_up k slots (Z.of_nat i)
  = Some (take i slots ++ take k (drop (S i) slots) ++ drop (i + k) slots).
Proof.
  induction k as [|k IH]; intros slots i Hlen; cbn [shift_up].
  - rewrite take_0. cbn [app]. replace (i + 0)%nat with i by lia.
    rewrite take_drop. reflexivity.
  - replace (Z.of_nat i + 1) with (Z.of_nat (S i)) by lia.
    rewrite aget_of_nat.
    destruct (lookup_lt_is_Some_2 slots (S i) ltac:(lia)) as [next Hnext].
    rewrite Hnext. cbn [mbind option_bind].
    rewrite aset_of_nat by lia. cbn [mbind option_bind].
    rewrite IH by (rewrite length_insert; lia).
    f_equal.
    rewrite (drop_S _ _ _ Hnext). cbn [take].
    rewrite drop_insert_lt by lia.
    rewrite (drop_insert_lt _ (S i + k)) by lia.
    assert (Htake : take (S i) (<[i := next]> slots) = take i slots ++ [next]).
    { rewrite (take_S_r _ _ next).
      - rewrite take_insert_ge by lia. reflexivity.
      - apply list_lookup_insert_eq. lia. }
    rewrite Htake, <- app_assoc. cbn [app].
    replace (S i + k)%nat with (i + S k)%nat by lia. reflexivity.
Qed.

Section WithHeader.
Context `{windows_usb_h}.

Lemma path_unknown_no_match (slots : list usb_interface_t) (nb : Z) (p : string) :
  path_unknown slots nb p → no_match_before slots nb p.
Proof.
  unfold path_unknown, no_match_before. intros Hu.
  eapply Forall_impl; [exact Hu|].
  intros ifc Hno q Hq. cbn beta in Hno. rewrite Hq in Hno. exact Hno.
Qed.

(** What a first [set_hid_interface] of an unknown path does. *)
Lemma set_hid_interface_new (priv : windows_device_priv) (p : string) (nb : Z)
    (slot : usb_interface_t) :
  hid priv = Some (mk_hid nb) →
  0 <= nb < USB_MAXINTERFACES → nb < 255 →
  length (usb_interface priv) = Z.to_nat USB_MAXINTERFACES →
  path_unknown (usb_interface priv) nb p →
  aget (usb_interface priv) nb = Some slot →
  set_hid_interface priv p
  = Some (LIBUSB_SUCCESS,
          set_hid (set_usb_interface priv
                     (<[Z.to_nat nb := mk_usb_interface (Some p) USB_API_HID
                                          (sub_api slot) (endpoint slot)]>
                        (usb_interface priv)))
            (Some (mk_hid (nb + 1))),
          [EvLog LOG_DBG "interface[%d] = %s"]).
Proof.
  intros Hhid Hnb H255 Hlen Hunknown Hslot.
  unfold set_hid_interface. rewrite Hhid. cbn [nb_interfaces].
  destruct (Z.eqb_spec nb USB_MAXINTERFACES) as [|_]; [lia|].
  pose proof (find_hid_path_none (usb_interface priv) p (Z.to_nat nb) 0) as Hfind.
  cbn [drop] in Hfind. change (Z.of_nat 0) with 0 in Hfind.
  rewrite Hfind; [|exact Hunknown|lia]. cbn [mbind option_bind].
  rewrite Hslot. cbn [mbind option_bind].
  unfold aset. rewrite in_bounds_true by lia. cbn [mbind option_bind].
  rewrite uint8_small by lia. reflexivity.
Qed.

(** X14. [set_hid_interface] with a path that is
    not yet known stores it in the first free slot, marks the slot as HID
    and counts one interface more, leaving the other slots alone.  Called
    again with the same path it changes nothing and returns
    [LIBUSB_SUCCESS], unless the first call took the last slot: then the
    check against [USB_MAXINTERFACES] comes first and the second call
    returns [LIBUSB_ERROR_NO_DEVICE] although the path is set. *)
Theorem set_hid_interface_twice (priv : windows_device_priv) (p : string) (nb : Z) :
  hid priv = Some (mk_hid nb) →
  0 <= nb < USB_MAXINTERFACES → nb < 255 →
  length (usb_interface priv) = Z.to_nat USB_MAXINTERFACES →
  path_unknown (usb_interface priv) nb p →
  ∃ priv1 evs1,
    set_hid_interface priv p = Some (LIBUSB_SUCCESS, priv1, evs1)
    ∧ hid priv1 = Some (mk_hid (nb + 1))
    ∧ slot_path priv1 nb = Some p
    ∧ (aget (usb_interface priv1) nb ≫= λ slot, Some (apib slot)) = Some USB_API_HID
    ∧ (∀ j, j ≠ nb → aget (usb_interface priv1) j = aget (usb_interface priv) j)
    ∧ ∃ evs2,
        set_hid_interface priv1 p
        = Some (if nb + 1 =? USB_MAXINTERFACES
                then LIBUSB_ERROR_NO_DEVICE else LIBUSB_SUCCESS,
                priv1, evs2).
Proof.
  intros Hhid Hnb H255 Hlen Hunknown.
  destruct (aget_in_bounds (usb_interface priv) nb ltac:(lia)) as [slot Hslot].
  rewrite (set_hid_interface_new priv p nb slot Hhid Hnb H255 Hlen Hunknown Hslot).
  set (new := mk_usb_interface (Some p) USB_API_HID (sub_api slot) (endpoint slot)).
  set (slots1 := <[Z.to_nat nb := new]> (usb_interface priv)).
  assert (Hnew : slots1 !! Z.to_nat nb = Some new).
  { apply list_lookup_insert_eq. lia. }
  assert (Hget : aget slots1 nb = Some new).
  { apply aget_Some. split; [lia|exact Hnew]. }
  eexists _, _. split; [reflexivity|]. split; [reflexivity|].
  split; [unfold slot_path; cbn; rewrite Hget; reflexivity|].
  split; [cbn; rewrite Hget; reflexivity|].
  split.
  { intros j Hj. cbn. eapply aget_aset_ne; [|intros Heq; apply Hj; symmetry; exact Heq].
    eapply CompositeSlotsFacts.aset_in_range. exact Hslot. }
  unfold set_hid_interface. cbn [hid set_hid set_usb_interface usb_interface nb_interfaces].
  destruct (Z.eqb_spec (nb + 1) USB_MAXINTERFACES) as [Hfull|Hroom]; [eauto|].
  destruct (find_hid_path_some slots1 p (Z.to_nat (nb + 1)) 0 (Z.to_nat nb) new
              ltac:(lia) Hnew) as [r Hr].
  { unfold safe_strcmp_eq. cbn. apply strcmp_eq_refl. }
  change (Z.of_nat 0) with 0 in Hr. fold slots1. rewrite Hr. cbn. eauto.
Qed.

(** X15. Adding an interface path to a HID device
    and removing it again gives the device back as it was, when the slot
    used was blank: [unset_hid_interface] finds the path in the slot
    [set_hid_interface] stored it in, blanks that slot and counts one
    interface less. *)
Theorem hid_set_unset_round_trip (priv : windows_device_priv) (p : string) (nb : Z) :
  hid priv = Some (mk_hid nb) →
  0 <= nb < USB_MAXINTERFACES → nb < 255 →
  length (usb_interface priv) = Z.to_nat USB_MAXINTERFACES →
  path_unknown (usb_interface priv) nb p →
  aget (usb_interface priv) nb = Some blank_interface →
  ∃ priv1 evs1 evs2,
    set_hid_interface priv p = Some (LIBUSB_SUCCESS, priv1, evs1)
    ∧ hid priv1 = Some (mk_hid (nb + 1))
    ∧ unset_hid_interface priv1 p = Some (priv, evs2).
Proof.
  intros Hhid Hnb H255 Hlen Hunknown Hslot.
  rewrite (set_hid_interface_new priv p nb _ Hhid Hnb H255 Hlen Hunknown Hslot).
  cbn [sub_api endpoint blank_interface].
  set (new := mk_usb_interface (Some p) USB_API_HID SUB_API_NOTSET None).
  set (slots1 := <[Z.to_nat nb := new]> (usb_interface priv)).
  assert (Hl : usb_interface priv !! Z.to_nat nb = Some blank_interface).
  { apply aget_Some in Hslot as [_ Hl]. exact Hl. }
  assert (Hnew : slots1 !! (0 + Z.to_nat nb)%nat = Some new).
  { apply list_lookup_insert_eq. lia. }
  destruct (find_hid_slot_first slots1 p p (Z.to_nat nb) 0 0 new) as [evs Hfind].
  { rewrite drop_0. unfold no_match_before. rewrite Nat2Z.id.
    unfold slots1. rewrite take_insert_ge by lia.
    apply path_unknown_no_match in Hunknown. exact Hunknown. }
  { exact Hnew. }
  { reflexivity. }
  { apply strcmp_eq_refl. }
  eexists _, _, _. split; [reflexivity|]. split; [reflexivity|].
  unfold unset_hid_interface. cbn [hid set_hid set_usb_interface usb_interface nb_interfaces].
  fold slots1.
  replace (Z.to_nat (nb + 1)) with (Z.to_nat nb + 1)%nat by lia.
  change (Z.of_nat 0) with 0 in Hfind. rewrite Hfind. cbn [mbind option_bind].
  replace (Z.of_nat (0 + Z.to_nat nb)) with nb by lia.
  destruct (Z.eqb_spec nb (nb + 1)) as [|_]; [lia|].
  replace (Z.to_nat (nb + 1 - 1 - nb)) with 0%nat by lia. cbn [shift_up mbind option_bind].
  replace (nb + 1 - 1) with nb by lia.
  unfold aset. rewrite in_bounds_true by (unfold slots1; rewrite length_insert; lia).
  cbn [mbind option_bind]. unfold slots1.
  rewrite list_insert_insert_eq, (list_insert_id _ _ _ Hl).
  rewrite uint8_small by lia.
  f_equal. f_equal. destruct priv. cbn in *. subst. reflexivity.
Qed.

(** X16. [unset_hid_interface] removes the
    first interface whose path is the given one and keeps the others in
    their order: the interfaces behind it move up by one slot, the slot
    that falls free is blanked, the slots from [nb_interfaces] on are not
    touched, and [nb_interfaces] is one less. *)
Theorem unset_hid_interface_compacts (priv : windows_device_priv) (p q : string)
    (nb n : Z) (slot : usb_interface_t) :
  hid priv = Some (mk_hid nb) →
  0 <= n < nb → nb <= USB_MAXINTERFACES → nb <= 255 →
  length (usb_interface priv) = Z.to_nat USB_MAXINTERFACES →
  aget (usb_interface priv) n = Some slot → path slot = Some q → strcmp_eq q p = true →
  no_match_before (usb_interface priv) n p →
  ∃ priv' evs,
    unset_hid_interface priv p = Some (priv', evs)
    ∧ hid priv' = Some (mk_hid (nb - 1))
    ∧ usb_interface priv'
      = delete (Z.to_nat n) (take (Z.to_nat nb) (usb_interface priv))
        ++ blank_interface :: drop (Z.to_nat nb) (usb_interface priv).
Proof.
  intros Hhid Hn Hnb H255 Hlen Hslot Hq Hm Hbefore.
  assert (Hl : usb_interface priv !! (0 + Z.to_nat n)%nat = Some slot).
  { apply aget_Some in Hslot as [_ Hl]. exact Hl. }
  destruct (find_hid_slot_first (usb_interface priv) p q (Z.to_nat n) 0
              (Z.to_nat (nb - 1 - n)) slot) as [evs Hfind].
  { rewrite drop_0, Z2Nat.id by lia. exact Hbefore. }
  { exact Hl. }
  { exact Hq. }
  { exact Hm. }
  unfold unset_hid_interface. rewrite Hhid. cbn [nb_interfaces].
  set (slots := usb_interface priv) in *.
  set (i := Z.to_nat n) in *. set (k := Z.to_nat (nb - 1 - n)) in *.
  assert (Hnbk : Z.to_nat nb = (i + S k)%nat) by lia.
  rewrite Hnbk.
  change (Z.of_nat 0) with 0 in Hfind. rewrite Hfind. cbn [mbind option_bind].
  replace (Z.of_nat (0 + i)) with n by lia.
  destruct (Z.eqb_spec n nb) as [|_]; [lia|].
  assert (Hshift : shift_up k slots n
                   = Some (take i slots ++ take k (drop (S i) slots) ++ drop (i + k) slots)).
  { rewrite <- (shift_up_spec k slots i) by lia. f_equal. lia. }
  fold k. rewrite Hshift. cbn [mbind option_bind].
  assert (Hli : length (take i slots) = i) by (rewrite length_take; lia).
  assert (Hlk : length (take k (drop (S i) slots)) = k)
    by (rewrite length_take, length_drop; lia).
  match goal with
  | |- context [aset ?X (nb - 1) ?b] =>
      replace (aset X (nb - 1) b) with (aset X (Z.of_nat (i + k)) b) by (f_equal; lia)
  end.
  rewrite aset_of_nat by (rewrite !length_app, Hli, Hlk, length_drop; lia).
  cbn [mbind option_bind]. eexists _, _. split; [reflexivity|].
  cbn [hid set_hid set_usb_interface usb_interface].
  rewrite uint8_small by lia. split; [reflexivity|].
  rewrite delete_take_drop, take_take, Nat.min_l by lia.
  rewrite (app_assoc (take i slots)).
  rewrite insert_app_r_alt by (rewrite length_app, Hli, Hlk; lia).
  rewrite length_app, Hli, Hlk, Nat.sub_diag.
  destruct (lookup_lt_is_Some_2 slots (i + k) ltac:(lia)) as [last Hlast].
  rewrite (drop_S _ _ _ Hlast). cbn [insert list_insert].
  rewrite take_drop_commute.
  replace (S i + k)%nat with (i + S k)%nat by lia.
  replace (S (i + k)) with (i + S k)%nat by lia.
  reflexivity.
Qed.

Variable INTERFACE_CLAIMED : Z.

(** X17. The claim flag of a HID interface.
    Claiming an interface that has a path and is not claimed succeeds,
    marks its device handle with [INTERFACE_CLAIMED], makes it the active
    interface, and leaves its API handle and the other interfaces alone;
    claiming it again fails with [LIBUSB_ERROR_BUSY] and changes nothing.
    Releasing it succeeds once, setting the device handle to
    [INVALID_HANDLE_VALUE]; releasing it again fails with
    [LIBUSB_ERROR_NOT_FOUND]. *)
Theorem hid_claim_release_protocol (priv : windows_device_priv)
    (hp : windows_device_handle_priv) (iface : Z) (slot : usb_interface_t) (p : string)
    (dev_h api_h : Z) :
  INTERFACE_CLAIMED ≠ INVALID_HANDLE_VALUE →
  aget (usb_interface priv) iface = Some slot → path slot = Some p →
  aget (interface_handle hp) iface = Some (dev_h, api_h) →
  dev_h ≠ INTERFACE_CLAIMED →
  ∃ hp1 hp2 evs,
    hid_claim_interface INTERFACE_CLAIMED true priv hp iface = Some (LIBUSB_SUCCESS, hp1, evs)
    ∧ active_interface hp1 = iface
    ∧ aget (interface_handle hp1) iface = Some (INTERFACE_CLAIMED, api_h)
    ∧ (∀ j, j ≠ iface → aget (interface_handle hp1) j = aget (interface_handle hp) j)
    ∧ autoclaim_count hp1 = autoclaim_count hp
    ∧ hid_claim_interface INTERFACE_CLAIMED true priv hp1 iface
      = Some (LIBUSB_ERROR_BUSY, hp1, [])
    ∧ hid_release_interface INTERFACE_CLAIMED true priv hp iface
      = Some (LIBUSB_ERROR_NOT_FOUND, hp)
    ∧ hid_release_interface INTERFACE_CLAIMED true priv hp1 iface
      = Some (LIBUSB_SUCCESS, hp2)
    ∧ aget (interface_handle hp2) iface = Some (INVALID_HANDLE_VALUE, api_h)
    ∧ hid_release_interface INTERFACE_CLAIMED true priv hp2 iface
      = Some (LIBUSB_ERROR_NOT_FOUND, hp2).
Proof.
  intros Hdistinct Hslot Hpath Hhandle Hfree.
  pose proof (CompositeSlotsFacts.aset_in_range (interface_handle hp) iface
                (INTERFACE_CLAIMED, api_h) _ Hhandle) as Hset1.
  set (handles1 := <[Z.to_nat iface := (INTERFACE_CLAIMED, api_h)]> (interface_handle hp))
    in *.
  assert (Hget1 : aget handles1 iface = Some (INTERFACE_CLAIMED, api_h)).
  { eapply aget_aset_eq. exact Hset1. }
  pose proof (CompositeSlotsFacts.aset_in_range handles1 iface
                (INVALID_HANDLE_VALUE, api_h) _ Hget1) as Hset2.
  set (handles2 := <[Z.to_nat iface := (INVALID_HANDLE_VALUE, api_h)]> handles1) in *.
  assert (Hget2 : aget handles2 iface = Some (INVALID_HANDLE_VALUE, api_h)).
  { eapply aget_aset_eq. exact Hset2. }
  exists (mk_handle_priv iface handles1 (autoclaim_count hp)),
         (mk_handle_priv iface handles2 (autoclaim_count hp)),
         [EvLog LOG_DBG "claimed interface %d"].
  unfold hid_claim_interface, hid_release_interface.
  cbn [negb interface_handle active_interface autoclaim_count].
  rewrite Hslot. cbn [mbind option_bind]. rewrite Hpath.
  rewrite Hhandle, Hget1, Hget2. cbn [mbind option_bind].
  rewrite Z.eqb_refl.
  destruct (Z.eqb_spec dev_h INTERFACE_CLAIMED) as [|_]; [contradiction|].
  destruct (Z.eqb_spec INVALID_HANDLE_VALUE INTERFACE_CLAIMED) as [|_]; [congruence|].
  cbn [negb]. rewrite Hset1, Hset2. cbn [mbind option_bind].
  split; [reflexivity|]. split; [reflexivity|]. split; [reflexivity|].
  split; [intros j Hj; eapply aget_aset_ne; [exact Hset1|congruence]|].
  split; [reflexivity|]. split; [reflexivity|]. split; [reflexivity|].
  split; [reflexivity|]. split; reflexivity.
Qed.

End WithHeader.

Lemma hid_two_unknown_COL03 :
  path_unknown (usb_interface hid_two) 2 path_COL03.
Proof. unfold path_unknown. cbn. repeat constructor. Qed.

Lemma set_hid_interface_twice_witness :
  let H := Scenario.header_1_0 in
  hid hid_two = Some (mk_hid 2)
  ∧ 0 <= 2 < USB_MAXINTERFACES ∧ 2 < 255
  ∧ length (usb_interface hid_two) = Z.to_nat USB_MAXINTERFACES
  ∧ path_unknown (usb_interface hid_two) 2 path_COL03
  ∧ ∃ priv1 evs1,
      set_hid_interface hid_two path_COL03 = Some (LIBUSB_SUCCESS, priv1, evs1)
      ∧ hid priv1 = Some (mk_hid 3)
      ∧ slot_path priv1 2 = Some path_COL03
      ∧ ∃ evs2, set_hid_interface priv1 path_COL03 = Some (LIBUSB_SUCCESS, priv1, evs2).
Proof.
  cbn zeta.
  assert (Hnb : 0 <= 2 < @USB_MAXINTERFACES Scenario.header_1_0) by (cbn; lia).
  split; [reflexivity|]. split; [exact Hnb|]. split; [lia|]. split; [reflexivity|].
  split; [exact hid_two_unknown_COL03|].
  destruct (@set_hid_interface_twice Scenario.header_1_0 hid_two path_COL03 2
              eq_refl Hnb ltac:(lia) eq_refl hid_two_unknown_COL03)
    as (priv1 & evs1 & Hset & Hhid & Hpath & _ & _ & Hagain).
  exists priv1, evs1. split; [exact Hset|]. split; [exact Hhid|].
  split; [exact Hpath|exact Hagain].
Defined.

Lemma hid_set_unset_round_trip_witness :
  let H := Scenario.header_1_0 in
  hid hid_two = Some (mk_hid 2)
  ∧ 0 <= 2 < USB_MAXINTERFACES ∧ 2 < 255
  ∧ length (usb_interface hid_two) = Z.to_nat USB_MAXINTERFACES
  ∧ path_unknown (usb_interface hid_two) 2 path_COL03
  ∧ aget (usb_interface hid_two) 2 = Some blank_interface
  ∧ ∃ priv1 evs1 evs2,
      set_hid_interface hid_two path_COL03 = Some (LIBUSB_SUCCESS, priv1, evs1)
      ∧ hid priv1 = Some (mk_hid 3)
      ∧ unset_hid_interface priv1 path_COL03 = Some (hid_two, evs2).
Proof.
  cbn zeta.
  assert (Hnb : 0 <= 2 < @USB_MAXINTERFACES Scenario.header_1_0) by (cbn; lia).
  split; [reflexivity|]. split; [exact Hnb|]. split; [lia|]. split; [reflexivity|].
  split; [exact hid_two_unknown_COL03|]. split; [reflexivity|].
  exact (@hid_set_unset_round_trip Scenario.header_1_0 hid_two path_COL03 2
           eq_refl Hnb ltac:(lia) eq_refl hid_two_unknown_COL03 eq_refl).
Defined.

Lemma unset_hid_interface_compacts_witness :
  let H := Scenario.header_1_0 in
  hid hid_two = Some (mk_hid 2)
  ∧ 0 <= 0 < 2 ∧ 2 <= USB_MAXINTERFACES ∧ 2 <= 255
  ∧ length (usb_interface hid_two) = Z.to_nat USB_MAXINTERFACES
  ∧ strcmp_eq path_COL01 path_COL01 = true
  ∧ no_match_before (usb_interface hid_two) 0 path_COL01
  ∧ ∃ priv' evs,
      unset_hid_interface hid_two path_COL01 = Some (priv', evs)
      ∧ hid priv' = Some (mk_hid 1)
      ∧ slot_path priv' 0 = Some path_COL02
      ∧ slot_path priv' 1 = None.
Proof.
  cbn zeta.
  assert (Hnb : 2 <= @USB_MAXINTERFACES Scenario.header_1_0) by (cbn; lia).
  assert (Hm : strcmp_eq path_COL01 path_COL01 = true) by (vm_compute; reflexivity).
  assert (Hbefore : no_match_before (usb_interface hid_two) 0 path_COL01).
  { unfold no_match_before. cbn. constructor. }
  split; [reflexivity|]. split; [lia|]. split; [exact Hnb|]. split; [lia|].
  split; [reflexivity|]. split; [exact Hm|]. split; [exact Hbefore|].
  destruct (@unset_hid_interface_compacts Scenario.header_1_0 hid_two path_COL01 path_COL01
              2 0 _ eq_refl ltac:(lia) Hnb ltac:(lia) eq_refl eq_refl eq_refl Hm Hbefore)
    as (priv' & evs & Hunset & Hhid & Hslots).
  exists priv', evs. split; [exact Hunset|]. split; [exact Hhid|].
  unfold slot_path. rewrite Hslots. split; reflexivity.
Defined.

Lemma hid_claim_release_protocol_witness :
  let H := Scenario.header_1_0 in
  INTERFACE_CLAIMED_1_0 ≠ INVALID_HANDLE_VALUE
  ∧ (aget (usb_interface hid_two) 1 ≫= path) = Some path_COL02
  ∧ aget (interface_handle hid_handle) 1 = Some (INVALID_HANDLE_VALUE, 4661)
  ∧ ∃ hp1 hp2 evs,
      hid_claim_interface INTERFACE_CLAIMED_1_0 true hid_two hid_handle 1
        = Some (LIBUSB_SUCCESS, hp1, evs)
      ∧ hid_claim_interface INTERFACE_CLAIMED_1_0 true hid_two hp1 1
        = Some (LIBUSB_ERROR_BUSY, hp1, [])
      ∧ hid_release_interface INTERFACE_CLAIMED_1_0 true hid_two hp1 1
        = Some (LIBUSB_SUCCESS, hp2)
      ∧ hid_release_interface INTERFACE_CLAIMED_1_0 true hid_two hp2 1
        = Some (LIBUSB_ERROR_NOT_FOUND, hp2).
Proof.
  cbn zeta.
  assert (Hd : INTERFACE_CLAIMED_1_0 ≠ INVALID_HANDLE_VALUE) by discriminate.
  split; [exact Hd|]. split; [reflexivity|]. split; [reflexivity|].
  destruct (hid_claim_release_protocol INTERFACE_CLAIMED_1_0 hid_two hid_handle 1 _
              path_COL02 INVALID_HANDLE_VALUE 4661 Hd eq_refl eq_refl eq_refl
              ltac:(discriminate))
    as (hp1 & hp2 & evs & Hclaim & _ & _ & _ & _ & Hbusy & _ & Hrel & _ & Hrel2).
  exists hp1, hp2, evs. split; [exact Hclaim|]. split; [exact Hbusy|].
  split; [exact Hrel|exact Hrel2].
Defined.

End HidInterfaceFacts.

(** ** The descriptor cache: what the caller is told, and what it gets back *)

Module ConfigCacheFacts.
Import Ctypes Carray Libusb Enumerate Descriptor ConfigCache CtypesFacts DescriptorFacts.

(** One round of the loop always comes to an end, and the codes it can
    leave are few. *)
Lemma cache_one_outcome (io : config_io) :
  ∃ step, cache_one io = Some step
          ∧ match step with
            | CacheBreak r _ => r = LIBUSB_ERROR_IO ∨ r = LIBUSB_ERROR_NO_MEM
            | CacheReturn r _ => r = LIBUSB_ERROR_NO_MEM
            | CacheStored blob _ => blob_wf blob
            end.
Proof.
  destruct (cache_one io) as [step|] eqn:Hone.
  - exists step. split; [reflexivity|]. destruct step as [r evs|r evs|blob evs].
    + revert Hone. unfold cache_one.
      destruct (io_dummy io) as [[ret_size total]|]; [|intros [= <- _]; auto].
      destruct (negb _ || _); [intros [= <- _]; auto|].
      destruct (negb (io_calloc_ok io)); [intros [= <- _]; auto|].
      destruct (io_actual io) as [[ret_size' written]|]; [|intros [= <- _]; auto].
      destruct (wTotalLength _) as [cd_total|]; [|discriminate]. cbn.
      destruct (negb _ || negb _); [intros [= <- _]; auto|].
      destruct (aget _ 1) as [ty|]; [|discriminate]. cbn.
      destruct (negb (ty =? _)); [intros [= <- _]; auto|].
      destruct (negb (io_malloc_ok io)); discriminate.
    + revert Hone. unfold cache_one.
      destruct (io_dummy io) as [[ret_size total]|]; [|discriminate].
      destruct (negb _ || _); [discriminate|].
      destruct (negb (io_calloc_ok io)); [discriminate|].
      destruct (io_actual io) as [[ret_size' written]|]; [|discriminate].
      destruct (wTotalLength _) as [cd_total|]; [|discriminate]. cbn.
      destruct (negb _ || negb _); [discriminate|].
      destruct (aget _ 1) as [ty|]; [|discriminate]. cbn.
      destruct (negb (ty =? _)); [discriminate|].
      destruct (negb (io_malloc_ok io)); [intros [= <- _]; reflexivity|discriminate].
    + eapply cache_one_stored_wf. exact Hone.
  - exfalso. revert Hone. unfold cache_one.
    destruct (io_dummy io) as [[ret_size total]|]; [|discriminate].
    destruct (negb _ || _) eqn:Hchk; [discriminate|].
    apply orb_false_iff in Hchk as [_ Htot]. apply Z.ltb_ge in Htot.
    unfold sizeof_USB_CONFIGURATION_DESCRIPTOR in Htot.
    destruct (negb (io_calloc_ok io)); [discriminate|].
    destruct (io_actual io) as [[ret_size' written]|]; [|discriminate].
    set (cd_data := take (Z.to_nat total) (written ++ replicate (Z.to_nat total) 0)).
    assert (Hlen : length cd_data = Z.to_nat total).
    { unfold cd_data. rewrite length_take, length_app, length_replicate. lia. }
    destruct (aget_in_bounds cd_data 2 ltac:(lia)) as [lo Hlo].
    destruct (aget_in_bounds cd_data 3 ltac:(lia)) as [hi Hhi].
    destruct (aget_in_bounds cd_data 1 ltac:(lia)) as [ty Hty].
    unfold wTotalLength. rewrite Hlo, Hhi. cbn.
    destruct (negb _ || negb _); [discriminate|].
    rewrite Hty. cbn.
    destruct (negb (ty =? _)); [discriminate|].
    destruct (negb (io_malloc_ok io)); discriminate.
Qed.

Definition entries_wf (descs : list (option (list Z))) : Prop :=
  Forall (λ d, ∀ blob, d = Some blob → blob_wf blob) descs.

(** The loop: it comes to an end, keeps the entries well formed, returns
    [LIBUSB_SUCCESS] or [LIBUSB_ERROR_NO_MEM], and leaves the device and
    the log as the loop with the value of [r] does. *)
Lemma cache_loop_outcome (hub : Z → config_io) (n : nat) :
  ∀ (i : Z) (descs : list (option (list Z))) (evs : list event),
  0 <= i → i + Z.of_nat n <= 256 → i + Z.of_nat n <= Z.of_nat (length descs) →
  entries_wf descs →
  ∃ r r_loop descs' evs',
    ConfigCache.cache_loop n hub i descs evs = Some (r, descs', evs')
    ∧ Enumerate.cache_loop n hub i descs evs = Some (r_loop, descs', evs')
    ∧ length descs' = length descs ∧ entries_wf descs'
    ∧ (r = LIBUSB_SUCCESS ∨ (r = LIBUSB_ERROR_NO_MEM ∧ r_loop = r)).
Proof.
  induction n as [|n IH]; intros i descs evs Hi H256 Hlen Hwf;
    cbn [ConfigCache.cache_loop Enumerate.cache_loop].
  - exists LIBUSB_SUCCESS, LIBUSB_SUCCESS, descs, evs. auto 10.
  - destruct (cache_one_outcome (hub i)) as (step & -> & Hstep). cbn [mbind option_bind].
    destruct step as [r evs1|r evs1|blob evs1].
    + exists LIBUSB_SUCCESS, r, descs, (evs ++ evs1). auto 10.
    + exists r, r, descs, (evs ++ evs1). subst r. auto 10.
    + destruct (aset descs i (Some blob)) as [descs1|] eqn:Hset.
      2:{ exfalso. unfold aset in Hset. rewrite in_bounds_true in Hset by lia. discriminate. }
      cbn [mbind option_bind].
      assert (Hi1 : uint8 (i + 1) = i + 1 ∨ n = O).
      { destruct n; [right; reflexivity|left; apply uint8_small; lia]. }
      pose proof (length_aset _ _ _ _ Hset) as Hlen1.
      assert (Hwf1 : entries_wf descs1).
      { unfold aset in Hset. destruct (in_bounds descs i); [|discriminate].
        injection Hset as <-. apply Forall_insert; [exact Hwf|].
        intros b [= <-]. exact Hstep. }
      destruct Hi1 as [-> | ->].
      * destruct (IH (i + 1) descs1 (evs ++ evs1) ltac:(lia) ltac:(lia) ltac:(lia) Hwf1)
          as (r & r_loop & descs' & evs' & H1 & H2 & H3 & H4 & H5).
        exists r, r_loop, descs', evs'. rewrite H1, H2.
        split; [reflexivity|]. split; [reflexivity|]. split; [congruence|]. auto.
      * cbn. exists LIBUSB_SUCCESS, LIBUSB_SUCCESS, descs1, (evs ++ evs1).
        split; [reflexivity|]. split; [reflexivity|]. split; [congruence|]. auto.
Qed.

(** The loop when the hub answers for the configurations below [k] and
    fails a request for configuration [k], if there is one. *)
Lemma cache_loop_stored (hub : Z → config_io) (k : Z) (n : nat) :
  ∀ (i : Z) (descs : list (option (list Z))) (evs : list event),
  0 <= i <= k → k <= i + Z.of_nat n → i + Z.of_nat n <= 255 →
  i + Z.of_nat n <= Z.of_nat (length descs) →
  (∀ j, i <= j < k → ∃ blob e, cache_one (hub j) = Some (CacheStored blob e)) →
  (k = i + Z.of_nat n ∨ ∃ r e, cache_one (hub k) = Some (CacheBreak r e)) →
  ∃ descs' evs',
    ConfigCache.cache_loop n hub i descs evs = Some (LIBUSB_SUCCESS, descs', evs')
    ∧ length descs' = length descs
    ∧ (∀ j blob e, i <= j < k → cache_one (hub j) = Some (CacheStored blob e) →
         aget descs' j = Some (Some blob))
    ∧ (∀ j, ¬ (i <= j < k) → aget descs' j = aget descs j).
Proof.
  induction n as [|n IH]; intros i descs evs Hi Hk H255 Hlen Hstored Hlast;
    cbn [ConfigCache.cache_loop].
  - exists descs, evs. split; [reflexivity|]. split; [reflexivity|].
    split; [intros j blob e Hj; lia|auto].
  - destruct (Z.eq_dec i k) as [->|Hik].
    + destruct Hlast as [|(r & e & ->)]; [lia|]. cbn [mbind option_bind].
      exists descs, (evs ++ e). split; [reflexivity|]. split; [reflexivity|].
      split; [intros j blob e' Hj; lia|auto].
    + destruct (Hstored i ltac:(lia)) as (blob & e & Hone). rewrite Hone.
      cbn [mbind option_bind].
      destruct (aset descs i (Some blob)) as [descs1|] eqn:Hset.
      2:{ exfalso. unfold aset in Hset. rewrite in_bounds_true in Hset by lia. discriminate. }
      cbn [mbind option_bind]. rewrite uint8_small by lia.
      pose proof (length_aset _ _ _ _ Hset) as Hlen1.
      destruct (IH (i + 1) descs1 (evs ++ e) ltac:(lia) ltac:(lia) ltac:(lia) ltac:(lia))
        as (descs' & evs' & Hloop & Hlen' & Hin & Hout).
      { intros j Hj. apply Hstored. lia. }
      { destruct Hlast as [->|Hbreak]; [left; lia|right; exact Hbreak]. }
      exists descs', evs'. split; [exact Hloop|]. split; [congruence|]. split.
      * intros j blob' e' Hj Hone'.
        destruct (Z.eq_dec j i) as [->|Hji].
        -- rewrite Hout by lia. rewrite Hone in Hone'. injection Hone' as <- <-.
           eapply aget_aset_eq. exact Hset.
        -- eapply Hin; [lia|exact Hone'].
      * intros j Hj. rewrite Hout by lia. eapply aget_aset_ne; [exact Hset|lia].
Qed.

(** What [windows_get_config_descriptor] does on a well-formed cache. *)
Lemma windows_get_config_descriptor_safe (dev : libusb_device) (config_index : Z)
    (buffer : list Z) (len : Z) :
  cache_wf dev → 0 <= len <= Z.of_nat (length buffer) → 0 <= config_index →
  ∃ r buffer',
    windows_get_config_descriptor dev config_index buffer len = Some (r, buffer')
    ∧ length buffer' = length buffer
    ∧ (((r = LIBUSB_ERROR_NOT_FOUND ∨ r = LIBUSB_ERROR_INVALID_PARAM) ∧ buffer' = buffer)
       ∨ (0 <= r <= len ∧ drop (Z.to_nat r) buffer' = drop (Z.to_nat r) buffer)).
Proof.
  intros Hwf Hlen Hidx. unfold windows_get_config_descriptor.
  destruct (Z.leb_spec (num_configurations dev) config_index) as [|Hlt].
  { exists LIBUSB_ERROR_INVALID_PARAM, buffer. auto 10. }
  destruct (config_descriptor (os_priv dev)) as [descs|] eqn:Hdescs.
  2:{ exists LIBUSB_ERROR_NOT_FOUND, buffer. auto 10. }
  destruct (Hwf descs Hdescs) as [Hn Hall].
  destruct (aget_in_bounds descs config_index ltac:(lia)) as [d Hd].
  rewrite Hd. cbn [mbind option_bind].
  destruct d as [blob|].
  2:{ exists LIBUSB_ERROR_NOT_FOUND, buffer. auto 10. }
  assert (Hblob : blob_wf blob).
  { apply aget_Some in Hd as [_ Hl].
    eapply (proj1 (Forall_lookup _ _) Hall); [exact Hl|reflexivity]. }
  unfold blob_wf in Hblob. rewrite Hblob. cbn [mbind option_bind].
  set (size := Z.min (Z.of_nat (length blob)) len). unfold memcpy_to.
  assert (Hsize : 0 <= size ∧ size <= Z.of_nat (length buffer)
                  ∧ size <= Z.of_nat (length blob)) by (unfold size; lia).
  destruct Hsize as (H0 & H1 & H2).
  destruct (Z.leb_spec 0 size); [|lia].
  destruct (Z.leb_spec size (Z.of_nat (length buffer))); [|lia].
  destruct (Z.leb_spec size (Z.of_nat (length blob))); [|lia].
  cbn. eexists _, _. split; [reflexivity|].
  split.
  - rewrite length_app, length_take, length_drop. lia.
  - right. split; [unfold size; lia|].
    rewrite drop_app_length'; [reflexivity|]. rewrite length_take. lia.
Qed.

(** The value [cache_config_descriptors] returns against the value of
    [r] when its loop is left, which [Enumerate.cache_config_descriptors]
    gives: the device and the log are the same, and the two values differ
    only when [LOOP_BREAK] has stored an error in [r], which the function
    does not return. *)
Lemma cache_config_descriptors_loop_value (calloc_ok : bool) (hub : Z → config_io)
    (dev : libusb_device) :
  0 <= num_configurations dev <= 255 →
  ∃ r r_loop dev' evs,
    ConfigCache.cache_config_descriptors calloc_ok hub dev = Some (r, dev', evs)
    ∧ Enumerate.cache_config_descriptors calloc_ok hub dev = Some (r_loop, dev', evs)
    ∧ (r = r_loop ∨ (r = LIBUSB_SUCCESS
                     ∧ (r_loop = LIBUSB_ERROR_IO ∨ r_loop = LIBUSB_ERROR_NO_MEM)))
    ∧ (num_configurations dev = 0 → r = LIBUSB_ERROR_INVALID_PARAM ∧ dev' = dev)
    ∧ (num_configurations dev ≠ 0 →
         (r = LIBUSB_SUCCESS ∨ r = LIBUSB_ERROR_NO_MEM)
         ∧ num_configurations dev' = num_configurations dev
         ∧ cache_wf dev').
Proof.
  intros Hn.
  unfold ConfigCache.cache_config_descriptors, Enumerate.cache_config_descriptors.
  destruct (Z.eqb_spec (num_configurations dev) 0) as [Hzero|Hpos].
  { exists LIBUSB_ERROR_INVALID_PARAM, LIBUSB_ERROR_INVALID_PARAM, dev, [].
    split; [reflexivity|]. split; [reflexivity|]. split; [auto|].
    split; [auto|contradiction]. }
  destruct calloc_ok; cbn [negb].
  2:{ eexists LIBUSB_ERROR_NO_MEM, LIBUSB_ERROR_NO_MEM, _, [].
      split; [reflexivity|]. split; [reflexivity|]. split; [auto|].
      split; [contradiction|]. intros _. split; [auto|]. split; [reflexivity|].
      intros descs. cbn. discriminate. }
  destruct (cache_loop_outcome hub (Z.to_nat (num_configurations dev)) 0
              (replicate (Z.to_nat (num_configurations dev)) None) [])
    as (r & r_loop & descs' & evs' & H1 & H2 & Hlen & Hwf & Hr).
  { lia. }
  { lia. }
  { rewrite length_replicate. lia. }
  { apply Forall_forall. intros d Hd blob ->.
    apply elem_of_replicate in Hd as [Hd _]. discriminate. }
  rewrite H1, H2. cbn [mbind option_bind].
  eexists r, r_loop, _, evs'. split; [reflexivity|]. split; [reflexivity|].
  assert (Hloop : r_loop = LIBUSB_SUCCESS ∨ r_loop = LIBUSB_ERROR_IO
                  ∨ r_loop = LIBUSB_ERROR_NO_MEM ∨ r = r_loop).
  { destruct Hr as [->|[-> ->]]; [|auto].
    clear -H2. revert H2.
    generalize (replicate (Z.to_nat (num_configurations dev)) (@None (list Z))).
    generalize (@nil event). generalize 0.
    induction (Z.to_nat (num_configurations dev)) as [|n IH]; intros i evs descs;
      cbn [Enumerate.cache_loop].
    - intros [= <- _ _]. auto.
    - destruct (cache_one_outcome (hub i)) as (step & -> & Hstep). cbn [mbind option_bind].
      destruct step as [r evs1|r evs1|blob evs1].
      + intros [= <- _ _]. destruct Hstep; auto.
      + intros [= <- _ _]. auto.
      + destruct (aset descs i (Some blob)); [|discriminate]. cbn [mbind option_bind].
        apply IH. }
  split.
  { destruct Hr as [->|[-> ->]]; [|auto].
    destruct Hloop as [->|[->|[->|<-]]]; auto. }
  split; [contradiction|]. intros _.
  split; [destruct Hr as [->|[-> _]]; auto|]. split; [reflexivity|].
  intros descs. cbn. intros [= <-]. split; [|exact Hwf].
  rewrite Hlen, length_replicate. reflexivity.
Qed.

(** X18. [cache_config_descriptors] never
    tells its caller of a failed request: for a device with 1 to 255
    configurations it returns [LIBUSB_SUCCESS], also when [LOOP_BREAK] has
    stored an error in [r], unless the array of pointers or the copy of a
    descriptor cannot be allocated ([LIBUSB_ERROR_NO_MEM]); with no
    configuration it returns
    [LIBUSB_ERROR_INVALID_PARAM] and leaves the device as it is.  The
    cache it leaves has one entry per configuration, each NULL or a
    descriptor as long as its [wTotalLength] says. *)
Theorem cache_config_descriptors_returns (calloc_ok : bool) (hub : Z → config_io)
    (dev : libusb_device) :
  0 <= num_configurations dev <= 255 →
  ∃ r dev' evs,
    ConfigCache.cache_config_descriptors calloc_ok hub dev = Some (r, dev', evs)
    ∧ r ≠ LIBUSB_ERROR_IO
    ∧ (num_configurations dev = 0 → r = LIBUSB_ERROR_INVALID_PARAM ∧ dev' = dev)
    ∧ (num_configurations dev ≠ 0 →
         (r = LIBUSB_SUCCESS ∨ r = LIBUSB_ERROR_NO_MEM)
         ∧ (calloc_ok = true →
            (∀ i, io_malloc_ok (hub i) = true) →
            r = LIBUSB_SUCCESS)
         ∧ num_configurations dev' = num_configurations dev
         ∧ cache_wf dev').
Proof.
  intros Hn.
  destruct (cache_config_descriptors_loop_value calloc_ok hub dev Hn)
    as (r & r_loop & dev' & evs & Hrun & Hloop & Hrel & Hzero & Hpos).
  exists r, dev', evs. split; [exact Hrun|].
  split.
  { destruct (Z.eq_dec (num_configurations dev) 0) as [H0|H0].
    - destruct (Hzero H0) as [-> _]. discriminate.
    - destruct (Hpos H0) as ([-> | ->] & _); discriminate. }
  split; [exact Hzero|]. intros H0.
  destruct (Hpos H0) as (Hr & Hnum & Hwf).
  split; [exact Hr|]. split; [|split; [exact Hnum|exact Hwf]].
  intros -> Hmem. destruct Hr as [Hr|Hr]; [exact Hr|]. exfalso. subst r.
  revert Hrun. unfold ConfigCache.cache_config_descriptors.
  destruct (Z.eqb_spec (num_configurations dev) 0) as [|_]; [contradiction|].
  cbn [negb].
  generalize (replicate (Z.to_nat (num_configurations dev)) (@None (list Z))).
  generalize (@nil event). generalize 0.
  induction (Z.to_nat (num_configurations dev)) as [|n IH]; intros i evs0 descs;
    cbn [ConfigCache.cache_loop].
  - cbn. discriminate.
  - destruct (cache_one (hub i)) as [step|] eqn:Hone; [|discriminate].
    cbn [mbind option_bind].
    destruct step as [r evs1|r evs1|blob evs1].
    + cbn. discriminate.
    + exfalso. pose proof (Hmem i) as Hmalloc. revert Hone. unfold cache_one.
      destruct (io_dummy (hub i)) as [[ret_size total]|]; [|discriminate].
      destruct (negb _ || _); [discriminate|].
      destruct (negb (io_calloc_ok (hub i))); [discriminate|].
      destruct (io_actual (hub i)) as [[ret_size' written]|]; [|discriminate].
      destruct (wTotalLength _) as [cd_total|]; [|discriminate]. cbn.
      destruct (negb _ || negb _); [discriminate|].
      destruct (aget _ 1) as [ty|]; [|discriminate]. cbn.
      destruct (negb (ty =? _)); [discriminate|].
      rewrite Hmalloc. discriminate.
    + destruct (aset descs i (Some blob)) as [descs1|]; [|discriminate].
      cbn [mbind option_bind]. apply IH.
Qed.

(** X19. What is cached is what is read back.  When the hub
    answers the requests for the configurations below [k] and fails a
    request for configuration [k] (or [k] is the number of
    configurations), [cache_config_descriptors] returns [LIBUSB_SUCCESS]
    and keeps the number of configurations; [windows_get_config_descriptor]
    then hands out, for an index below [k], the first [len] bytes of the
    descriptor the hub sent, and for an index from [k] on, although it is
    below the number of configurations, [LIBUSB_ERROR_NOT_FOUND]. *)
Theorem cache_then_get (hub : Z → config_io) (dev : libusb_device) (k : Z) :
  0 < num_configurations dev <= 255 →
  0 <= k <= num_configurations dev →
  (∀ j, 0 <= j < k → ∃ blob e, cache_one (hub j) = Some (CacheStored blob e)) →
  (k = num_configurations dev ∨ ∃ r e, cache_one (hub k) = Some (CacheBreak r e)) →
  ∃ dev' evs,
    ConfigCache.cache_config_descriptors true hub dev = Some (LIBUSB_SUCCESS, dev', evs)
    ∧ num_configurations dev' = num_configurations dev
    ∧ (∀ j blob e buffer len,
         0 <= j < k → cache_one (hub j) = Some (CacheStored blob e) →
         0 <= len <= Z.of_nat (length buffer) →
         windows_get_config_descriptor dev' j buffer len
         = Some (Z.min (Z.of_nat (length blob)) len,
                 take (Z.to_nat (Z.min (Z.of_nat (length blob)) len)) blob
                 ++ drop (Z.to_nat (Z.min (Z.of_nat (length blob)) len)) buffer))
    ∧ (∀ j buffer len,
         k <= j < num_configurations dev →
         windows_get_config_descriptor dev' j buffer len
         = Some (LIBUSB_ERROR_NOT_FOUND, buffer)).
Proof.
  intros Hn Hk Hstored Hlast.
  unfold ConfigCache.cache_config_descriptors.
  destruct (Z.eqb_spec (num_configurations dev) 0) as [|_]; [lia|]. cbn [negb].
  destruct (cache_loop_stored hub k (Z.to_nat (num_configurations dev)) 0
              (replicate (Z.to_nat (num_configurations dev)) None) [])
    as (descs' & evs' & Hloop & Hlen & Hin & Hout).
  { lia. }
  { lia. }
  { lia. }
  { rewrite length_replicate. lia. }
  { exact Hstored. }
  { destruct Hlast as [->|Hbreak]; [left; lia|right; exact Hbreak]. }
  rewrite Hloop. cbn [mbind option_bind].
  eexists _, _. split; [reflexivity|]. split; [reflexivity|].
  rewrite length_replicate in Hlen.
  split.
  - intros j blob e buffer len Hj Hone Hlenb.
    unfold windows_get_config_descriptor. cbn [num_configurations set_priv os_priv
      set_config_descriptor config_descriptor].
    destruct (Z.leb_spec (num_configurations dev) j) as [|_]; [lia|].
    rewrite (Hin j blob e Hj Hone). cbn [mbind option_bind].
    destruct (cache_one_outcome (hub j)) as (step & Hstep & Hwf).
    rewrite Hone in Hstep. injection Hstep as <-.
    unfold blob_wf in Hwf. rewrite Hwf. cbn [mbind option_bind].
    set (size := Z.min (Z.of_nat (length blob)) len). unfold memcpy_to.
    assert (Hsize : 0 <= size ∧ size <= Z.of_nat (length buffer)
                    ∧ size <= Z.of_nat (length blob)) by (unfold size; lia).
    destruct Hsize as (H0 & H1 & H2).
    destruct (Z.leb_spec 0 size); [|lia].
    destruct (Z.leb_spec size (Z.of_nat (length buffer))); [|lia].
    destruct (Z.leb_spec size (Z.of_nat (length blob))); [|lia].
    reflexivity.
  - intros j buffer len Hj.
    unfold windows_get_config_descriptor. cbn [num_configurations set_priv os_priv
      set_config_descriptor config_descriptor].
    destruct (Z.leb_spec (num_configurations dev) j) as [|_]; [lia|].
    rewrite Hout by lia.
    unfold aget. rewrite in_bounds_true by (rewrite length_replicate; lia).
    rewrite lookup_replicate_2 by lia. reflexivity.
Qed.

(** X20. On a well-formed cache
    [windows_get_active_config_descriptor] always returns, and it never
    writes beyond the length the caller gave: the result is
    [LIBUSB_ERROR_NOT_FOUND] (always so when no configuration is active)
    or [LIBUSB_ERROR_INVALID_PARAM] with the buffer untouched, or a count
    between 0 and [len] with the buffer unchanged from that count on. *)
Theorem windows_get_active_config_descriptor_safe (dev : libusb_device)
    (buffer : list Z) (len : Z) :
  cache_wf dev → 0 <= len <= Z.of_nat (length buffer) →
  ∃ r buffer',
    windows_get_active_config_descriptor dev buffer len = Some (r, buffer')
    ∧ length buffer' = length buffer
    ∧ (active_config (os_priv dev) = 0 → r = LIBUSB_ERROR_NOT_FOUND)
    ∧ (((r = LIBUSB_ERROR_NOT_FOUND ∨ r = LIBUSB_ERROR_INVALID_PARAM) ∧ buffer' = buffer)
       ∨ (0 <= r <= len ∧ drop (Z.to_nat r) buffer' = drop (Z.to_nat r) buffer)).
Proof.
  intros Hwf Hlen. unfold windows_get_active_config_descriptor.
  destruct (Z.eqb_spec (active_config (os_priv dev)) 0) as [Hzero|Hactive].
  { exists LIBUSB_ERROR_NOT_FOUND, buffer. auto 10. }
  destruct (windows_get_config_descriptor_safe dev
              (uint8 (active_config (os_priv dev) - 1)) buffer len Hwf Hlen)
    as (r & buffer' & Hget & Hl & Hcase).
  { unfold uint8. apply Z.mod_pos_bound. lia. }
  exists r, buffer'. split; [exact Hget|]. split; [exact Hl|].
  split; [contradiction|exact Hcase].
Qed.

Lemma cache_config_descriptors_returns_witness :
  let dev := three_configurations in
  0 <= num_configurations dev <= 255
  ∧ ∃ dev' evs,
      ConfigCache.cache_config_descriptors true (hub_answers_below 1) dev
        = Some (LIBUSB_SUCCESS, dev', evs)
      ∧ num_configurations dev' = 3
      ∧ config_descriptor (os_priv dev') = Some [Some Scenario.config_blob; None; None].
Proof.
  cbn zeta.
  assert (Hn : 0 <= num_configurations three_configurations <= 255) by (cbn; lia).
  split; [exact Hn|].
  destruct (cache_config_descriptors_returns true (hub_answers_below 1)
              three_configurations Hn)
    as (r & dev' & evs & Hrun & _).
  exists dev', evs.
  assert (Hr : r = LIBUSB_SUCCESS
               ∧ num_configurations dev' = 3
               ∧ config_descriptor (os_priv dev')
                 = Some [Some Scenario.config_blob; None; None]).
  { vm_compute in Hrun. injection Hrun as <- <- <-. repeat split; reflexivity. }
  destruct Hr as (-> & Hnum & Hdescs).
  split; [exact Hrun|]. split; [exact Hnum|exact Hdescs].
Defined.

Lemma cache_then_get_witness :
  let dev := three_configurations in
  0 < num_configurations dev <= 255 ∧ 0 <= 1 <= num_configurations dev
  ∧ ∃ dev' evs,
      ConfigCache.cache_config_descriptors true (hub_answers_below 1) dev
        = Some (LIBUSB_SUCCESS, dev', evs)
      ∧ windows_get_config_descriptor dev' 0 (replicate 9 0) 9
        = Some (9, [9; 2; 25; 0; 1; 1; 0; 128; 50])
      ∧ windows_get_config_descriptor dev' 1 (replicate 9 0) 9
        = Some (LIBUSB_ERROR_NOT_FOUND, replicate 9 0).
Proof.
  cbn zeta.
  assert (Hn : 0 < num_configurations three_configurations <= 255) by (cbn; lia).
  assert (Hk : 0 <= 1 <= num_configurations three_configurations) by (cbn; lia).
  split; [exact Hn|]. split; [exact Hk|].
  assert (Hone : ∀ j, 0 <= j < 1 →
            cache_one (hub_answers_below 1 j)
            = Some (CacheStored Scenario.config_blob
                      [EvLog LOG_DBG
                         "cached config descriptor %d (bConfigurationValue=%d, %d bytes)"])).
  { intros j Hj. assert (j = 0) as -> by lia. vm_compute. reflexivity. }
  destruct (cache_then_get (hub_answers_below 1) three_configurations 1 Hn Hk)
    as (dev' & evs & Hcache & _ & Hget & Hmissing).
  { intros j Hj. eexists _, _. apply Hone. exact Hj. }
  { right. eexists _, _. vm_compute. reflexivity. }
  exists dev', evs. split; [exact Hcache|]. split.
  - rewrite (Hget 0 _ _ (replicate 9 0) 9 ltac:(lia) (Hone 0 ltac:(lia)) ltac:(cbn; lia)).
    reflexivity.
  - apply Hmissing. cbn. lia.
Defined.

Lemma windows_get_active_config_descriptor_safe_witness :
  let dev := Scenario.configured_device in
  cache_wf dev ∧ 0 <= 9 <= Z.of_nat (length (replicate 9 0))
  ∧ windows_get_active_config_descriptor dev (replicate 9 0) 9
    = Some (9, [9; 2; 25; 0; 1; 1; 0; 128; 50]).
Proof.
  cbn zeta.
  assert (Hwf : cache_wf Scenario.configured_device).
  { intros descs. cbn. intros [= <-]. split; [reflexivity|].
    constructor; [|constructor]. intros blob [= <-]. reflexivity. }
  assert (Hlen : 0 <= 9 <= Z.of_nat (length (replicate 9 0))) by (cbn; lia).
  split; [exact Hwf|]. split; [exact Hlen|].
  destruct (windows_get_active_config_descriptor_safe Scenario.configured_device
              (replicate 9 0) 9 Hwf Hlen) as (r & buffer' & Hget & _).
  rewrite Hget. vm_compute in Hget. symmetry. exact Hget.
Defined.

End ConfigCacheFacts.

(** ** Reading a HID report back into the transfer's buffer *)

Module HidCopyFacts.
Import Ctypes Carray Libusb Transfer CtypesFacts.


(** X22. The edge the function does not
    guard: when a report with identifier 0 completes with no byte at all
    (or none is expected), [corrected_size--] wraps around to 2^32 - 1 and
    [memcpy] is asked for that many bytes, which no report buffer
    holds. *)
Theorem hid_copy_transfer_data_empty_report (it : usbi_transfer) (io_size : Z)
    (hbuf : list Z) (dest : Z) :
  hid_buffer (transfer_priv it) = Some hbuf →
  hid_dest (transfer_priv it) = Some dest →
  aget hbuf 0 = Some 0 →
  0 <= io_size → 0 <= hid_expected_size (transfer_priv it) < 2 ^ 32 →
  Z.min io_size (hid_expected_size (transfer_priv it)) = 0 →
  Z.of_nat (length hbuf) < 2 ^ 32 →
  hid_copy_transfer_data it io_size = None.
Proof.
  intros Hbuf Hdest Hfirst Hio Hexp Hmin Hlen.
  unfold hid_copy_transfer_data. rewrite Hbuf, Hdest, Hfirst. cbn [mbind option_bind].
  set (expected := hid_expected_size (transfer_priv it)) in *.
  assert (Hc0 : (if expected <? io_size then ulong expected else io_size) = 0).
  { destruct (Z.ltb_spec expected io_size); [rewrite ulong_small|]; lia. }
  rewrite Hc0. cbn [Z.eqb]. change (ulong (0 - 1)) with (2 ^ 32 - 1).
  unfold memcpy.
  destruct (Z.leb_spec (1 + (2 ^ 32 - 1)) (Z.of_nat (length hbuf))); [lia|].
  rewrite !andb_false_r. reflexivity.
Qed.


Lemma hid_copy_transfer_data_empty_report_witness :
  hid_copy_transfer_data
    (mk_transfer 0 0 (replicate 8 0) 8
       (mk_transfer_priv (Some 7) (Some [0; 10; 20; 30; 40; 50; 60; 70; 80]) (Some 0) 8 0))
    0 = None.
Proof.
  apply (hid_copy_transfer_data_empty_report _ 0
           [0; 10; 20; 30; 40; 50; 60; 70; 80] 0);
    try reflexivity; cbn; lia.
Defined.

End HidCopyFacts.

(** ** Device interface paths *)

Module DevicePathFacts.
Import Ctypes Carray Cstr Libusb DevicePath CtypesFacts.

(** Facts about single characters are settled by going through the 256
    of them. *)
Ltac all_ascii c :=
  destruct c as [[] [] [] [] [] [] [] []]; vm_compute; reflexivity.

Lemma upper_swap_idemp_b (from to c : ascii) :
  from = backslash ∧ to = hash ∨ from = hash ∧ to = backslash →
  Ascii.eqb (upper_swap from to (upper_swap from to c)) (upper_swap from to c) = true.
Proof. intros [[-> ->]|[-> ->]]; all_ascii c. Qed.

Lemma upper_swap_idemp (c : ascii) :
  upper_swap backslash hash (upper_swap backslash hash c) = upper_swap backslash hash c.
Proof. apply Ascii.eqb_eq, upper_swap_idemp_b. auto. Qed.

Lemma upper_swap_back (c : ascii) :
  upper_swap hash backslash (upper_swap backslash hash c) = upper_swap hash backslash c.
Proof. apply Ascii.eqb_eq. all_ascii c. Qed.

Lemma upper_swap_not_from (from to c : ascii) :
  from = backslash ∧ to = hash ∨ from = hash ∧ to = backslash →
  Ascii.eqb (upper_swap from to c) from = false.
Proof. intros [[-> ->]|[-> ->]]; all_ascii c. Qed.

Lemma upper_swap_upper (from to c : ascii) :
  from = backslash ∧ to = hash ∨ from = hash ∧ to = backslash →
  is_Some (toupper c) → toupper (upper_swap from to c) = Some (upper_swap from to c).
Proof.
  intros Hft [u Hu].
  assert (H : match toupper c with
              | Some _ =>
                  match toupper (upper_swap from to c) with
                  | Some v => Ascii.eqb v (upper_swap from to c)
                  | None => false
                  end
              | None => true
              end = true).
  { destruct Hft as [[-> ->]|[-> ->]]; all_ascii c. }
  rewrite Hu in H. destruct (toupper (upper_swap from to c)) as [v|]; [|discriminate].
  apply Ascii.eqb_eq in H. congruence.
Qed.

Lemma upper_swap_nul (from to c : ascii) :
  from = backslash ∧ to = hash ∨ from = hash ∧ to = backslash →
  is_nul (upper_swap from to c) = is_nul c.
Proof. intros [[-> ->]|[-> ->]]; all_ascii c. Qed.

Lemma upper_swap_brace (c : ascii) :
  Ascii.eqb (upper_swap backslash hash c) brace = Ascii.eqb c brace.
Proof. all_ascii c. Qed.

Lemma toupper_zero : toupper zero = Some zero.
Proof. reflexivity. Qed.

Lemma upper_swap_zero (from to : ascii) :
  from = backslash ∧ to = hash ∨ from = hash ∧ to = backslash →
  upper_swap from to zero = zero.
Proof. intros [[-> ->]|[-> ->]]; reflexivity. Qed.

(** Texts and buffers. *)
Lemma chars_no_nul (s : string) : Forall (λ c, is_nul c = false) (chars s).
Proof.
  unfold chars. induction s as [|a s IH]; cbn; [constructor|].
  destruct (is_nul a) eqn:Ha; cbn; [constructor|].
  constructor; assumption.
Qed.

Lemma text_app_nul (l rest : list ascii) :
  Forall (λ c, is_nul c = false) l →
  text (l ++ zero :: rest) = string_of_list_ascii l.
Proof.
  unfold text. induction 1 as [|a l Ha _ IH]; cbn; [reflexivity|].
  rewrite Ha, IH. reflexivity.
Qed.

Lemma chars_string_of (l : list ascii) :
  Forall (λ c, is_nul c = false) l → chars (string_of_list_ascii l) = l.
Proof.
  unfold chars. induction 1 as [|a l Ha _ IH]; cbn; [reflexivity|].
  rewrite Ha. cbn. rewrite IH. reflexivity.
Qed.

Lemma no_nul_map_swap (from to : ascii) (l : list ascii) :
  from = backslash ∧ to = hash ∨ from = hash ∧ to = backslash →
  Forall (λ c, is_nul c = false) l →
  Forall (λ c, is_nul c = false) (map (upper_swap from to) l).
Proof.
  intros Hft Hl. apply Forall_map. eapply Forall_impl; [exact Hl|].
  intros c Hc. cbn. rewrite upper_swap_nul by exact Hft. exact Hc.
Qed.

(** The loop in closed form. *)
Lemma upper_loop_spec (from to : ascii) (n : nat) :
  ∀ (j : nat) (buf : list ascii),
  (j + n <= length buf)%nat →
  Forall (λ c, is_Some (toupper c)) (take n (drop j buf)) →
  upper_loop from to n (Z.of_nat j) buf
  = Some (take j buf ++ map (upper_swap from to) (take n (drop j buf))
          ++ drop (j + n) buf).
Proof.
  induction n as [|n IH]; intros j buf Hlen Hup; cbn [upper_loop].
  - rewrite take_0, Nat.add_0_r. cbn. rewrite take_drop. reflexivity.
  - destruct (lookup_lt_is_Some_2 buf j ltac:(lia)) as [c Hc].
    rewrite aget_of_nat, Hc. cbn [mbind option_bind].
    rewrite (drop_S _ _ _ Hc) in Hup |- *. rewrite firstn_cons in Hup |- *.
    apply Forall_cons in Hup as [[u Hu] Hup].
    rewrite Hu. cbn [mbind option_bind].
    rewrite aset_of_nat by lia. cbn [mbind option_bind].
    replace (Z.of_nat j + 1) with (Z.of_nat (S j)) by lia.
    set (x := if Ascii.eqb u from then to else u).
    assert (Hx : upper_swap from to c = x).
    { unfold upper_swap. rewrite Hu. reflexivity. }
    rewrite IH.
    + rewrite (take_S_r _ _ x) by (apply list_lookup_insert_eq; lia).
      rewrite take_insert_ge by lia.
      rewrite !drop_insert_lt by lia.
      cbn [map]. rewrite Hx, <- app_assoc. cbn [app].
      replace (S j + n)%nat with (j + S n)%nat by lia. reflexivity.
    + rewrite length_insert. lia.
    + rewrite drop_insert_lt by lia. exact Hup.
Qed.

Lemma write_at_nat (dst src : list ascii) (off : nat) :
  (off + length src <= length dst)%nat →
  write_at dst (Z.of_nat off) src
  = Some (take off dst ++ src ++ drop (off + length src) dst).
Proof.
  intros H. unfold write_at.
  destruct (Z.leb_spec 0 (Z.of_nat off)); [|lia].
  destruct (Z.leb_spec (Z.of_nat off + Z.of_nat (length src)) (Z.of_nat (length dst)));
    [|lia].
  cbn [andb]. rewrite Nat2Z.id. reflexivity.
Qed.

Lemma write_at_0 (dst src : list ascii) :
  (length src <= length dst)%nat →
  write_at dst 0 src = Some (src ++ drop (length src) dst).
Proof.
  intros H. unfold write_at.
  destruct (Z.leb_spec (0 + Z.of_nat (length src)) (Z.of_nat (length dst))); [|lia].
  cbn. reflexivity.
Qed.

(** Whether [sanitize_path] finds a root prefix. *)
Lemma has_root_prefix_total (path : list ascii) :
  (4 <= length path)%nat → is_Some (has_root_prefix path).
Proof.
  intros H. unfold has_root_prefix.
  destruct (aget_in_bounds path 0 ltac:(lia)) as [c0 ->].
  destruct (aget_in_bounds path 1 ltac:(lia)) as [c1 ->].
  destruct (aget_in_bounds path 3 ltac:(lia)) as [c3 ->].
  cbn. eauto.
Qed.

Lemma has_root_prefix_app (path rest : list ascii) :
  (4 <= length path)%nat →
  has_root_prefix (path ++ rest) = has_root_prefix path.
Proof.
  intros H. unfold has_root_prefix, aget.
  rewrite !in_bounds_true by (rewrite ?length_app; lia).
  rewrite !lookup_app_l by (cbn; lia). reflexivity.
Qed.

Lemma has_root_prefix_root (rest : list ascii) :
  has_root_prefix (list_ascii_of_string root_prefix ++ rest) = Some true.
Proof.
  rewrite has_root_prefix_app by (cbn; lia). reflexivity.
Qed.

Lemma has_root_prefix_long (p : string) :
  has_root_prefix (buffer_of p) = Some true → (4 <= length (chars p))%nat.
Proof.
  unfold buffer_of. destruct (chars p) as [|a [|b [|c [|d l]]]]; cbn [length]; try lia.
  - discriminate.
  - discriminate.
  - discriminate.
  - unfold has_root_prefix, aget, in_bounds. simpl.
    rewrite !andb_false_r. discriminate.
Qed.

Lemma rooted_long (p : string) : rooted p = true → (4 <= length (chars p))%nat.
Proof.
  unfold rooted. intros H. apply andb_true_iff in H as [_ H].
  apply has_root_prefix_long.
  destruct (has_root_prefix (buffer_of p)) as [[]|]; [reflexivity|discriminate..].
Qed.

Lemma rooted_has_root_prefix (p : string) :
  (4 <= length (chars p))%nat → has_root_prefix (buffer_of p) = Some (rooted p).
Proof.
  intros H. unfold rooted, safe_strlen.
  destruct (Z.ltb_spec 3 (Z.of_nat (length (chars p)) + 1)); [|lia].
  destruct (has_root_prefix_total (buffer_of p)) as [b ->]; [|reflexivity].
  unfold buffer_of. rewrite length_app. lia.
Qed.

Lemma length_path_body (p : string) :
  length (path_body p)
  = (if rooted p then length (chars p) - 4 else length (chars p))%nat.
Proof. unfold path_body. destruct (rooted p); [apply length_drop|reflexivity]. Qed.

Lemma path_body_no_nul (p : string) : Forall (λ c, is_nul c = false) (path_body p).
Proof.
  unfold path_body. destruct (rooted p); [apply Forall_drop|]; apply chars_no_nul.
Qed.

Lemma path_body_toupper (p : string) :
  toupper_defined p → Forall (λ c, is_Some (toupper c)) (path_body p).
Proof.
  unfold path_body, toupper_defined. intros H.
  destruct (rooted p); [apply Forall_drop|]; exact H.
Qed.

(** The buffer of [sanitize_path] before its closing loop. *)
Lemma sanitize_path_writes (p : string) :
  let add_root := if rooted p then 0 else 4 in
  (ret_path ← write_at
                (replicate (Z.to_nat (Z.of_nat (length (chars p)) + 1 + add_root)) zero)
                add_root (buffer_of p);
   write_at ret_path 0 (list_ascii_of_string root_prefix))
  = Some (list_ascii_of_string root_prefix ++ path_body p ++ [zero]).
Proof.
  cbn zeta. unfold path_body.
  assert (Hbuf : length (buffer_of p) = S (length (chars p))).
  { unfold buffer_of. rewrite length_app. cbn. lia. }
  destruct (rooted p) eqn:Hroot.
  - apply rooted_long in Hroot.
    replace (Z.to_nat (Z.of_nat (length (chars p)) + 1 + 0))
      with (length (buffer_of p)) by lia.
    rewrite write_at_0 by (rewrite length_replicate; lia).
    cbn [mbind option_bind].
    rewrite drop_replicate, Nat.sub_diag. cbn [replicate]. rewrite app_nil_r.
    rewrite write_at_0 by (cbn [length list_ascii_of_string root_prefix]; lia).
    f_equal. f_equal. unfold buffer_of.
    change (length (list_ascii_of_string root_prefix)) with 4%nat.
    rewrite drop_app_le by lia. reflexivity.
  - replace (Z.to_nat (Z.of_nat (length (chars p)) + 1 + 4))
      with (4 + length (buffer_of p))%nat by lia.
    change 4 with (Z.of_nat 4).
    rewrite write_at_nat by (rewrite length_replicate; lia).
    cbn [mbind option_bind].
    rewrite take_replicate, drop_replicate, Nat.sub_diag.
    replace (4 `min` (4 + length (buffer_of p)))%nat with 4%nat by lia.
    cbn [replicate]. rewrite app_nil_r.
    rewrite write_at_0 by (rewrite length_app; cbn; lia).
    reflexivity.
Qed.

(** [sanitize_path] in closed form: the root prefix, and the rest of the
    path in upper case with [#] for every backslash. *)
Lemma sanitize_path_closed (p : string) :
  toupper_defined p →
  sanitize_path true (Some p)
  = Some (Some (string_of_list_ascii
                  (list_ascii_of_string root_prefix
                   ++ map (upper_swap backslash hash) (path_body p)))).
Proof.
  intros Hup. unfold sanitize_path. cbn [negb].
  assert (Hrooted : (if 3 <? safe_strlen (Some p) + 1
                     then has_root_prefix (buffer_of p) else Some false)
                    = Some (rooted p)).
  { unfold rooted. destruct (3 <? safe_strlen (Some p) + 1) eqn:Hsize; [|reflexivity].
    apply Z.ltb_lt in Hsize. unfold safe_strlen in Hsize.
    destruct (has_root_prefix_total (buffer_of p)) as [b ->]; [|reflexivity].
    unfold buffer_of. rewrite length_app. cbn. lia. }
  rewrite Hrooted. cbn [mbind option_bind safe_strlen].
  change (Z.of_nat (String.length root_prefix)) with 4.
  pose proof (sanitize_path_writes p) as Hw. cbn zeta in Hw.
  destruct (write_at _ (if rooted p then 0 else 4) (buffer_of p)) as [ret1|];
    [|discriminate Hw].
  cbn [mbind option_bind] in Hw |- *. rewrite Hw. cbn [mbind option_bind].
  pose proof (length_path_body p) as Hlen.
  assert (Hlong : rooted p = true → (4 <= length (chars p))%nat) by apply rooted_long.
  replace (Z.to_nat (Z.of_nat (length (chars p)) + 1 + (if rooted p then 0 else 4) - 4))
    with (S (length (path_body p)))
    by (destruct (rooted p); [specialize (Hlong eq_refl)|]; lia).
  rewrite (upper_loop_spec backslash hash _ 4).
  - cbn [mbind option_bind]. f_equal. f_equal.
    change 4%nat with (length (list_ascii_of_string root_prefix)) at 1 2 3.
    rewrite take_app_length, drop_app_length.
    rewrite take_ge by (rewrite length_app; cbn; lia).
    rewrite drop_ge by (rewrite !length_app; cbn; lia).
    rewrite app_nil_r, map_app. cbn [map].
    rewrite upper_swap_zero by auto.
    rewrite app_assoc. apply text_app_nul.
    apply Forall_app. split; [repeat constructor|].
    apply no_nul_map_swap; [auto|apply path_body_no_nul].
  - rewrite !length_app. cbn. lia.
  - change 4%nat with (length (list_ascii_of_string root_prefix)).
    rewrite drop_app_length. rewrite take_ge by (rewrite length_app; cbn; lia).
    apply Forall_app. split; [apply path_body_toupper; exact Hup|].
    repeat constructor. eexists. apply toupper_zero.
Qed.

Lemma strchr_range (s : list ascii) (c : ascii) (pos : Z) :
  strchr s c = Some pos → 0 <= pos < Z.of_nat (length s).
Proof.
  revert pos. induction s as [|a s IH]; intros pos; cbn [strchr length]; [discriminate|].
  destruct (Ascii.eqb a c); [intros [= <-]; lia|].
  destruct (strchr s c) as [q|]; [|discriminate]. cbn. intros [= <-].
  specialize (IH q eq_refl). lia.
Qed.

Lemma strchr_sanitized (s : list ascii) :
  strchr (map (upper_swap backslash hash) s) brace = strchr s brace.
Proof.
  induction s as [|a s IH]; cbn [map strchr]; [reflexivity|].
  rewrite upper_swap_brace, IH. reflexivity.
Qed.

(** The end of [parse_device_interface_path]: the copy of the first [k]
    characters and the closing loop. *)
Lemma device_id_copy (body : list ascii) (k : nat) :
  (k <= length body)%nat → Z.of_nat k < 2 ^ 32 - 1 →
  Forall (λ c, is_Some (toupper c)) body →
  Forall (λ c, is_nul c = false) body →
  (device_id ← write_at (replicate (Z.to_nat (ulong (Z.of_nat k + 1))) zero) 0
                 (take (Z.to_nat (Z.min (Z.of_nat k) (Z.of_nat (length body)))) body
                  ++ [zero]);
   device_id ← upper_loop hash backslash k 0 device_id;
   Some (Some (text device_id), @nil event))
  = Some (Some (string_of_list_ascii (map (upper_swap hash backslash) (take k body))), []).
Proof.
  intros Hk Hsmall Hup Hnul.
  rewrite ulong_small by lia.
  replace (Z.to_nat (Z.of_nat k + 1)) with (S k) by lia.
  replace (Z.to_nat (Z.min (Z.of_nat k) (Z.of_nat (length body)))) with k by lia.
  assert (Hlen : length (take k body) = k) by (rewrite length_take; lia).
  rewrite write_at_0 by (rewrite length_replicate, length_app, Hlen; cbn; lia).
  cbn [mbind option_bind].
  rewrite drop_replicate, length_app, Hlen. cbn [length].
  replace (S k - (k + 1))%nat with 0%nat by lia. cbn [replicate]. rewrite app_nil_r.
  change 0 with (Z.of_nat 0).
  rewrite upper_loop_spec.
  - rewrite take_0, drop_0, Nat.add_0_l. cbn [mbind option_bind app].
    rewrite take_app_length' by (symmetry; exact Hlen).
    rewrite drop_app_length' by (symmetry; exact Hlen).
    rewrite text_app_nul; [reflexivity|].
    apply no_nul_map_swap; [auto|]. apply Forall_take. exact Hnul.
  - rewrite length_app, Hlen. cbn. lia.
  - rewrite drop_0. rewrite take_app_length' by (symmetry; exact Hlen).
    apply Forall_take. exact Hup.
Qed.

(** [parse_device_interface_path] in closed form, for a path of at least
    four characters. *)
Lemma parse_device_interface_path_closed (calloc_ok : bool) (p : string) :
  toupper_defined p →
  4 <= Z.of_nat (length (chars p)) < 2 ^ 32 - 1 →
  parse_device_interface_path calloc_ok (Some p)
  = match strchr (path_body p) brace with
    | Some guid_start =>
        if guid_start =? 0 then (if calloc_ok then None else Some (None, []))
        else if guid_start =? 1 then Some (None, invalid_path)
        else if calloc_ok
             then Some (Some (string_of_list_ascii
                                (map (upper_swap hash backslash)
                                   (take (Z.to_nat (guid_start - 1)) (path_body p)))),
                        [])
             else Some (None, [])
    | None =>
        if Z.of_nat (length (path_body p)) =? 0 then Some (None, invalid_path)
        else if calloc_ok
             then Some (Some (string_of_list_ascii
                                (map (upper_swap hash backslash) (path_body p))), [])
             else Some (None, [])
    end.
Proof.
  intros Hup Hlen. unfold parse_device_interface_path. cbn [safe_strlen].
  rewrite ulong_small by lia.
  destruct (Z.ltb_spec (Z.of_nat (length (chars p))) 4) as [|_]; [lia|].
  rewrite rooted_has_root_prefix by lia. cbn [mbind option_bind].
  fold (path_body p).
  pose proof (length_path_body p) as Hbody.
  pose proof (rooted_long p) as Hlong.
  assert (Hlen0 : (if rooted p then ulong (Z.of_nat (length (chars p)) - 4)
                   else Z.of_nat (length (chars p)))
                  = Z.of_nat (length (path_body p))).
  { destruct (rooted p); [specialize (Hlong eq_refl); rewrite ulong_small|]; lia. }
  rewrite Hlen0.
  assert (Hsmall : Z.of_nat (length (path_body p)) < 2 ^ 32 - 1).
  { destruct (rooted p); [specialize (Hlong eq_refl)|]; lia. }
  pose proof (path_body_toupper p Hup) as Hup'.
  pose proof (path_body_no_nul p) as Hnul.
  destruct (strchr (path_body p) brace) as [guid_start|] eqn:Hbrace.
  - apply strchr_range in Hbrace.
    destruct (Z.eqb_spec guid_start 0) as [->|Hne0].
    { change (ulong (0 - 1)) with (2 ^ 32 - 1). cbn [Z.leb Z.compare Z.pow Z.sub].
      destruct calloc_ok; [|reflexivity]. cbn [negb].
      change (Z.to_nat (ulong (2 ^ 32 - 1 + 1))) with 0%nat. cbn [replicate].
      unfold write_at. cbn [length]. rewrite length_app. cbn [length].
      destruct (Z.leb_spec (0 + Z.of_nat (length (take
                  (Z.to_nat (Z.min (2 ^ 32 - 1) (Z.of_nat (length (path_body p)))))
                  (path_body p)) + 1)) (Z.of_nat 0)); [lia|].
      reflexivity. }
    rewrite ulong_small by lia.
    destruct (Z.eqb_spec guid_start 1) as [->|Hne1]; [reflexivity|].
    destruct (Z.leb_spec (guid_start - 1) 0); [lia|].
    destruct calloc_ok; [|reflexivity]. cbn [negb].
    remember (Z.to_nat (guid_start - 1)) as k eqn:Hk.
    replace (guid_start - 1) with (Z.of_nat k) by lia.
    apply device_id_copy; [lia|lia|assumption|assumption].
  - destruct (Z.eqb_spec (Z.of_nat (length (path_body p))) 0) as [H0|H0].
    { rewrite H0. reflexivity. }
    destruct (Z.leb_spec (Z.of_nat (length (path_body p))) 0); [lia|].
    destruct calloc_ok; [|reflexivity]. cbn [negb].
    rewrite Nat2Z.id.
    rewrite device_id_copy; [|lia|lia|assumption|assumption].
    rewrite take_ge by lia. reflexivity.
Qed.

Lemma toupper_defined_check (s : string) :
  forallb (λ c, match toupper c with Some _ => true | None => false end) (chars s) = true →
  toupper_defined s.
Proof.
  unfold toupper_defined. induction (chars s) as [|c l IH]; cbn [forallb]; [constructor|].
  intros H. apply andb_true_iff in H as [Hc Hl].
  constructor; [|apply IH; exact Hl].
  destruct (toupper c); [eauto|discriminate Hc].
Qed.

(** What [sanitize_path] returns is again a path [sanitize_path] takes. *)
Lemma sanitized_chars (p : string) :
  let r := string_of_list_ascii
             (list_ascii_of_string root_prefix
              ++ map (upper_swap backslash hash) (path_body p)) in
  toupper_defined p →
  chars r = list_ascii_of_string root_prefix
            ++ map (upper_swap backslash hash) (path_body p)
  ∧ toupper_defined r ∧ rooted r = true
  ∧ path_body r = map (upper_swap backslash hash) (path_body p).
Proof.
  intros r Hup.
  assert (Hchars : chars r = list_ascii_of_string root_prefix
                             ++ map (upper_swap backslash hash) (path_body p)).
  { apply chars_string_of. apply Forall_app. split; [repeat constructor|].
    apply no_nul_map_swap; [auto|apply path_body_no_nul]. }
  assert (Hrooted : rooted r = true).
  { assert (Hr : has_root_prefix (buffer_of r) = Some (rooted r)).
    { apply rooted_has_root_prefix. rewrite Hchars, length_app. cbn. lia. }
    unfold buffer_of in Hr. rewrite Hchars, <- app_assoc, has_root_prefix_root in Hr.
    congruence. }
  split; [exact Hchars|]. split; [|split; [exact Hrooted|]].
  - unfold toupper_defined. rewrite Hchars. apply Forall_app. split.
    + repeat constructor; eexists; reflexivity.
    + apply Forall_map. eapply Forall_impl; [apply path_body_toupper; exact Hup|].
      intros c Hc. cbn. rewrite upper_swap_upper by auto. eauto.
  - unfold path_body at 1. rewrite Hrooted, Hchars. reflexivity.
Qed.

(** X23. [sanitize_path] puts every path into one form:
    the result starts with the root prefix [\\.\] (added when the path
    had none of the four prefixes, written over the one it had
    otherwise), and what follows is the rest of the path, as long as it
    was, in upper case and without any backslash.  It returns NULL only
    for a NULL path or when [calloc] fails. *)
Theorem sanitize_path_shape (p : string) :
  toupper_defined p →
  ∃ r tail,
    sanitize_path true (Some p) = Some (Some r)
    ∧ chars r = list_ascii_of_string root_prefix ++ tail
    ∧ tail = map (upper_swap backslash hash) (path_body p)
    ∧ length tail = (if rooted p then length (chars p) - 4 else length (chars p))%nat
    ∧ Forall (λ c, c ≠ backslash ∧ toupper c = Some c) tail
    ∧ sanitize_path false (Some p) = Some None.
Proof.
  intros Hup. eexists _, _. split; [apply sanitize_path_closed; exact Hup|].
  destruct (sanitized_chars p Hup) as (Hchars & _).
  split; [exact Hchars|]. split; [reflexivity|].
  split; [rewrite length_map; apply length_path_body|]. split.
  - apply Forall_map. eapply Forall_impl; [apply path_body_toupper; exact Hup|].
    intros c Hc. cbn. split.
    + intros Heq. pose proof (upper_swap_not_from backslash hash c) as Hne.
      rewrite Heq in Hne. specialize (Hne ltac:(auto)). discriminate Hne.
    + apply upper_swap_upper; auto.
  - unfold sanitize_path. cbn [negb].
    destruct (3 <? safe_strlen (Some p) + 1) eqn:Hsize; [|reflexivity].
    apply Z.ltb_lt in Hsize. unfold safe_strlen in Hsize.
    destruct (has_root_prefix_total (buffer_of p)) as [b ->]; [|reflexivity].
    unfold buffer_of. rewrite length_app. cbn. lia.
Qed.

(** X24. Sanitising a sanitised path changes
    nothing: the form [sanitize_path] produces is the one it leaves
    alone, so two spellings of a path are compared by what they are
    turned into. *)
Theorem sanitize_path_idempotent (p r : string) :
  toupper_defined p →
  sanitize_path true (Some p) = Some (Some r) →
  sanitize_path true (Some r) = Some (Some r).
Proof.
  intros Hup Hrun.
  assert (Hr : r = string_of_list_ascii
                     (list_ascii_of_string root_prefix
                      ++ map (upper_swap backslash hash) (path_body p))).
  { rewrite sanitize_path_closed in Hrun by exact Hup. congruence. }
  rewrite Hr. clear Hrun Hr.
  destruct (sanitized_chars p Hup) as (_ & Hup' & _ & Hbody).
  rewrite sanitize_path_closed by exact Hup'.
  rewrite Hbody, map_map.
  do 4 f_equal. apply map_ext. intros c. apply upper_swap_idemp.
Qed.

(** X25. The device instance
    identifier is the part of the interface path between its root prefix
    and the separator before the first [{], in upper case and with a
    backslash for every [#]; it is never empty and holds no [#]. *)
Theorem parse_device_interface_path_instance_id (p : string) (guid_start : Z) :
  toupper_defined p →
  4 <= Z.of_nat (length (chars p)) < 2 ^ 32 - 1 →
  strchr (path_body p) brace = Some guid_start →
  2 <= guid_start →
  ∃ id,
    parse_device_interface_path true (Some p) = Some (Some id, [])
    ∧ chars id = map (upper_swap hash backslash)
                   (take (Z.to_nat (guid_start - 1)) (path_body p))
    ∧ Z.of_nat (length (chars id)) = guid_start - 1
    ∧ Forall (λ c, c ≠ hash ∧ toupper c = Some c) (chars id)
    ∧ parse_device_interface_path false (Some p) = Some (None, []).
Proof.
  intros Hup Hlen Hbrace Hpos.
  rewrite !parse_device_interface_path_closed by assumption.
  rewrite Hbrace.
  destruct (Z.eqb_spec guid_start 0); [lia|].
  destruct (Z.eqb_spec guid_start 1); [lia|].
  apply strchr_range in Hbrace.
  eexists. split; [reflexivity|].
  assert (Hchars : chars (string_of_list_ascii
                     (map (upper_swap hash backslash)
                        (take (Z.to_nat (guid_start - 1)) (path_body p))))
                   = map (upper_swap hash backslash)
                       (take (Z.to_nat (guid_start - 1)) (path_body p))).
  { apply chars_string_of. apply no_nul_map_swap; [auto|].
    apply Forall_take, path_body_no_nul. }
  rewrite Hchars. split; [reflexivity|]. split.
  { rewrite length_map, length_take. lia. }
  split; [|reflexivity].
  apply Forall_map. eapply Forall_impl.
  { apply Forall_take, path_body_toupper. exact Hup. }
  intros c Hc. cbn. split.
  - intros Heq. pose proof (upper_swap_not_from hash backslash c) as Hne.
    rewrite Heq in Hne. specialize (Hne ltac:(auto)). discriminate Hne.
  - apply upper_swap_upper; auto.
Qed.

(** X26. Where
    [parse_device_interface_path] gives no identifier: a path of fewer
    than four characters gives NULL; a path with nothing between the root
    prefix and the separator before [{], or with nothing after the root
    prefix, gives NULL and the log of the failed assertion; and a [{]
    right after the root prefix makes [len] wrap around to 2^32 - 1, so
    that [calloc] is asked for no byte and [strncat] writes into what it
    returns. *)
Theorem parse_device_interface_path_edges (calloc_ok : bool) (p : string) :
  toupper_defined p →
  Z.of_nat (length (chars p)) < 2 ^ 32 - 1 →
  (Z.of_nat (length (chars p)) < 4 →
     parse_device_interface_path calloc_ok (Some p) = Some (None, []))
  ∧ (4 <= Z.of_nat (length (chars p)) →
     strchr (path_body p) brace = Some 1
     ∨ (strchr (path_body p) brace = None ∧ path_body p = []) →
     parse_device_interface_path calloc_ok (Some p) = Some (None, invalid_path))
  ∧ (4 <= Z.of_nat (length (chars p)) →
     strchr (path_body p) brace = Some 0 →
     parse_device_interface_path true (Some p) = None
     ∧ parse_device_interface_path false (Some p) = Some (None, [])).
Proof.
  intros Hup Hlen. split; [|split].
  - intros Hshort. unfold parse_device_interface_path. cbn [safe_strlen].
    rewrite ulong_small by lia.
    destruct (Z.ltb_spec (Z.of_nat (length (chars p))) 4); [reflexivity|lia].
  - intros Hlong Hcase.
    rewrite parse_device_interface_path_closed by (assumption || lia).
    destruct Hcase as [-> | [-> ->]]; reflexivity.
  - intros Hlong Hbrace.
    rewrite !parse_device_interface_path_closed by (assumption || lia).
    rewrite Hbrace. split; reflexivity.
Qed.

(** X27. The identifier does not depend on the
    spelling of the path: [parse_device_interface_path] gives for the
    sanitised path what it gives for the path itself, whichever root
    prefix, case and separators the path came with. *)
Theorem parse_sanitized_path (calloc_ok : bool) (p : string) :
  toupper_defined p →
  4 <= Z.of_nat (length (chars p)) → Z.of_nat (length (chars p)) + 4 < 2 ^ 32 - 1 →
  ∃ r,
    sanitize_path true (Some p) = Some (Some r)
    ∧ parse_device_interface_path calloc_ok (Some r)
      = parse_device_interface_path calloc_ok (Some p).
Proof.
  intros Hup Hlong Hsmall. eexists. split; [apply sanitize_path_closed; exact Hup|].
  destruct (sanitized_chars p Hup) as (Hchars & Hup' & _ & Hbody).
  pose proof (length_path_body p) as Hlen.
  rewrite (parse_device_interface_path_closed calloc_ok p) by (assumption || lia).
  rewrite parse_device_interface_path_closed.
  - rewrite Hbody, strchr_sanitized, length_map.
    destruct (strchr (path_body p) brace) as [guid_start|].
    + rewrite firstn_map, map_map.
      rewrite (map_ext _ _ upper_swap_back). reflexivity.
    + rewrite map_map, (map_ext _ _ upper_swap_back). reflexivity.
  - exact Hup'.
  - rewrite Hchars, length_app, length_map, Hlen. cbn [length list_ascii_of_string root_prefix].
    destruct (rooted p); lia.
Qed.

Lemma sanitize_path_shape_witness :
  toupper_defined path_stick_bare
  ∧ sanitize_path true (Some path_stick_bare)
    = Some (Some "\\.\USB#VID_0781&PID_5581#4C530001#{A5DCBF10-6530-11D2-901F-00C04FB951ED}"%string).
Proof.
  assert (Hup : toupper_defined path_stick_bare).
  { apply toupper_defined_check. vm_compute. reflexivity. }
  split; [exact Hup|].
  destruct (sanitize_path_shape path_stick_bare Hup) as (r & tail & Hrun & _).
  rewrite Hrun. vm_compute in Hrun. symmetry. exact Hrun.
Defined.

Lemma sanitize_path_idempotent_witness :
  let r := "\\.\USB#VID_0781&PID_5581#4C530001#{A5DCBF10-6530-11D2-901F-00C04FB951ED}"%string in
  toupper_defined path_stick
  ∧ sanitize_path true (Some path_stick) = Some (Some r)
  ∧ sanitize_path true (Some r) = Some (Some r).
Proof.
  cbn zeta.
  assert (Hup : toupper_defined path_stick).
  { apply toupper_defined_check. vm_compute. reflexivity. }
  assert (Hrun : sanitize_path true (Some path_stick)
                 = Some (Some "\\.\USB#VID_0781&PID_5581#4C530001#{A5DCBF10-6530-11D2-901F-00C04FB951ED}"%string)).
  { vm_compute. reflexivity. }
  split; [exact Hup|]. split; [exact Hrun|].
  exact (sanitize_path_idempotent path_stick _ Hup Hrun).
Defined.

Lemma parse_device_interface_path_instance_id_witness :
  toupper_defined path_stick
  ∧ 4 <= Z.of_nat (length (chars path_stick)) < 2 ^ 32 - 1
  ∧ strchr (path_body path_stick) brace = Some 31 ∧ 2 <= 31
  ∧ parse_device_interface_path true (Some path_stick)
    = Some (Some "USB\VID_0781&PID_5581\4C530001"%string, []).
Proof.
  assert (Hup : toupper_defined path_stick).
  { apply toupper_defined_check. vm_compute. reflexivity. }
  assert (Hlen : 4 <= Z.of_nat (length (chars path_stick)) < 2 ^ 32 - 1).
  { vm_compute. split; [intros Hc; discriminate Hc|reflexivity]. }
  assert (Hbrace : strchr (path_body path_stick) brace = Some 31).
  { vm_compute. reflexivity. }
  split; [exact Hup|]. split; [exact Hlen|]. split; [exact Hbrace|]. split; [lia|].
  destruct (parse_device_interface_path_instance_id path_stick 31 Hup Hlen Hbrace
              ltac:(lia)) as (id & Hrun & _).
  rewrite Hrun. vm_compute in Hrun. symmetry. exact Hrun.
Defined.

Lemma parse_device_interface_path_edges_witness :
  toupper_defined "\\?\{a5dcbf10}"%string
  ∧ Z.of_nat (length (chars "\\?\{a5dcbf10}"%string)) < 2 ^ 32 - 1
  ∧ strchr (path_body "\\?\{a5dcbf10}"%string) brace = Some 0
  ∧ parse_device_interface_path true (Some "\\?\{a5dcbf10}"%string) = None.
Proof.
  assert (Hup : toupper_defined "\\?\{a5dcbf10}"%string).
  { apply toupper_defined_check. vm_compute. reflexivity. }
  assert (Hlen : Z.of_nat (length (chars "\\?\{a5dcbf10}"%string)) < 2 ^ 32 - 1).
  { vm_compute. reflexivity. }
  assert (Hbrace : strchr (path_body "\\?\{a5dcbf10}"%string) brace = Some 0).
  { vm_compute. reflexivity. }
  split; [exact Hup|]. split; [exact Hlen|]. split; [exact Hbrace|].
  destruct (parse_device_interface_path_edges true _ Hup Hlen) as (_ & _ & Hfirst).
  apply Hfirst; [vm_compute; intros Hc; discriminate Hc|exact Hbrace].
Defined.

Lemma parse_sanitized_path_witness :
  toupper_defined path_stick_bare
  ∧ 4 <= Z.of_nat (length (chars path_stick_bare))
  ∧ Z.of_nat (length (chars path_stick_bare)) + 4 < 2 ^ 32 - 1
  ∧ ∃ r, sanitize_path true (Some path_stick_bare) = Some (Some r)
         ∧ parse_device_interface_path true (Some r)
           = Some (Some "USB\VID_0781&PID_5581\4C530001"%string, []).
Proof.
  assert (Hup : toupper_defined path_stick_bare).
  { apply toupper_defined_check. vm_compute. reflexivity. }
  assert (Hlong : 4 <= Z.of_nat (length (chars path_stick_bare))).
  { vm_compute. intros Hc. discriminate Hc. }
  assert (Hsmall : Z.of_nat (length (chars path_stick_bare)) + 4 < 2 ^ 32 - 1).
  { vm_compute. reflexivity. }
  split; [exact Hup|]. split; [exact Hlong|]. split; [exact Hsmall|].
  destruct (parse_sanitized_path true path_stick_bare Hup Hlong Hsmall)
    as (r & Hrun & Hsame).
  exists r. split; [exact Hrun|]. rewrite Hsame. vm_compute. reflexivity.
Defined.

End DevicePathFacts.
